(** * automate-pro: the statement separator and the invoice extractor

    A shallow embedding of the segmentation and classification code of
    [src/main.py] (the Flask application "Document Processor") and the
    properties of its specification, proved or refuted against that
    embedding.

    Conventions of the embedding.

    - A page text is a [string]; a character is a code point below 256
      (ASCII and Latin-1), and the character classes below are those of
      Python's [str] methods and of [re] on [str] patterns for these code
      points.
    - Python integers are [Z].
    - A PDF document is the list of its page texts: [len(doc)] is the length
      of the list and [load_page(i).get_text()] its [i]-th element.
    - The registry read from the spreadsheet is a list of strings.
    - Floating point similarity scores are exact rationals ([Q]); the two
      agree on every comparison made here as long as the compared strings are
      shorter than 2^26 characters.
    - The functions of the PyPDF2 backend are embedded as their bodies run
      once the name [PyPDF2] resolves to the library.  The module imports
      the library as [pdf_lib]; what the routes answer with the globals that
      the import block leaves is the matter of [Main.Globals] and of the
      definitions after it.
    - [Py.int] and [Main.total_pages_of] are values; the [ValueError] that
      [int] raises on more than 4300 digits is the matter of [Py.int_raises],
      [Main.total_pages_run] and [Main.page_pymupdf_run].
    - The session is Flask's cookie session: a handler sees the dictionaries
      as they were stored, with sorted keys, and what it changes inside them
      is stored only when it assigns [session['temp_data']]
      ([Main.stored_session]). *)

From Stdlib Require Import Bool Arith ZArith List Lia.
From Stdlib Require Import Strings.Ascii Strings.String.
From Stdlib Require Import QArith.
From Stdlib Require Import Sorting.Sorted Sorting.Permutation Sorting.Mergesort.
From Stdlib Require Import Structures.Orders.
Import ListNotations.

Open Scope bool_scope.
Open Scope string_scope.
Open Scope Z_scope.

(* ================================================================== *)
(** * Python's string primitives *)
(* ================================================================== *)

Module Py.

Definition code (c : ascii) : nat := nat_of_ascii c.

Definition between (lo hi : nat) (c : ascii) : bool :=
  ((lo <=? code c) && (code c <=? hi))%nat.

(** [str.isspace], which is also [\s] of [re] and what [str.strip] removes. *)
Definition isspace (c : ascii) : bool :=
  between 9 13 c || between 28 32 c || between 133 133 c
  || between 160 160 c.

(** The line boundaries of [str.splitlines]. *)
Definition islinebreak (c : ascii) : bool :=
  between 10 13 c || between 28 30 c || between 133 133 c.

(** [\d] of [re]. *)
Definition isdigit (c : ascii) : bool := between 48 57 c.

(** [\w] of [re]: alphanumeric characters and the underscore. *)
Definition isword (c : ascii) : bool :=
  between 48 57 c || between 65 90 c || between 97 122 c
  || between 95 95 c
  || between 170 170 c || between 178 179 c || between 181 181 c
  || between 185 186 c || between 188 190 c
  || between 192 214 c || between 216 246 c || between 248 255 c.

(** [str.lower] on one character. *)
Definition lower_char (c : ascii) : ascii :=
  if between 65 90 c || between 192 214 c || between 216 222 c
  then ascii_of_nat (code c + 32)
  else c.

Fixpoint lower (s : string) : string :=
  match s with
  | "" => ""
  | String c s' => String (lower_char c) (lower s')
  end.

(** [s.find(sub)]: the lowest index where [sub] occurs, [-1] if none. *)
Definition find (s sub : string) : Z :=
  match index 0 sub s with
  | Some i => Z.of_nat i
  | None => -1
  end.

(** [sub in s]. *)
Definition contains (sub s : string) : bool :=
  match index 0 sub s with
  | Some _ => true
  | None => false
  end.

(** [s[lo:hi]] for indices that are not negative. *)
Definition slice (s : string) (lo hi : Z) : string :=
  substring (Z.to_nat lo) (Z.to_nat (hi - lo)) s.

Fixpoint lstrip (s : string) : string :=
  match s with
  | "" => ""
  | String c s' => if isspace c then lstrip s' else s
  end.

Fixpoint rstrip (s : string) : string :=
  match s with
  | "" => ""
  | String c s' =>
      match rstrip s' with
      | "" => if isspace c then "" else String c ""
      | r => String c r
      end
  end.

Definition strip (s : string) : string := rstrip (lstrip s).

Definition CR : ascii := "013"%char.
Definition LF : ascii := "010"%char.

(** [str.splitlines]: [after_cr] tells that the previous character was a
    carriage return, whose line feed belongs to the same boundary. *)
Fixpoint splitlines_from (after_cr : bool) (s : string) : list string :=
  match s with
  | "" => []
  | String c s' =>
      if after_cr && Ascii.eqb c LF then splitlines_from false s'
      else if islinebreak c then "" :: splitlines_from (Ascii.eqb c CR) s'
      else match splitlines_from false s' with
           | [] => [String c ""]
           | l :: ls => String c l :: ls
           end
  end.

Definition splitlines (s : string) : list string := splitlines_from false s.

(** [sep.join(parts)]. *)
Fixpoint join (sep : string) (parts : list string) : string :=
  match parts with
  | [] => ""
  | [p] => p
  | p :: ps => p ++ sep ++ join sep ps
  end.

(** [x in xs] for a list of strings. *)
Definition mem (x : string) (xs : list string) : bool :=
  existsb (String.eqb x) xs.

(** [int(s)] on a string of decimal digits: its value when the call
    returns.  The call raises [ValueError] when the string has more digits
    than the interpreter's limit on the conversion of strings to integers,
    4300 unless it is configured otherwise; leading zeros count. *)
Definition int_max_str_digits : nat := 4300.

Definition int_raises (s : string) : bool :=
  (int_max_str_digits <? String.length s)%nat.

Definition digit_value (c : ascii) : Z := Z.of_nat (code c - 48).

Fixpoint int_from (acc : Z) (s : string) : Z :=
  match s with
  | "" => acc
  | String c s' => int_from (10 * acc + digit_value c) s'
  end.

Definition int (s : string) : Z := int_from 0 s.

(** [list(range(lo, hi))]. *)
Definition range (lo hi : Z) : list Z :=
  map (fun i => lo + Z.of_nat i) (seq 0 (Z.to_nat (hi - lo))).

(** The maximal run of characters of a class at the head of a string, and
    what follows it. *)
Fixpoint span (p : ascii -> bool) (s : string) : string * string :=
  match s with
  | "" => ("", "")
  | String c s' =>
      if p c then let (run, rest) := span p s' in (String c run, rest)
      else ("", s)
  end.

(** Removes a literal from the head of a string, comparing characters
    without regard to case ([re.IGNORECASE]). *)
Fixpoint eat_nocase (lit s : string) : option string :=
  match lit, s with
  | "", _ => Some s
  | String _ _, "" => None
  | String a lit', String c s' =>
      if Ascii.eqb (lower_char a) (lower_char c) then eat_nocase lit' s'
      else None
  end.

End Py.

(* ================================================================== *)
(** * The two regular expressions of the program *)
(* ================================================================== *)

Module Re.
Import Py.

(** [Page\s*(\d+)\s*of\s*(\d+)] with [re.IGNORECASE], anchored at the head
    of [s]; the result is the pair of groups.  Every quantifier is greedy
    and is followed by a character outside its class, so the first attempt
    of the backtracking matcher is the only one that can succeed. *)
Definition match_page_here (s : string) : option (string * string) :=
  match eat_nocase "Page" s with
  | None => None
  | Some s1 =>
      let (_, s2) := span isspace s1 in
      let (g1, s3) := span isdigit s2 in
      match g1 with
      | "" => None
      | _ =>
          let (_, s4) := span isspace s3 in
          match eat_nocase "of" s4 with
          | None => None
          | Some s5 =>
              let (_, s6) := span isspace s5 in
              let (g2, _) := span isdigit s6 in
              match g2 with
              | "" => None
              | _ => Some (g1, g2)
              end
          end
      end
  end.

(** [re.search]: the leftmost position where the pattern matches. *)
Fixpoint search_page (s : string) : option (string * string) :=
  match match_page_here s with
  | Some g => Some g
  | None =>
      match s with
      | "" => None
      | String _ s' => search_page s'
      end
  end.

(** [\b] after a word character: the end of the text or a character that
    is not a word character. *)
Definition boundary_after_word (s : string) : bool :=
  match s with
  | "" => true
  | String c _ => negb (isword c)
  end.

(** [\b] before a word character; [prev] is the character before it. *)
Definition boundary_before_word (prev : option ascii) : bool :=
  match prev with
  | None => true
  | Some c => negb (isword c)
  end.

(** Exactly [n] digits at the head of [s], and what follows them. *)
Fixpoint take_digits (n : nat) (s : string) : option (string * string) :=
  match n with
  | O => Some ("", s)
  | S n' =>
      match s with
      | "" => None
      | String c s' =>
          if isdigit c then
            match take_digits n' s' with
            | Some (ds, rest) => Some (String c ds, rest)
            | None => None
            end
          else None
      end
  end.

(** [\d{n}\b] at the head of [s]. *)
Definition digits_then_boundary (n : nat) (s : string) : option string :=
  match take_digits n s with
  | Some (ds, rest) => if boundary_after_word rest then Some ds else None
  | None => None
  end.

(** [\d{6,8}\b]: the greedy quantifier tries eight digits, then seven,
    then six. *)
Definition digits_6_8 (s : string) : option string :=
  match digits_then_boundary 8 s with
  | Some ds => Some ds
  | None =>
      match digits_then_boundary 7 s with
      | Some ds => Some ds
      | None => digits_then_boundary 6 s
      end
  end.

(** [\b[PR]\d{6,8}\b] anchored at the head of [s]. *)
Definition match_invoice_here (prev : option ascii) (s : string)
  : option string :=
  match s with
  | "" => None
  | String c s' =>
      if boundary_before_word prev
         && (Ascii.eqb c "P"%char || Ascii.eqb c "R"%char)
      then match digits_6_8 s' with
           | Some ds => Some (String c ds)
           | None => None
           end
      else None
  end.

(** [re.findall]: the matches from left to right, none overlapping
    another; [skip] counts the characters of the last match that are still
    to be passed. *)
Fixpoint findall_from (prev : option ascii) (skip : nat) (s : string)
  : list string :=
  match s with
  | "" => []
  | String c s' =>
      match skip with
      | S k => findall_from (Some c) k s'
      | O =>
          match match_invoice_here prev s with
          | Some m => m :: findall_from (Some c) (String.length m - 1) s'
          | None => findall_from (Some c) 0 s'
          end
      end
  end.

Definition findall_invoices (s : string) : list string :=
  findall_from None 0 s.

End Re.

(* ================================================================== *)
(** * difflib: SequenceMatcher and get_close_matches *)
(* ================================================================== *)

(** The program calls [difflib.get_close_matches(word, possibilities, n=1,
    cutoff=0.8)] of Python's standard library.  The module follows the
    library's code: [SequenceMatcher(a=x, b=word)] with no junk function and
    with the automatic junk heuristic, the dynamic programme of
    [find_longest_match], the recursion of [get_matching_blocks], the three
    ratios, and [heapq.nlargest(1, ...)], which is [max]. *)

Module difflib.

Definition seq_of (s : string) : list ascii := list_ascii_of_string s.

(** [bpopular]: when [b] has 200 elements or more, the elements that occur
    more than [len(b) // 100 + 1] times are removed from the index
    [b2j]. *)
Definition popular (b : list ascii) (x : ascii) : bool :=
  let n := List.length b in
  ((200 <=? n) && (n / 100 + 1 <? count_occ ascii_dec b x))%nat.

Section FindLongestMatch.
(** [indexed x]: [x] is a key of [b2j]. *)
Variable indexed : ascii -> bool.

(** One pass of the inner loop: [newj2len[j] = j2len.get(j-1, 0) + 1]
    for the positions [j] of [b] listed under [a[i]] in [b2j]; [diag]
    is [j2len] shifted by one position, absent entries being 0. *)
Fixpoint next_row (x : ascii) (b : list ascii) (diag : list nat)
  : list nat :=
  match b, diag with
  | bj :: b', d :: diag' =>
      (if Ascii.eqb bj x && indexed x then S d else 0%nat)
        :: next_row x b' diag'
  | _, _ => []
  end.

(** The update of [(besti, bestj, bestsize)] along one row, [j]
    ascending. *)
Fixpoint scan_row (i j : nat) (row : list nat) (best : nat * nat * nat)
  : nat * nat * nat :=
  match row with
  | [] => best
  | k :: row' =>
      let '(_, _, bestsize) := best in
      scan_row i (S j) row'
        (if (bestsize <? k)%nat
         then (i + 1 - k, j + 1 - k, k)%nat
         else best)
  end.

(** The outer loop over [a]. *)
Fixpoint rows (b a : list ascii) (i : nat) (j2len : list nat)
  (best : nat * nat * nat) : nat * nat * nat :=
  match a with
  | [] => best
  | x :: a' =>
      let newj2len := next_row x b (0%nat :: j2len) in
      rows b a' (S i) newj2len (scan_row i 0 newj2len best)
  end.

(** Length of the longest common prefix. *)
Fixpoint common_prefix (u v : list ascii) : nat :=
  match u, v with
  | x :: u', y :: v' =>
      if Ascii.eqb x y then S (common_prefix u' v') else 0%nat
  | _, _ => 0%nat
  end.

(** [find_longest_match] on the slices [a[alo:ahi]] and [b[blo:bhi]],
    positions relative to the slices.  After the dynamic programme the
    block is extended on both sides by equal elements (the junk set is
    empty, so the two loops over junk do nothing). *)
Definition find_longest_match (a b : list ascii) : nat * nat * nat :=
  let '(i, j, k) :=
    rows b a 0 (repeat 0%nat (List.length b)) (0, 0, 0)%nat in
  let l := common_prefix (rev (firstn i a)) (rev (firstn j b)) in
  let r := common_prefix (skipn (i + k) a) (skipn (j + k) b) in
  (i - l, j - l, k + l + r)%nat.

(** [sum(triple[-1] for triple in get_matching_blocks())]: the block
    found, then the pieces on its left and on its right. *)
Fixpoint matching_size (fuel : nat) (a b : list ascii) : nat :=
  match fuel with
  | O => 0%nat
  | S fuel' =>
      let '(i, j, k) := find_longest_match a b in
      if (k =? 0)%nat then 0%nat
      else
        ((if (0 <? i) && (0 <? j)
          then matching_size fuel' (firstn i a) (firstn j b)
          else 0)
         + k
         + (if (i + k <? List.length a) && (j + k <? List.length b)
            then matching_size fuel' (skipn (i + k) a) (skipn (j + k) b)
            else 0))%nat
  end.
End FindLongestMatch.

(** The number of matched elements of [SequenceMatcher(None, a, b)]; every
    recursive call is on a strictly shorter [a], so [len(a) + 1] rounds
    are enough. *)
Definition matches (a b : list ascii) : nat :=
  matching_size (fun x => negb (popular b x)) (S (List.length a)) a b.

Definition _calculate_ratio (matches length : nat) : Q :=
  if (length =? 0)%nat then 1%Q
  else (2 * Z.of_nat matches # Pos.of_nat length)%Q.

Definition ratio (a b : list ascii) : Q :=
  _calculate_ratio (matches a b) (List.length a + List.length b).

(** [quick_ratio]: [seen] are the elements of [a] already visited, so
    [avail[elt]] is the count of [elt] in [b] less its count in [seen]. *)
Fixpoint quick_matches (b : list ascii) (seen a : list ascii) : nat :=
  match a with
  | [] => 0%nat
  | elt :: a' =>
      let numb :=
        Z.of_nat (count_occ ascii_dec b elt)
        - Z.of_nat (count_occ ascii_dec seen elt) in
      ((if (0 <? numb)%Z then 1 else 0)
       + quick_matches b (elt :: seen) a')%nat
  end.

Definition quick_ratio (a b : list ascii) : Q :=
  _calculate_ratio (quick_matches b [] a) (List.length a + List.length b).

Definition real_quick_ratio (a b : list ascii) : Q :=
  _calculate_ratio (Nat.min (List.length a) (List.length b))
                   (List.length a + List.length b).

(** [>] on the tuples [(score, x)]. *)
Definition scored_gt (p q : Q * string) : bool :=
  if Qeq_bool (fst p) (fst q) then String.ltb (snd q) (snd p)
  else negb (Qle_bool (fst p) (fst q)).

(** [max(it, default=sentinel)]: a later element replaces the current
    maximum only when it is strictly greater. *)
Fixpoint max_from (cur : Q * string) (rest : list (Q * string))
  : Q * string :=
  match rest with
  | [] => cur
  | p :: rest' => max_from (if scored_gt p cur then p else cur) rest'
  end.

Definition nlargest1 (result : list (Q * string)) : list (Q * string) :=
  match result with
  | [] => []
  | p :: rest => [max_from p rest]
  end.

Definition good_enough (cutoff : Q) (word x : string) : bool :=
  Qle_bool cutoff (real_quick_ratio (seq_of x) (seq_of word))
  && Qle_bool cutoff (quick_ratio (seq_of x) (seq_of word))
  && Qle_bool cutoff (ratio (seq_of x) (seq_of word)).

Fixpoint scored (cutoff : Q) (word : string) (possibilities : list string)
  : list (Q * string) :=
  match possibilities with
  | [] => []
  | x :: xs =>
      if good_enough cutoff word x
      then (ratio (seq_of x) (seq_of word), x) :: scored cutoff word xs
      else scored cutoff word xs
  end.

(** [get_close_matches(word, possibilities, n=1, cutoff)]. *)
Definition get_close_matches1 (word : string) (possibilities : list string)
  (cutoff : Q) : list string :=
  map snd (nlargest1 (scored cutoff word possibilities)).

End difflib.

(* ================================================================== *)
(** * src/main.py *)
(* ================================================================== *)

Module Main.
Import Py.

Definition US_STATES : list string :=
  ["AL";"AK";"AZ";"AR";"CA";"CO";"CT";"DE";"FL";"GA";"HI";"ID";"IL";"IN";
   "IA";"KS";"KY";"LA";"ME";"MD";"MA";"MI";"MN";"MS";"MO";"MT";"NE";"NV";
   "NH";"NJ";"NM";"NY";"NC";"ND";"OH";"OK";"OR";"PA";"RI";"SC";"SD";"TN";
   "TX";"UT";"VT";"VA";"WA";"WV";"WI";"WY";"DC"].

Definition start_markers : list string :=
  ["914.949.9618"; "302.703.8961"; "www.unitedcorporate.com";
   "AR@UNITEDCORPORATE.COM"].

Definition end_marker : string := "STATEMENT OF OPEN INVOICE(S)".

(** The dictionary [categories]: its four keys are fixed when it is
    created and never change. *)
Record Categories : Type := {
  dnm : list Z;
  national_single : list Z;
  national_multi : list Z;
  foreign : list Z
}.

Inductive Key : Type := Dnm | NationalSingle | NationalMulti | Foreign.

Definition get (k : Key) (c : Categories) : list Z :=
  match k with
  | Dnm => dnm c
  | NationalSingle => national_single c
  | NationalMulti => national_multi c
  | Foreign => foreign c
  end.

(** [categories[k].extend(pages)]. *)
Definition extend (k : Key) (pages : list Z) (c : Categories)
  : Categories :=
  match k with
  | Dnm =>
      {| dnm := dnm c ++ pages; national_single := national_single c;
         national_multi := national_multi c; foreign := foreign c |}
  | NationalSingle =>
      {| dnm := dnm c; national_single := national_single c ++ pages;
         national_multi := national_multi c; foreign := foreign c |}
  | NationalMulti =>
      {| dnm := dnm c; national_single := national_single c;
         national_multi := national_multi c ++ pages;
         foreign := foreign c |}
  | Foreign =>
      {| dnm := dnm c; national_single := national_single c;
         national_multi := national_multi c;
         foreign := foreign c ++ pages |}
  end.

Definition no_categories : Categories :=
  {| dnm := []; national_single := []; national_multi := [];
     foreign := [] |}.

(** [categories.items()], in the order of insertion of the keys. *)
Definition items (c : Categories) : list (string * list Z) :=
  [("dnm", dnm c); ("national_single", national_single c);
   ("national_multi", national_multi c); ("foreign", foreign c)].

(** An entry of [pending_decisions]. *)
Record Decision : Type := {
  page_num : Z;
  company_name : string;
  close_match : string;
  total_pages : Z;
  lines : list string
}.

Definition Decision_eq_dec (x y : Decision) : {x = y} + {x <> y}.
Proof.
  decide equality;
    try apply Z.eq_dec; try apply string_dec;
    apply list_eq_dec, string_dec.
Defined.

(** ** The scan of one page, common to the two backends *)

(** [re.search(r'Page\s*(\d+)\s*of\s*(\d+)', text, re.IGNORECASE)]. *)
Definition page_match (text : string) : option (string * string) :=
  Re.search_page text.

(** [int(page_match.group(2)) if page_match else 1]: the value of
    [total_pages] when the line returns. *)
Definition total_pages_of (text : string) : Z :=
  match page_match text with
  | Some (_, g2) => int g2
  | None => 1
  end.

(** The same line as it runs: [None] stands for the [ValueError] of
    [int]. *)
Definition total_pages_run (text : string) : option Z :=
  match page_match text with
  | Some (_, g2) => if int_raises g2 then None else Some (int g2)
  | None => Some 1
  end.

(** [min(xs, default=d)]. *)
Definition min_default (xs : list Z) (d : Z) : Z :=
  match xs with
  | [] => d
  | x :: xs' => fold_left Z.min xs' x
  end.

(** [min((text.find(marker) for marker in start_markers
         if text.find(marker) != -1), default=-1)]. *)
Definition start_idx (text : string) : Z :=
  min_default
    (filter (fun i => negb (i =? -1)) (map (find text) start_markers))
    (-1).

Definition end_idx (text : string) : Z := find text end_marker.

(** [[line.strip() for line in extracted_text.splitlines()
      if line.strip()]] with [extracted_text = text[s:e].strip()]. *)
Definition stripped_lines (text : string) (s e : Z) : list string :=
  let extracted_text := strip (slice text s e) in
  map strip
    (filter (fun line => negb (String.eqb (strip line) ""))
            (splitlines extracted_text)).

(** The two nested tests that guard the body of the scan: the value is the
    list [lines] when both pass. *)
Definition record_lines (text : string) : option (list string) :=
  let s := start_idx text in
  let e := end_idx text in
  if negb (s =? -1) && negb (e =? -1) && (s <? e) then
    match stripped_lines text s e with
    | [] => None
    | ls => Some ls
    end
  else None.

(** [any(state in ' '.join(lines[1:]) for state in US_STATES)]. *)
Definition any_state (ls : list string) : bool :=
  existsb (fun state => contains state (join " " (tl ls))) US_STATES.

Definition cutoff : Q := 8 # 10.

Definition State : Type := Categories * list Decision.

(** ** process_statements_pypdf2 *)

(** The body of the [for] loop, when the line that computes [total_pages]
    returns ([total_pages_run]).  The loop never uses that number: the
    pages of a record are the page itself, and a decision is stored with
    [total_pages] 1. *)
Definition page_pypdf2 (company_names : list string) (pn : Z)
  (text : string) (st : State) : State :=
  let '(categories, pending_decisions) := st in
  match record_lines text with
  | None => st
  | Some ls =>
      let name := hd "" ls in
      let pages := [pn + 1] in
      if mem name company_names then
        (extend Dnm pages categories, pending_decisions)
      else
        match difflib.get_close_matches1 name company_names cutoff with
        | m :: _ =>
            (categories,
             (pending_decisions ++
               [{| page_num := pn + 1; company_name := name;
                   close_match := m; total_pages := 1;
                   lines := firstn 5 ls |}])%list)
        | [] =>
            if contains "email" (lower text) then
              (extend Dnm pages categories, pending_decisions)
            else if any_state ls then
              (extend NationalSingle pages categories, pending_decisions)
            else
              (extend Foreign pages categories, pending_decisions)
        end
  end.

(** [enumerate(reader.pages)]. *)
Definition enumerate (doc : list string) : list (Z * string) :=
  combine (map Z.of_nat (seq 0 (List.length doc))) doc.

Definition process_statements_pypdf2 (doc : list string)
  (company_names : list string) : State :=
  fold_left (fun st p => page_pypdf2 company_names (fst p) (snd p) st)
            (enumerate doc) (no_categories, []).

(** ** process_statements_pymupdf *)

(** The body of the [while] loop up to the update of [page_num]. *)
Definition page_pymupdf (company_names : list string) (pn : Z)
  (text : string) (st : State) : State :=
  let '(categories, pending_decisions) := st in
  let tp := total_pages_of text in
  match record_lines text with
  | None => st
  | Some ls =>
      let name := hd "" ls in
      let pages := range (pn + 1) (pn + 1 + tp) in
      if mem name company_names then
        (extend Dnm pages categories, pending_decisions)
      else
        match difflib.get_close_matches1 name company_names cutoff with
        | m :: _ =>
            (categories,
             (pending_decisions ++
               [{| page_num := pn + 1; company_name := name;
                   close_match := m; total_pages := tp;
                   lines := firstn 5 ls |}])%list)
        | [] =>
            if contains "email" (lower text) then
              (extend Dnm pages categories, pending_decisions)
            else if any_state ls then
              if tp =? 1 then
                (extend NationalSingle pages categories,
                 pending_decisions)
              else
                (extend NationalMulti pages categories, pending_decisions)
            else
              (extend Foreign pages categories, pending_decisions)
        end
  end.

(** The body of a turn of the loop as it runs on a page: the line that
    computes [total_pages] comes before the markers are looked for, so its
    [ValueError] ([None]) ends the scan whatever else the page holds. *)
Definition page_pymupdf_run (company_names : list string) (pn : Z)
  (text : string) (st : State) : option State :=
  match total_pages_run text with
  | Some _ => Some (page_pymupdf company_names pn text st)
  | None => None
  end.

(** [page_num += total_pages if page_match else 1]. *)
Definition advance (text : string) (pn : Z) : Z :=
  pn + match page_match text with
       | Some _ => total_pages_of text
       | None => 1
       end.

(** [doc.load_page(page_num).get_text()]. *)
Definition get_text (doc : list string) (pn : Z) : string :=
  nth (Z.to_nat pn) doc "".

(** One turn of the [while] loop. *)
Definition turn_pymupdf (doc company_names : list string)
  (s : Z * State) : Z * State :=
  let text := get_text doc (fst s) in
  (advance text (fst s), page_pymupdf company_names (fst s) text (snd s)).

(** The [while] loop, cut after [fuel] turns: [None] when the loop is
    still running then. *)
Fixpoint loop_pymupdf (fuel : nat) (doc company_names : list string)
  (s : Z * State) : option State :=
  if fst s <? Z.of_nat (List.length doc) then
    match fuel with
    | O => None
    | S fuel' =>
        loop_pymupdf fuel' doc company_names
                     (turn_pymupdf doc company_names s)
    end
  else Some (snd s).

Definition process_statements_pymupdf (fuel : nat)
  (doc company_names : list string) : option State :=
  loop_pymupdf fuel doc company_names (0, (no_categories, [])).

(** ** create_statement_pdfs *)

Module ZOrder <: TotalLeBool.
Definition t := Z.
Definition leb := Z.leb.
Theorem leb_total : forall x y, leb x y = true \/ leb y x = true.
Proof. intros x y. unfold leb. lia. Qed.
End ZOrder.

Module ZSort := Sort ZOrder.

(** [sorted(set(pages))]. *)
Definition sorted_set (pages : list Z) : list Z :=
  ZSort.sort (nodup Z.eq_dec pages).

(** The pages added to the writer of one category, as indices into the
    source document. *)
Definition written_pages (doc_len : nat) (pages : list Z) : list Z :=
  map (fun pn => pn - 1)
      (filter (fun pn => (0 <=? pn - 1) && (pn - 1 <? Z.of_nat doc_len))
              (sorted_set pages)).

(** The files written, each with the pages it holds. *)
Fixpoint statement_pdfs (doc_len : nat)
  (categories : list (string * list Z)) : list (string * list Z) :=
  match categories with
  | [] => []
  | (name, pages) :: rest =>
      match pages with
      | [] => statement_pdfs doc_len rest
      | _ =>
          match written_pages doc_len pages with
          | [] => statement_pdfs doc_len rest
          | w => (name ++ ".pdf", w) :: statement_pdfs doc_len rest
          end
      end
  end.

(** The two backends differ in the library calls only. *)
Definition create_statement_pdfs_pypdf2 := statement_pdfs.
Definition create_statement_pdfs_pymupdf := statement_pdfs.

(** The returned list [files]. *)
Definition create_statement_pdfs (doc : list string) (c : Categories)
  : list string :=
  map fst (statement_pdfs (List.length doc) (items c)).

(** ** statement_decision *)

(** [session['temp_data']]. *)
Record TempData : Type := {
  pdf : list string;
  categories : Categories;
  pending : list Decision
}.

Inductive Response : Type :=
| Complete (files : list string)
| Continue (remaining : nat)
| Error (message : string).

(** [pending.remove(statement)]: the first equal entry is removed; [None]
    stands for the [ValueError] raised when there is none. *)
Fixpoint list_remove (x : Decision) (l : list Decision)
  : option (list Decision) :=
  match l with
  | [] => None
  | y :: l' =>
      if Decision_eq_dec y x then Some l'
      else option_map (cons y) (list_remove x l')
  end.

(** The branch on [action]. *)
Definition apply_action (action : string) (statement : Decision)
  (c : Categories) : Categories :=
  let pages :=
    range (page_num statement)
          (page_num statement + total_pages statement) in
  if String.eqb action "dnm" then extend Dnm pages c
  else if String.eqb action "foreign" then extend Foreign pages c
  else if String.eqb action "national" then
    if total_pages statement =? 1 then extend NationalSingle pages c
    else extend NationalMulti pages c
  else c.

(** [categories.items()] in the handler: the dictionary is the one read
    back from the session cookie, whose JSON serialiser writes the keys of
    every dictionary in sorted order. *)
Definition session_items (c : Categories) : list (string * list Z) :=
  [("dnm", dnm c); ("foreign", foreign c);
   ("national_multi", national_multi c);
   ("national_single", national_single c)].

(** The list [files] that [create_statement_pdfs] returns for the
    categories of the session. *)
Definition create_statement_pdfs_session (doc : list string)
  (c : Categories) : list string :=
  map fst (statement_pdfs (List.length doc) (session_items c)).

(** The handler.  The dictionaries read from the session are mutated in
    place: the first component is [temp_data] as the handler leaves it in
    memory, also when an exception was raised on the way and turned into an
    error response.  What the next request finds in the session is
    [stored_session]. *)
Definition statement_decision (session : option TempData)
  (action : string) (statement : Decision)
  : option TempData * Response :=
  match session with
  | None => (None, Error "Session expired")
  | Some temp_data =>
      let categories' :=
        apply_action action statement (categories temp_data) in
      match list_remove statement (pending temp_data) with
      | None =>
          (Some {| pdf := pdf temp_data; categories := categories';
                   pending := pending temp_data |},
           Error "list.remove(x): x not in list")
      | Some pending' =>
          let temp_data' :=
            {| pdf := pdf temp_data; categories := categories';
               pending := pending' |} in
          match pending' with
          | [] =>
              (Some temp_data',
               Complete (create_statement_pdfs_session (pdf temp_data)
                                                       categories'))
          | _ => (Some temp_data', Continue (List.length pending'))
          end
      end
  end.

(** The session that the next request reads.  The handler assigns
    [session['temp_data']] on the branch that answers [continue] and nowhere
    else, and a change made inside the dictionaries read from the session
    does not mark the session as modified: on the other branches the cookie
    is not written and the session stays as the handler found it. *)
Definition stored_session (session : option TempData) (action : string)
  (statement : Decision) : option TempData :=
  match statement_decision session action statement with
  | (session', Continue _) => session'
  | _ => session
  end.

(** ** extract_invoices *)

(** The dictionary [invoices], in the order of insertion of its keys. *)
Definition Invoices : Type := list (string * list Z).

Definition has_key (k : string) (inv : Invoices) : bool :=
  existsb (fun e => String.eqb (fst e) k) inv.

Definition lookup (k : string) (inv : Invoices) : list Z :=
  match List.find (fun e => String.eqb (fst e) k) inv with
  | Some e => snd e
  | None => []
  end.

(** [invoices[k].append(pn)] for a key that is present. *)
Fixpoint append_to (k : string) (pn : Z) (inv : Invoices) : Invoices :=
  match inv with
  | [] => []
  | (k', ps) :: rest =>
      if String.eqb k' k then (k', (ps ++ [pn])%list) :: rest
      else (k', ps) :: append_to k pn rest
  end.

(** The body of the inner [for] loop. *)
Definition add_invoice (pn : Z) (inv : Invoices) (invoice_number : string)
  : Invoices :=
  let inv1 :=
    if has_key invoice_number inv then inv
    else (inv ++ [(invoice_number, [])])%list in
  append_to invoice_number pn inv1.

(** The body of the outer [for] loop. *)
Definition page_invoices (inv : Invoices) (p : Z * string) : Invoices :=
  fold_left (add_invoice (fst p)) (Re.findall_invoices (snd p)) inv.

Definition extract_invoices_pypdf2 (doc : list string) : Invoices :=
  fold_left page_invoices (enumerate doc) [].

(** [for page_num in range(len(doc))] with [doc.load_page(page_num)]. *)
Definition extract_invoices_pymupdf (doc : list string) : Invoices :=
  fold_left (fun inv pn => page_invoices inv (pn, get_text doc pn))
            (range 0 (Z.of_nat (List.length doc))) [].

(** ** The choice of a library and the routes *)

(** [PDF_LIB]: ['pypdf2'], ['pymupdf'] or [None]. *)
Inductive Library : Type := PyPDF2 | PyMuPDF.

(** What the import block at the top of the module leaves: the value of
    [PDF_LIB] and the global names bound to a PDF library.  The first
    import reads [import PyPDF2 as pdf_lib], which binds [pdf_lib] and
    nothing else. *)
Record Globals : Type := {
  PDF_LIB : option Library;
  bound_names : list string
}.

Definition import_block (PyPDF2_installed fitz_installed : bool) : Globals :=
  if PyPDF2_installed then
    {| PDF_LIB := Some PyPDF2; bound_names := ["pdf_lib"] |}
  else if fitz_installed then
    {| PDF_LIB := Some PyMuPDF; bound_names := ["fitz"] |}
  else {| PDF_LIB := None; bound_names := [] |}.

(** The exceptions that the module's own code raises. *)
Inductive Exc : Type :=
| NameError (name : string)
| NoLibrary.

(** The value of a call that may raise. *)
Inductive Result (A : Type) : Type :=
| Ok (a : A)
| Raise (e : Exc).

Arguments Ok {A} a.
Arguments Raise {A} e.

(** The body of a function that starts by a call on the global [name]:
    [NameError] is raised when the import block has not bound the name. *)
Definition call_on {A : Type} (name : string) (g : Globals) (body : A)
  : Result A :=
  if mem name (bound_names g) then Ok body else Raise (NameError name).

(** [len(text.strip()) > 0], and the truth of [text.strip()]. *)
Definition nonblank (text : string) : bool :=
  negb (String.eqb (strip text) "").

(** An uploaded file is [None] when the library cannot open it.  The
    validators catch every exception and answer [False]. *)
Definition validate_pdf_pypdf2 (g : Globals) (file : option (list string))
  : bool :=
  match call_on "PyPDF2" g file with
  | Ok (Some (first_page :: _)) => nonblank first_page
  | _ => false
  end.

Definition validate_pdf_pymupdf (g : Globals) (file : option (list string))
  : bool :=
  match call_on "fitz" g file with
  | Ok (Some doc) => existsb nonblank doc
  | _ => false
  end.

Definition validate_pdf (g : Globals) (file : option (list string)) : bool :=
  match PDF_LIB g with
  | Some PyPDF2 => validate_pdf_pypdf2 g file
  | Some PyMuPDF => validate_pdf_pymupdf g file
  | None => false
  end.

(** [process_statements]; [None] when the loop of the PyMuPDF backend is
    still running after [fuel] turns. *)
Definition process_statements (g : Globals) (fuel : nat)
  (doc company_names : list string) : option (Result State) :=
  match PDF_LIB g with
  | Some PyPDF2 =>
      Some (call_on "PyPDF2" g (process_statements_pypdf2 doc company_names))
  | Some PyMuPDF =>
      match call_on "fitz" g tt with
      | Ok _ =>
          option_map Ok (process_statements_pymupdf fuel doc company_names)
      | Raise e => Some (Raise e)
      end
  | None => Some (Raise NoLibrary)
  end.

Inductive SeparatorResponse : Type :=
| Review (decisions : list Decision)
| Separated (files : list string)
| Rejected (message : string)
| Crashed (e : Exc).

(** The handler of [/api/statement-separator]: the session it leaves and
    its answer, [None] when the scan is still running.  [pdf_file] and
    [excel_file] are [None] when the request has no such file; the
    spreadsheet is the list of names of its first column. *)
Definition statement_separator (g : Globals) (fuel : nat)
  (session : option TempData) (pdf_file : option (option (list string)))
  (excel_file : option (list string))
  : option (option TempData * SeparatorResponse) :=
  match pdf_file, excel_file with
  | Some file, Some company_names =>
      if validate_pdf g file then
        match file with
        | Some doc =>
            match process_statements g fuel doc company_names with
            | Some (Ok (categories, pending_decisions)) =>
                match pending_decisions with
                | [] =>
                    Some (session,
                          Separated (create_statement_pdfs doc categories))
                | _ =>
                    Some (Some {| pdf := doc; categories := categories;
                                  pending := pending_decisions |},
                          Review pending_decisions)
                end
            | Some (Raise e) => Some (session, Crashed e)
            | None => None
            end
        | None =>
            Some (session, Rejected "PDF contains no readable text")
        end
      else Some (session, Rejected "PDF contains no readable text")
  | _, _ => Some (session, Rejected "Both PDF and Excel files required")
  end.

(** [extract_invoices]. *)
Definition extract_invoices (g : Globals) (doc : list string)
  : Result Invoices :=
  match PDF_LIB g with
  | Some PyPDF2 => call_on "PyPDF2" g (extract_invoices_pypdf2 doc)
  | Some PyMuPDF => call_on "fitz" g (extract_invoices_pymupdf doc)
  | None => Raise NoLibrary
  end.

(** [create_invoice_zip], the same in the two backends: the entries of the
    archive in the order of the dictionary, one for every identifier whose
    writer holds a page, with the pages added to the writer in the order of
    the page list.  The page lists are those of [extract_invoices] on the
    same document. *)
Fixpoint create_invoice_zip (invoices : Invoices)
  : list (string * list Z) :=
  match invoices with
  | [] => []
  | (invoice_number, pages) :: rest =>
      match pages with
      | [] => create_invoice_zip rest
      | _ => (invoice_number ++ ".pdf", pages) :: create_invoice_zip rest
      end
  end.

Inductive InvoiceResponse : Type :=
| Archive (entries : list (string * list Z))
| NoArchive (message : string)
| Failed (e : Exc).

(** The handler of [/api/invoice-processor], for a file that the library
    can open; [pdf_file] is [None] when the request has no file. *)
Definition invoice_processor (g : Globals)
  (pdf_file : option (list string)) : InvoiceResponse :=
  match pdf_file with
  | None => NoArchive "PDF file required"
  | Some doc =>
      match extract_invoices g doc with
      | Raise e => Failed e
      | Ok invoices =>
          match invoices with
          | [] => NoArchive "No invoices found in PDF"
          | _ => Archive (create_invoice_zip invoices)
          end
      end
  end.

End Main.


(* ================================================================== *)
(** * Vocabulary of the specification *)
(* ================================================================== *)

Module Spec.

(** [sub] occurs in [s] at position [i]. *)
Definition occurs_at (sub s : string) (i : nat) : Prop :=
  substring i (String.length sub) s = sub.

(** [i] is the lowest position where [sub] occurs in [s]. *)
Definition first_occurrence (sub s : string) (i : nat) : Prop :=
  occurs_at sub s i /\ forall p, (p < i)%nat -> ~ occurs_at sub s p.

(** [i] is the lowest position where any start marker occurs in [text]. *)
Definition min_start (text : string) (i : nat) : Prop :=
  (exists m, In m Main.start_markers /\ occurs_at m text i)
  /\ forall m p, In m Main.start_markers -> occurs_at m text p ->
                 (i <= p)%nat.

(** [name] is the first line of [ls] that is not empty once stripped,
    stripped. *)
Definition first_nonempty_stripped (ls : list string) (name : string)
  : Prop :=
  exists pre l0 post,
    ls = (pre ++ l0 :: post)%list
    /\ Forall (fun l => Py.strip l = "") pre
    /\ Py.strip l0 <> ""
    /\ name = Py.strip l0.

(** [sub] is a substring of [s]. *)
Definition substring_of (sub s : string) : Prop :=
  exists pre post, s = pre ++ sub ++ post.

(** A character that is neither the first letter of the end marker nor a
    white space nor a line boundary; the start markers hold no other. *)
Definition marker_char (c : ascii) : bool :=
  negb (Ascii.eqb c "S"%char) && negb (Py.isspace c)
  && negb (Py.islinebreak c).

(** [s] has no space character. *)
Definition no_space (s : string) : Prop :=
  Forall (fun c => c <> " "%char) (list_ascii_of_string s).

(** Every character of [s] is a decimal digit. *)
Definition all_digits (s : string) : Prop :=
  Forall (fun c => Py.isdigit c = true) (list_ascii_of_string s).

(** [tok] occurs in [s] as a token: an occurrence with no word character
    next to it on either side; [prev] is the character before [s]. *)
Fixpoint token_from (tok : string) (prev : option ascii) (s : string)
  : bool :=
  (Re.boundary_before_word prev
   && prefix tok s
   && Re.boundary_after_word
        (substring (String.length tok) (String.length s) s))
  || match s with
     | "" => false
     | String c s' => token_from tok (Some c) s'
     end.

Definition token_in (tok s : string) : bool := token_from tok None s.

(** Some state abbreviation is a token of some line after the first. *)
Definition state_token (ls : list string) : bool :=
  existsb (fun state => existsb (token_in state) (tl ls)) Main.US_STATES.

(** How many times the identifier [k] is among the matches [found]. *)
Definition occurrences (k : string) (found : list string) : nat :=
  count_occ string_dec found k.

(** The pages listed under [k] after the scan of the pages [ps]: each page
    as many times as [k] matches in its text. *)
Definition pages_of (k : string) (ps : list (Z * string)) : list Z :=
  flat_map
    (fun p => repeat (fst p) (occurrences k (Re.findall_invoices (snd p))))
    ps.

(** [a] and [b] hold the same block of [k] elements, at position [i] of
    [a] and at position [j] of [b]. *)
Definition block_at (a b : list ascii) (i j k : nat) : Prop :=
  exists u m u' v v',
    a = (u ++ m ++ u')%list /\ b = (v ++ m ++ v')%list
    /\ List.length u = i /\ List.length v = j /\ List.length m = k.

(** [u] ends with a block of [d] elements that [b] holds just before its
    position [t]. *)
Definition ends_at (u b : list ascii) (t d : nat) : Prop :=
  exists u0 m v0 v1,
    u = (u0 ++ m)%list /\ b = (v0 ++ m ++ v1)%list
    /\ List.length m = d /\ (List.length v0 + d = t)%nat.

(** The characters of the embedding, each once. *)
Definition all_ascii : list ascii := map ascii_of_nat (seq 0 256).

(** The sum of [f] over all characters. *)
Definition sum_over (f : ascii -> nat) : nat := list_sum (map f all_ascii).

(** The number of elements that [a] and [b] share as multisets. *)
Definition common (a b : list ascii) : nat :=
  sum_over (fun c => Nat.min (count_occ ascii_dec a c)
                             (count_occ ascii_dec b c)).

(** The similarity of the registry entry [x] to the name [word]. *)
Definition similarity (x word : string) : Q :=
  difflib.ratio (difflib.seq_of x) (difflib.seq_of word).

(** [x] is similar enough to [word] to be proposed. *)
Definition similar (x word : string) : Prop :=
  (Main.cutoff <= similarity x word)%Q.

(** The order of [max] on the tuples [(score, x)]: by score, then by the
    order of strings. *)
Definition scored_le (p q : Q * string) : Prop :=
  (fst p < fst q)%Q
  \/ ((fst p == fst q)%Q /\ String.leb (snd p) (snd q) = true).

(** [m] is the entry of [names] proposed for [word]: a similar entry that
    no similar entry beats, by similarity first and by the order of strings
    among entries of equal similarity. *)
Definition best_match (names : list string) (word m : string) : Prop :=
  In m names /\ similar m word
  /\ forall x, In x names -> similar x word ->
                scored_le (similarity x word, x) (similarity m word, m).

(** The pages that a resolution of the decision [d] files. *)
Definition decision_pages (d : Main.Decision) : list Z :=
  Py.range (Main.page_num d) (Main.page_num d + Main.total_pages d).

(** All the pages that a state of the scan holds: those of the four
    categories and those that the pending decisions stand for. *)
Definition assigned (st : Main.State) : list Z :=
  (Main.dnm (fst st) ++ Main.national_single (fst st)
   ++ Main.national_multi (fst st) ++ Main.foreign (fst st)
   ++ flat_map decision_pages (snd st))%list.

(** What the scan guarantees of a decision it adds, for the registry
    [names]: the name is the first of at most five lines and is not in the
    registry, and the proposed match is an entry of the registry that is
    similar to the name. *)
Definition sound_decision (names : list string) (d : Main.Decision) : Prop :=
  Py.mem (Main.company_name d) names = false
  /\ In (Main.close_match d) names
  /\ similar (Main.close_match d) (Main.company_name d)
  /\ hd "" (Main.lines d) = Main.company_name d
  /\ (1 <= List.length (Main.lines d) <= 5)%nat.

(** The page that the PyPDF2 scan assigns for the page [p] of the
    enumeration: the page itself when its text holds a record. *)
Definition record_page (p : Z * string) : list Z :=
  match Main.record_lines (snd p) with
  | Some _ => [(fst p + 1)%Z]
  | None => []
  end.

(** What holds of the state of a scan that has consumed the pages before
    [pn]: no page is assigned twice, the assigned pages lie in [1 .. pn],
    and the pending decisions are sound, on pages in [1 .. pn], in ascending
    order of pages. *)
Definition scanned (names : list string) (pn : Z) (st : Main.State) : Prop :=
  NoDup (assigned st)
  /\ Forall (fun p => 1 <= p <= pn)%Z (assigned st)
  /\ Forall (fun d => sound_decision names d
                      /\ (1 <= Main.page_num d <= pn)%Z) (snd st)
  /\ StronglySorted Z.lt (map Main.page_num (snd st)).

(** The actions that the resolution of a decision knows. *)
Definition known_action (action : string) : Prop :=
  In action ["dnm"; "foreign"; "national"].

(** A client that sends the requests one after the other, each to the
    session that the call before stored; the value is the session stored at
    the end and the responses in order. *)
Fixpoint resolve_all (session : option Main.TempData)
  (requests : list (string * Main.Decision))
  : option Main.TempData * list Main.Response :=
  match requests with
  | [] => (session, [])
  | (action, statement) :: rest =>
      let response :=
        snd (Main.statement_decision session action statement) in
      let (final, responses) :=
        resolve_all (Main.stored_session session action statement) rest in
      (final, response :: responses)
  end.

(** [n - 1], ..., [1]: the counts of decisions left that the calls before
    the last report. *)
Fixpoint countdown (n : nat) : list nat :=
  match n with
  | O => []
  | S k => match k with
           | O => []
           | S _ => k :: countdown k
           end
  end.

(** The text between the positions [i] and [j] of a page text, and, in
    the words of the specification, the stripped text split into lines that
    are not empty once stripped. *)
Definition body_between (text : string) (i j : nat) : string :=
  String.substring i (j - i) text.

Definition nonempty_stripped_lines (body : string) : list string :=
  filter (fun l => negb (String.eqb l ""))
         (map Py.strip (Py.splitlines (Py.strip body))).

(** The shape of an invoice identifier: [P] or [R], then six to eight
    decimal digits. *)
Definition invoice_shape (m : string) : Prop :=
  exists c ds,
    m = String c ds /\ (c = "P"%char \/ c = "R"%char)
    /\ all_digits ds /\ (6 <= String.length ds <= 8)%nat.

(** Whether the statement separator answered with an exception of the
    module's own code. *)
Definition crashed
  (answer : option (option Main.TempData * Main.SeparatorResponse)) : bool :=
  match answer with
  | Some (_, Main.Crashed _) => true
  | _ => false
  end.

End Spec.

Module Registry.

(** Two entries at the same similarity to the name [914.949.9618]. *)
Definition twins : list string := ["914.949.9618a"; "914.949.9618b"].

End Registry.

(* ================================================================== *)
(** * Sample pages *)
(* ================================================================== *)

Module Sample.

Definition nl : string := String Py.LF "".

(** A statement of three pages whose address names no state. *)
Definition madrid : string :=
  "914.949.9618" ++ nl ++ "Acme Corp" ++ nl ++ "Calle Mayor 1, MADRID"
  ++ nl ++ "Page 1 of 3" ++ nl ++ "STATEMENT OF OPEN INVOICE(S)".

(** The same statement on one page. *)
Definition madrid_single : string :=
  "914.949.9618" ++ nl ++ "Acme Corp" ++ nl ++ "Calle Mayor 1, MADRID"
  ++ nl ++ "STATEMENT OF OPEN INVOICE(S)".

(** A statement with an address in Illinois. *)
Definition springfield : string :=
  "914.949.9618" ++ nl ++ "Acme Corp" ++ nl ++ "1 Main St, Springfield IL"
  ++ nl ++ "Page 1 of 3" ++ nl ++ "STATEMENT OF OPEN INVOICE(S)".

(** A statement with a state in its address and an e-mail line. *)
Definition emailed : string :=
  "914.949.9618" ++ nl ++ "Acme Corp" ++ nl ++ "Springfield IL" ++ nl
  ++ "EMail: ar@acme.example" ++ nl ++ "STATEMENT OF OPEN INVOICE(S)".

(** A page that declares a total of zero pages. *)
Definition zero_total : string := "Page 1 of 0".

(** Page seven of a total of zero pages. *)
Definition seven_of_zero : string := "Page 7 of 0".

(** A page with no marker whose total has 4301 digits. *)
Fixpoint ones (n : nat) : string :=
  match n with
  | O => ""
  | S k => String "1" (ones k)
  end.

Definition long_total : string := "Page 1 of " ++ ones 4301.

(** A page whose record is the start marker alone. *)
Definition bare : string :=
  "914.949.9618" ++ nl ++ "STATEMENT OF OPEN INVOICE(S)".

(** An invoice identifier twice on one page. *)
Definition twice : string := "Invoice P1234567 due; P1234567 overdue".



(** The decisions that the scan of two pages [bare] adds against
    [Registry.twins], and the session that holds them. *)
Definition asked : Main.Decision :=
  {| Main.page_num := 1; Main.company_name := "914.949.9618";
     Main.close_match := "914.949.9618b"; Main.total_pages := 1;
     Main.lines := ["914.949.9618"] |}.

Definition asked_again : Main.Decision :=
  {| Main.page_num := 2; Main.company_name := "914.949.9618";
     Main.close_match := "914.949.9618b"; Main.total_pages := 1;
     Main.lines := ["914.949.9618"] |}.

Definition review : Main.TempData :=
  {| Main.pdf := [bare; bare]; Main.categories := Main.no_categories;
     Main.pending := [asked; asked_again] |}.

(** The globals when PyMuPDF is the one library installed. *)
Definition fitz_only : Main.Globals := Main.import_block false true.

End Sample.

(** Evaluation of the embedding on a concrete input. *)
Ltac run := vm_compute; reflexivity.

(* ================================================================== *)
(** * Occurrences of a substring *)
(* ================================================================== *)

Section Occurrences.
Import Py Spec.

Lemma find_first_occurrence (s sub : string) (i : nat) :
  sub <> "" -> (find s sub = Z.of_nat i <-> first_occurrence sub s i).
Proof.
  intros Hne. unfold find, first_occurrence, occurs_at.
  destruct (index 0 sub s) as [k|] eqn:E.
  - split.
    + intros H. apply Nat2Z.inj in H. subst k. split.
      * eapply index_correct1; eauto.
      * intros p Hp. eapply index_correct2; eauto. lia.
    + intros [Hocc Hmin].
      pose proof (index_correct1 _ _ _ _ E) as Hk.
      pose proof (index_correct2 _ _ _ _ E) as Hk2.
      f_equal.
      destruct (Nat.lt_trichotomy k i) as [Hlt|[Heq|Hgt]]; auto.
      * exfalso. apply (Hmin k Hlt). exact Hk.
      * exfalso. apply (Hk2 i); auto. lia.
  - split.
    + lia.
    + intros [Hocc _]. exfalso.
      eapply (index_correct3 0 i); eauto. lia.
Qed.

Lemma find_absent (s sub : string) :
  sub <> "" -> (find s sub = -1 <-> forall p, ~ occurs_at sub s p).
Proof.
  intros Hne. unfold find, occurs_at.
  destruct (index 0 sub s) as [k|] eqn:E.
  - split; [lia|]. intros H. exfalso. apply (H k).
    eapply index_correct1; eauto.
  - split; auto. intros _ p. eapply index_correct3; eauto. lia.
Qed.

Lemma find_cases (s sub : string) :
  find s sub = -1 \/ exists i, find s sub = Z.of_nat i.
Proof. unfold find. destruct (index 0 sub s); eauto. Qed.

End Occurrences.

(* ================================================================== *)
(** * The boundary extractor *)
(* ================================================================== *)

Section Boundary.
Import Py Spec Main.

Lemma fold_min_spec (l : list Z) (x : Z) :
  In (fold_left Z.min l x) (x :: l)
  /\ Forall (fun y => fold_left Z.min l x <= y) (x :: l).
Proof.
  revert x. induction l as [|y l IH]; intros x; simpl.
  - split; [auto | repeat constructor; lia].
  - destruct (IH (Z.min x y)) as [Hin Hall]. split.
    + destruct Hin as [Hin|Hin].
      * destruct (Z.min_spec x y) as [[_ E]|[_ E]];
          [left | right; left]; congruence.
      * right; right; exact Hin.
    + inversion Hall as [|? ? Hhd Htl]; subst.
      constructor; [lia|]. constructor; [lia|]. exact Htl.
Qed.

Lemma start_markers_nonempty : Forall (fun m => m <> "") start_markers.
Proof. unfold start_markers. repeat constructor; discriminate. Qed.

Lemma marker_nonempty (m : string) : In m start_markers -> m <> "".
Proof.
  intros H. pose proof start_markers_nonempty as F.
  rewrite Forall_forall in F. auto.
Qed.

Lemma occurs_find (text m : string) (p : nat) :
  m <> "" -> occurs_at m text p ->
  exists k, find text m = Z.of_nat k /\ (k <= p)%nat.
Proof.
  intros Hne Hocc. destruct (find_cases text m) as [E|[k E]].
  - exfalso. rewrite find_absent in E by assumption. exact (E p Hocc).
  - exists k. split; auto.
    apply find_first_occurrence in E; auto. destruct E as [_ Hmin].
    destruct (Nat.le_gt_cases k p); auto. exfalso. exact (Hmin p H Hocc).
Qed.

(** The value of [start_idx]: [-1] when no start marker occurs, otherwise
    the lowest position of an occurrence of a start marker. *)
Lemma start_idx_spec (text : string) :
  (start_idx text = -1
   /\ forall m p, In m start_markers -> ~ occurs_at m text p)
  \/ (exists i, start_idx text = Z.of_nat i /\ min_start text i).
Proof.
  unfold start_idx.
  set (xs := map (find text) start_markers).
  destruct (filter (fun i => negb (i =? -1)) xs) as [|y ys] eqn:F.
  - left. split; auto. intros m p Hm Hocc.
    destruct (occurs_find text m p (marker_nonempty m Hm) Hocc)
      as (k & Ek & _).
    assert (Hin : In (find text m) (filter (fun i => negb (i =? -1)) xs)).
    { apply filter_In. split.
      - unfold xs. apply in_map. exact Hm.
      - rewrite Ek. apply negb_true_iff, Z.eqb_neq. lia. }
    rewrite F in Hin. exact Hin.
  - right. simpl.
    destruct (fold_min_spec ys y) as [Hin Hall].
    rewrite <- F in Hin. apply filter_In in Hin. destruct Hin as [Hin Hne].
    apply negb_true_iff, Z.eqb_neq in Hne.
    unfold xs in Hin. apply in_map_iff in Hin.
    destruct Hin as (m & Em & Hm).
    destruct (find_cases text m) as [E|[i E]]; [congruence|].
    exists i. split; [congruence|]. split.
    + exists m. split; auto.
      apply find_first_occurrence in E; [|apply marker_nonempty; auto].
      apply E.
    + intros m' p Hm' Hocc.
      destruct (occurs_find text m' p (marker_nonempty m' Hm') Hocc)
        as (k & Ek & Hk).
      assert (Hin : In (find text m') (y :: ys)).
      { rewrite <- F. apply filter_In. split.
        - unfold xs. apply in_map. exact Hm'.
        - rewrite Ek. apply negb_true_iff, Z.eqb_neq. lia. }
      rewrite Forall_forall in Hall. specialize (Hall _ Hin). lia.
Qed.

Lemma min_start_unique (text : string) (i i' : nat) :
  min_start text i -> min_start text i' -> i = i'.
Proof.
  intros [(m & Hm & Ho) Hmin] [(m' & Hm' & Ho') Hmin'].
  specialize (Hmin _ _ Hm' Ho'). specialize (Hmin' _ _ Hm Ho). lia.
Qed.

Lemma start_idx_min_start (text : string) (i : nat) :
  start_idx text = Z.of_nat i <-> min_start text i.
Proof.
  destruct (start_idx_spec text) as [[E Hno]|(k & E & Hk)].
  - split; [lia|]. intros [(m & Hm & Ho) _]. exfalso. exact (Hno m i Hm Ho).
  - split.
    + intros E'. assert (k = i) by lia. subst. exact Hk.
    + intros Hi. rewrite E. f_equal. eapply min_start_unique; eauto.
Qed.

Lemma end_marker_nonempty : end_marker <> "".
Proof. discriminate. Qed.

Lemma end_idx_first (text : string) (j : nat) :
  end_idx text = Z.of_nat j <-> first_occurrence end_marker text j.
Proof. apply find_first_occurrence, end_marker_nonempty. Qed.

(** What [record_lines] returns, in terms of the positions of the
    markers. *)
Lemma record_lines_some (text : string) (ls : list string) :
  record_lines text = Some ls <->
  exists i j, min_start text i /\ first_occurrence end_marker text j
              /\ (i < j)%nat
              /\ stripped_lines text (Z.of_nat i) (Z.of_nat j) = ls
              /\ ls <> [].
Proof.
  unfold record_lines. split.
  - destruct (negb (start_idx text =? -1) && negb (end_idx text =? -1)
              && (start_idx text <? end_idx text)) eqn:G; [|discriminate].
    apply andb_true_iff in G. destruct G as [G G3].
    apply andb_true_iff in G. destruct G as [G1 G2].
    apply negb_true_iff, Z.eqb_neq in G1, G2. apply Z.ltb_lt in G3.
    destruct (start_idx_spec text) as [[E _]|(i & Ei & Hi)]; [congruence|].
    destruct (find_cases text end_marker) as [E|[j Ej]];
      [unfold end_idx in G2; congruence|].
    fold (end_idx text) in Ej.
    rewrite Ei, Ej in *.
    destruct (stripped_lines text (Z.of_nat i) (Z.of_nat j)) as [|l r] eqn:L;
      [discriminate|].
    intros H. injection H as <-.
    apply end_idx_first in Ej.
    exists i, j. split; [exact Hi|]. split; [exact Ej|].
    split; [lia|]. split; [exact L|discriminate].
  - intros (i & j & Hi & Hj & Hlt & L & Hne).
    apply start_idx_min_start in Hi. apply end_idx_first in Hj.
    rewrite Hi, Hj.
    replace (negb (Z.of_nat i =? -1) && negb (Z.of_nat j =? -1)
             && (Z.of_nat i <? Z.of_nat j)) with true.
    + rewrite L. destruct ls; congruence.
    + symmetry. repeat (apply andb_true_iff; split).
      * apply negb_true_iff, Z.eqb_neq. lia.
      * apply negb_true_iff, Z.eqb_neq. lia.
      * apply Z.ltb_lt. lia.
Qed.

Lemma map_filter_head {A B : Type} (f : A -> B) (p : A -> bool)
  (l : list A) (x : B) (r : list B) :
  map f (filter p l) = x :: r ->
  exists pre l0 post,
    l = (pre ++ l0 :: post)%list /\ Forall (fun a => p a = false) pre
    /\ p l0 = true /\ x = f l0.
Proof.
  induction l as [|a l IH]; simpl; [discriminate|].
  destruct (p a) eqn:Pa.
  - simpl. intros H. injection H as <- _.
    exists [], a, l. repeat split; auto.
  - intros H. destruct (IH H) as (pre & l0 & post & -> & Hpre & Hl0 & ->).
    exists (a :: pre), l0, post. repeat split; auto.
Qed.

Lemma stripped_lines_head (text : string) (s e : Z) (ls : list string) :
  stripped_lines text s e = ls -> ls <> [] ->
  first_nonempty_stripped (splitlines (strip (slice text s e))) (hd "" ls).
Proof.
  intros <- Hne. unfold stripped_lines in *.
  destruct (map strip _) as [|x r] eqn:M; [congruence|].
  apply map_filter_head in M.
  destruct M as (pre & l0 & post & E & Hpre & Hl0 & ->).
  exists pre, l0, post. repeat split; auto.
  - eapply Forall_impl; [|exact Hpre]. simpl. intros a Ha.
    apply negb_false_iff, String.eqb_eq in Ha. exact Ha.
  - apply negb_true_iff, String.eqb_neq in Hl0. exact Hl0.
Qed.

Lemma page_pypdf2_no_record (names : list string) (pn : Z) (text : string)
  (st : State) :
  record_lines text = None -> page_pypdf2 names pn text st = st.
Proof. intros H. unfold page_pypdf2. destruct st. rewrite H. auto. Qed.

Lemma page_pymupdf_no_record (names : list string) (pn : Z) (text : string)
  (st : State) :
  record_lines text = None -> page_pymupdf names pn text st = st.
Proof. intros H. unfold page_pymupdf. destruct st. rewrite H. auto. Qed.

(** A decision added by the scan of a page names the first line. *)
Lemma page_pypdf2_pending (names : list string) (pn : Z) (text : string)
  (c : Categories) (q ls : list Decision) (lines0 : list string) :
  record_lines text = Some lines0 ->
  snd (page_pypdf2 names pn text (c, q)) = ls ->
  ls = q \/ exists d, ls = (q ++ [d])%list /\ company_name d = hd "" lines0.
Proof.
  intros R <-. unfold page_pypdf2. rewrite R.
  destruct (mem _ names); auto.
  destruct (difflib.get_close_matches1 _ names cutoff); simpl.
  - destruct (contains _ _); auto. destruct (any_state _); auto.
  - right. eexists. split; eauto.
Qed.

Lemma page_pymupdf_pending (names : list string) (pn : Z) (text : string)
  (c : Categories) (q ls : list Decision) (lines0 : list string) :
  record_lines text = Some lines0 ->
  snd (page_pymupdf names pn text (c, q)) = ls ->
  ls = q \/ exists d, ls = (q ++ [d])%list /\ company_name d = hd "" lines0.
Proof.
  intros R <-. unfold page_pymupdf. rewrite R.
  destruct (mem _ names); auto.
  destruct (difflib.get_close_matches1 _ names cutoff); simpl.
  - destruct (contains _ _); auto. destruct (any_state _); auto.
    destruct (_ =? 1); auto.
  - right. eexists. split; eauto.
Qed.

End Boundary.

(* ================================================================== *)
(** * The declared number of pages *)
(* ================================================================== *)

Section PageCount.
Import Py Re Spec Main.

Lemma digit_value_nonneg (c : ascii) : 0 <= digit_value c.
Proof. unfold digit_value. lia. Qed.

Lemma int_from_ge (s : string) (acc : Z) : 0 <= acc -> acc <= int_from acc s.
Proof.
  revert acc. induction s as [|c s IH]; intros acc H; cbn [int_from]; [lia|].
  pose proof (digit_value_nonneg c).
  assert (10 * acc + digit_value c <= int_from (10 * acc + digit_value c) s)
    by (apply IH; lia).
  lia.
Qed.

Lemma int_nonneg (s : string) : 0 <= int s.
Proof. apply (int_from_ge s 0). lia. Qed.

Lemma digit_zero (c : ascii) :
  isdigit c = true -> (digit_value c = 0 <-> c = "0"%char).
Proof.
  unfold isdigit, between, digit_value, code. intros H.
  apply andb_true_iff in H. destruct H as [H1 H2].
  apply Nat.leb_le in H1, H2. split.
  - intros E. assert (N : nat_of_ascii c = 48%nat) by lia.
    rewrite <- (ascii_nat_embedding c), N. reflexivity.
  - intros ->. reflexivity.
Qed.

(** The value of a digit string is zero exactly when all its digits are. *)
Lemma int_from_zero (s : string) (acc : Z) :
  0 <= acc -> all_digits s ->
  (int_from acc s = 0 <->
   acc = 0 /\ Forall (fun c => c = "0"%char) (list_ascii_of_string s)).
Proof.
  revert acc. induction s as [|c s IH]; intros acc Hacc Hd;
    cbn [int_from list_ascii_of_string].
  - split; [auto | tauto].
  - inversion Hd as [|? ? Hc Hs]; subst.
    pose proof (digit_value_nonneg c) as Hv.
    rewrite (IH (10 * acc + digit_value c)) by (auto; lia).
    pose proof (digit_zero c Hc) as Hz. split.
    + intros [E F]. assert (digit_value c = 0) by lia.
      split; [lia|]. constructor; [tauto|exact F].
    + intros [E F]. inversion F; subst. split; [|assumption].
      assert (digit_value "0"%char = 0) by reflexivity. lia.
Qed.

Lemma span_isdigit (s run rest : string) :
  span isdigit s = (run, rest) -> all_digits run.
Proof.
  revert run rest. induction s as [|c s IH]; intros run rest; simpl.
  - intros H. injection H as <- <-. constructor.
  - destruct (isdigit c) eqn:D.
    + destruct (span isdigit s) as [r0 rest0]. intros H.
      injection H as <- <-. constructor; [exact D|]. eapply IH; eauto.
    + intros H. injection H as <- <-. constructor.
Qed.

Lemma match_page_here_groups (s g1 g2 : string) :
  match_page_here s = Some (g1, g2) -> g2 <> "" /\ all_digits g2.
Proof.
  unfold match_page_here.
  destruct (eat_nocase "Page" s) as [s1|]; [|discriminate].
  destruct (span isspace s1) as [w1 s2].
  destruct (span isdigit s2) as [d1 s3].
  destruct d1 as [|c1 d1]; [discriminate|].
  destruct (span isspace s3) as [w2 s4].
  destruct (eat_nocase "of" s4) as [s5|]; [|discriminate].
  destruct (span isspace s5) as [w3 s6].
  destruct (span isdigit s6) as [d2 s7] eqn:D2.
  destruct d2 as [|c2 d2]; [discriminate|].
  intros H. injection H as <- <-. split; [discriminate|].
  eapply span_isdigit; eauto.
Qed.

Lemma search_page_groups (s g1 g2 : string) :
  search_page s = Some (g1, g2) -> g2 <> "" /\ all_digits g2.
Proof.
  induction s as [|c s IH]; cbn [search_page].
  - destruct (match_page_here "") as [[a b]|] eqn:M; [|discriminate].
    intros H. injection H as <- <-. eapply match_page_here_groups; eauto.
  - destruct (match_page_here (String c s)) as [[a b]|] eqn:M; [|exact IH].
    intros H. injection H as <- <-. eapply match_page_here_groups; eauto.
Qed.

End PageCount.

Section PageCountRun.
Import Py Re Spec Main.

Lemma total_pages_run_value (text : string) (n : Z) :
  total_pages_run text = Some n -> total_pages_of text = n.
Proof.
  unfold total_pages_run, total_pages_of.
  destruct (page_match text) as [[g1 g2]|].
  - destruct (int_raises g2); [discriminate|]. intros H. injection H. auto.
  - intros H. injection H. auto.
Qed.

Lemma int_raises_length (s : string) :
  int_raises s = true <-> (4300 < String.length s)%nat.
Proof. unfold int_raises, int_max_str_digits. apply Nat.ltb_lt. Qed.

End PageCountRun.

(** Claim C3 fails on the code.  The line that computes the number of pages
    takes the second number of the leftmost match as it is.  On the page
    text [Page 7 of 0] the groups are 7 and 0, nothing is raised and the
    number of pages is 0, which is not 1 or more; this is the value that
    stops the loop of the PyMuPDF backend from advancing.  On a page text
    whose second number has 4301 digits the line raises [ValueError].  What
    the claim says of every other text holds: the number is 1 when the text
    has no match, and otherwise the value of the second group, 1 or more
    when a digit of the group is not zero and nothing raised when the group
    has 4300 digits or less. *)
Theorem C3_total_pages :
  (Main.page_match Sample.seven_of_zero = Some ("7", "0")
   /\ Main.total_pages_run Sample.seven_of_zero = Some 0
   /\ Main.total_pages_of Sample.seven_of_zero = 0)
  /\ (String.length Sample.long_total = 4311%nat
      /\ Main.total_pages_run Sample.long_total = None)
  /\ forall text,
      (Main.page_match text = None ->
       Main.total_pages_run text = Some 1 /\ Main.total_pages_of text = 1)
      /\ (forall g1 g2,
            Main.page_match text = Some (g1, g2) ->
            g2 <> "" /\ Spec.all_digits g2
            /\ Main.total_pages_of text = Py.int g2
            /\ 0 <= Main.total_pages_of text
            /\ Main.total_pages_run text
               = (if (4300 <? String.length g2)%nat then None
                  else Some (Py.int g2))
            /\ (1 <= Main.total_pages_of text <->
                Exists (fun c => c <> "0"%char) (list_ascii_of_string g2))).
Proof.
  split; [repeat split; run|]. split; [split; run|].
  intros text. unfold Main.total_pages_of, Main.total_pages_run. split.
  - intros ->. split; reflexivity.
  - intros g1 g2 M. rewrite M.
    destruct (search_page_groups _ _ _ M) as [Hne Hd].
    split; [exact Hne|]. split; [exact Hd|]. split; [reflexivity|].
    pose proof (int_nonneg g2) as Hpos. split; [exact Hpos|].
    split; [reflexivity|].
    pose proof (int_from_zero g2 0 (Z.le_refl 0) Hd) as Hz.
    fold (Py.int g2) in Hz.
    rewrite (Exists_Forall_neg (fun c => c = "0"%char)).
    + split.
      * intros H F. assert (Py.int g2 = 0) by (apply Hz; auto). lia.
      * intros H.
        assert (Py.int g2 <> 0); [|lia].
        intros E. apply H. apply Hz in E. apply E.
    + intros c. destruct (ascii_dec c "0"%char); [left|right]; auto.
Qed.

(* ================================================================== *)
(** * The loop of the PyMuPDF backend *)
(* ================================================================== *)

Section Loop.
Import Py Main.

(** A state that a turn of the loop leaves as it is, with pages still to
    visit, is never left. *)
Lemma loop_pymupdf_stuck (doc names : list string) (s : Z * State) :
  fst s < Z.of_nat (List.length doc) ->
  turn_pymupdf doc names s = s ->
  forall fuel, loop_pymupdf fuel doc names s = None.
Proof.
  intros Hlt Hfix fuel. induction fuel as [|fuel IH]; simpl.
  - apply Z.ltb_lt in Hlt. rewrite Hlt. reflexivity.
  - apply Z.ltb_lt in Hlt. rewrite Hlt, Hfix. exact IH.
Qed.

Lemma advance_pos (text : string) (pn : Z) :
  1 <= total_pages_of text -> pn < advance text pn.
Proof.
  unfold advance. destruct (page_match text); lia.
Qed.

(** When every page declares at least one page the loop ends, within as
    many turns as pages are left. *)
Lemma loop_pymupdf_ends (doc names : list string) :
  (forall text, In text doc -> 1 <= total_pages_of text) ->
  forall fuel s,
    0 <= fst s ->
    (List.length doc - Z.to_nat (fst s) <= fuel)%nat ->
    exists st, loop_pymupdf fuel doc names s = Some st.
Proof.
  intros Hdoc fuel. induction fuel as [|fuel IH]; intros [pn st] Hpn Hfuel;
    simpl in *.
  - destruct (pn <? Z.of_nat (List.length doc)) eqn:C; eauto.
    apply Z.ltb_lt in C. lia.
  - destruct (pn <? Z.of_nat (List.length doc)) eqn:C; eauto.
    apply Z.ltb_lt in C. apply IH; unfold turn_pymupdf; simpl.
    + assert (pn < advance (get_text doc pn) pn); [|lia].
      apply advance_pos, Hdoc. unfold get_text. apply nth_In. lia.
    + assert (pn < advance (get_text doc pn) pn); [|lia].
      apply advance_pos, Hdoc. unfold get_text. apply nth_In. lia.
Qed.

End Loop.

(** Claim C9 fails on the code.  On a document whose only page has the text
    [Page 1 of 0] the loop of the PyMuPDF backend adds 0 to [page_num] at
    every turn: whatever the registry and however many turns are allowed,
    the scan has not ended. *)
Theorem C9_zero_total_never_ends (fuel : nat) (names : list string) :
  Main.process_statements_pymupdf fuel [Sample.zero_total] names = None.
Proof.
  unfold Main.process_statements_pymupdf.
  apply loop_pymupdf_stuck.
  - simpl. lia.
  - unfold Main.turn_pymupdf. cbn [fst snd].
    rewrite page_pymupdf_no_record by run. run.
Qed.

(* ================================================================== *)
(** * The heuristic tiers *)
(* ================================================================== *)

Section Heuristics.
Import Py Spec Main.

(** The scan of a page that holds a record whose name has neither an exact
    nor a close match in the registry. *)
Lemma page_pypdf2_unmatched (names : list string) (pn : Z) (text : string)
  (c : Categories) (q : list Decision) (ls : list string) :
  record_lines text = Some ls ->
  mem (hd "" ls) names = false ->
  difflib.get_close_matches1 (hd "" ls) names cutoff = [] ->
  page_pypdf2 names pn text (c, q)
  = (extend (if contains "email" (lower text) then Dnm
             else if any_state ls then NationalSingle else Foreign)
            [pn + 1] c, q).
Proof.
  intros R M G. unfold page_pypdf2. rewrite R, M, G.
  destruct (contains "email" (lower text)); [reflexivity|].
  destruct (any_state ls); reflexivity.
Qed.

Lemma page_pymupdf_unmatched (names : list string) (pn : Z) (text : string)
  (c : Categories) (q : list Decision) (ls : list string) :
  record_lines text = Some ls ->
  mem (hd "" ls) names = false ->
  difflib.get_close_matches1 (hd "" ls) names cutoff = [] ->
  page_pymupdf names pn text (c, q)
  = (extend (if contains "email" (lower text) then Dnm
             else if any_state ls then
                    if total_pages_of text =? 1 then NationalSingle
                    else NationalMulti
                  else Foreign)
            (range (pn + 1) (pn + 1 + total_pages_of text)) c, q).
Proof.
  intros R M G. unfold page_pymupdf. rewrite R, M, G.
  destruct (contains "email" (lower text)); [reflexivity|].
  destruct (any_state ls); [|reflexivity].
  destruct (total_pages_of text =? 1); reflexivity.
Qed.

End Heuristics.



(* ================================================================== *)
(** * Substrings *)
(* ================================================================== *)

Section Substrings.
Import Py Spec Main.

Lemma prefix_append (sub s : string) :
  prefix sub s = true <-> exists post, s = sub ++ post.
Proof.
  revert s. induction sub as [|a sub IH]; intros s.
  - split; [intros _; exists s; reflexivity|]. intros _.
    destruct s; reflexivity.
  - destruct s as [|b s]; simpl.
    + split; [discriminate|]. intros [post H]. discriminate.
    + destruct (ascii_dec a b) as [->|N].
      * split.
        -- intros H. apply IH in H. destruct H as [post ->].
           exists post. reflexivity.
        -- intros [post H]. injection H as ->. apply IH. eauto.
      * split; [discriminate|]. intros [post H]. congruence.
Qed.

Lemma occurs_at_split (sub s : string) (i : nat) :
  sub <> "" ->
  (occurs_at sub s i <->
   exists pre post, s = pre ++ sub ++ post /\ String.length pre = i).
Proof.
  intros Hne. unfold occurs_at. revert s.
  induction i as [|i IH]; intros s.
  - rewrite <- prefix_correct, prefix_append. split.
    + intros [post ->]. exists "", post. auto.
    + intros (pre & post & -> & L). destruct pre; [|discriminate].
      exists post. reflexivity.
  - destruct s as [|b s].
    + simpl. split.
      * intros H. congruence.
      * intros (pre & post & E & L). destruct pre; discriminate.
    + simpl. rewrite IH. split.
      * intros (pre & post & -> & L). exists (String b pre), post.
        simpl. auto.
      * intros (pre & post & E & L). destruct pre as [|b' pre];
          [discriminate|].
        simpl in E, L. injection E as -> ->. injection L as L.
        exists pre, post. auto.
Qed.

(** [sub in s] holds exactly when [sub] is a substring of [s]. *)
Lemma contains_substring_of (sub s : string) :
  sub <> "" -> (contains sub s = true <-> substring_of sub s).
Proof.
  intros Hne. unfold contains, substring_of.
  destruct (index 0 sub s) as [i|] eqn:E.
  - split; auto. intros _.
    apply index_correct1 in E. apply (occurs_at_split sub s i Hne) in E.
    destruct E as (pre & post & -> & _). eauto.
  - split; [discriminate|]. intros (pre & post & ->). exfalso.
    apply (index_correct3 0 (String.length pre) sub _ E Hne (Nat.le_0_l _)).
    apply (occurs_at_split sub _ _ Hne). eauto.
Qed.

Lemma US_STATES_nonempty (state : string) : In state US_STATES -> state <> "".
Proof.
  intros H E. subst. revert H. unfold US_STATES. simpl.
  intuition discriminate.
Qed.

Lemma US_STATES_no_space (state : string) :
  In state US_STATES -> no_space state.
Proof.
  intros H. revert H. unfold US_STATES, no_space. simpl.
  intuition (subst; repeat constructor; discriminate).
Qed.

(** A prefix without a space of [u ++ " " ++ v] is a prefix of [u]. *)
Lemma prefix_before_space (sub u v post : string) :
  no_space sub -> sub ++ post = u ++ " " ++ v ->
  exists b, u = sub ++ b.
Proof.
  revert u. induction sub as [|c sub IH]; intros u Hn E; simpl in *.
  - exists u. reflexivity.
  - inversion Hn as [|? ? Hc Hs]; subst.
    destruct u as [|x u]; simpl in E.
    + injection E as E _. congruence.
    + injection E as -> E. destruct (IH u Hs E) as [b ->].
      exists b. reflexivity.
Qed.

(** A substring without a space of [u ++ " " ++ v] lies in [u] or in
    [v]. *)
Lemma substring_of_spaced (sub u v : string) :
  sub <> "" -> no_space sub ->
  substring_of sub (u ++ " " ++ v) ->
  substring_of sub u \/ substring_of sub v.
Proof.
  intros Hne Hn (pre & post & E). revert pre E.
  induction u as [|x u IH]; intros pre E; simpl in E.
  - destruct pre as [|c pre]; simpl in E.
    + destruct sub as [|c sub]; [congruence|]. simpl in E.
      injection E as E _. inversion Hn; subst. congruence.
    + injection E as _ E. right. exists pre, post. exact E.
  - destruct pre as [|c pre]; simpl in E.
    + left. symmetry in E.
      destruct (prefix_before_space sub (String x u) v post Hn E) as [b ->].
      exists "", b. reflexivity.
    + injection E as _ E. destruct (IH pre E) as [(a & b & ->)|H].
      * left. exists (String x a), b. reflexivity.
      * right. exact H.
Qed.

Lemma append_assoc (s1 s2 s3 : string) :
  (s1 ++ s2) ++ s3 = s1 ++ s2 ++ s3.
Proof.
  induction s1 as [|c s1 IH]; simpl; [reflexivity|]. rewrite IH.
  reflexivity.
Qed.

Lemma substring_of_join (sub : string) (ls : list string) :
  sub <> "" -> no_space sub ->
  (substring_of sub (join " " ls) <->
   exists line, In line ls /\ substring_of sub line).
Proof.
  intros Hne Hn. induction ls as [|p ps IH].
  - simpl. split.
    + intros (pre & post & E). destruct pre; destruct sub; try discriminate.
      congruence.
    + intros (line & [] & _).
  - destruct ps as [|p2 ps].
    + simpl. split; [eauto|]. intros (line & [<-|[]] & H). exact H.
    + change (join " " (p :: p2 :: ps))
        with (p ++ " " ++ join " " (p2 :: ps)). split.
      * intros H. apply substring_of_spaced in H; auto.
        destruct H as [H|H]; [exists p; simpl; auto|].
        apply IH in H. destruct H as (line & Hin & H).
        exists line. split; [right; exact Hin|exact H].
      * intros (line & [<-|Hin] & (a & b & E)).
        -- exists a, (b ++ " " ++ join " " (p2 :: ps)). rewrite E.
           rewrite !append_assoc. reflexivity.
        -- assert (H : substring_of sub (join " " (p2 :: ps))).
           { apply IH. exists line. split; [exact Hin|]. exists a, b.
             exact E. }
           destruct H as (a' & b' & ->).
           exists (p ++ " " ++ a'), b'. rewrite !append_assoc.
           reflexivity.
Qed.

(** [any_state]: a state abbreviation is a substring of one of the lines
    after the first. *)
Lemma any_state_substring (ls : list string) :
  any_state ls = true <->
  exists state line,
    In state US_STATES /\ In line (tl ls) /\ substring_of state line.
Proof.
  unfold any_state. rewrite existsb_exists. split.
  - intros (state & Hin & H).
    apply contains_substring_of in H; [|apply US_STATES_nonempty, Hin].
    apply substring_of_join in H;
      [|apply US_STATES_nonempty, Hin|apply US_STATES_no_space, Hin].
    destruct H as (line & Hl & H). exists state, line. auto.
  - intros (state & line & Hin & Hl & H). exists state. split; [exact Hin|].
    apply contains_substring_of; [apply US_STATES_nonempty, Hin|].
    apply substring_of_join;
      [apply US_STATES_nonempty, Hin|apply US_STATES_no_space, Hin|].
    exists line. auto.
Qed.

End Substrings.

(** Claim C4, amended.  For a record with no exact and no close match in the
    registry and a page text without [email] in any case, the record is
    classified National exactly when one of the 51 abbreviations is a
    substring (in the same case, inside a longer word or not) of one of the
    lines after the entity-name line; otherwise it is classified
    Foreign. *)
Theorem C4_state_substring (names : list string) (pn : Z) (text : string)
  (c : Main.Categories) (q : list Main.Decision) (ls : list string) :
  Main.record_lines text = Some ls ->
  Py.mem (hd "" ls) names = false ->
  difflib.get_close_matches1 (hd "" ls) names Main.cutoff = [] ->
  Py.contains "email" (Py.lower text) = false ->
  let tp := Main.total_pages_of text in
  let found :=
    exists state line,
      In state Main.US_STATES /\ In line (tl ls)
      /\ Spec.substring_of state line in
  List.length Main.US_STATES = 51%nat
  /\ (found ->
      Main.page_pymupdf names pn text (c, q)
      = (Main.extend (if tp =? 1 then Main.NationalSingle
                      else Main.NationalMulti)
                     (Py.range (pn + 1) (pn + 1 + tp)) c, q)
      /\ Main.page_pypdf2 names pn text (c, q)
         = (Main.extend Main.NationalSingle [pn + 1] c, q))
  /\ (~ found ->
      Main.page_pymupdf names pn text (c, q)
      = (Main.extend Main.Foreign (Py.range (pn + 1) (pn + 1 + tp)) c, q)
      /\ Main.page_pypdf2 names pn text (c, q)
         = (Main.extend Main.Foreign [pn + 1] c, q)).
Proof.
  intros R M G E tp found. split; [reflexivity|].
  rewrite (page_pymupdf_unmatched _ _ _ _ _ _ R M G), E.
  rewrite (page_pypdf2_unmatched _ _ _ _ _ _ R M G), E.
  fold tp. split.
  - intros F. apply any_state_substring in F. rewrite F. auto.
  - intros F. destruct (Main.any_state ls) eqn:S; auto.
    exfalso. apply F. apply any_state_substring. exact S.
Qed.

(** The test on the sample page whose address ends in [MADRID]. *)
Lemma C4_state_substring_witness :
  Main.page_pymupdf [] 0 Sample.madrid_single (Main.no_categories, [])
  = (Main.extend Main.NationalSingle [1] Main.no_categories, [])
  /\ Main.page_pypdf2 [] 0 Sample.madrid_single (Main.no_categories, [])
     = (Main.extend Main.NationalSingle [1] Main.no_categories, []).
Proof.
  assert (R : Main.record_lines Sample.madrid_single
              = Some ["914.949.9618"; "Acme Corp"; "Calle Mayor 1, MADRID"])
    by run.
  pose proof
    (C4_state_substring [] 0 Sample.madrid_single Main.no_categories [] _
       R eq_refl eq_refl ltac:(run)) as H.
  destruct H as (_ & H & _).
  assert (T : Main.total_pages_of Sample.madrid_single = 1) by run.
  rewrite T in H. apply H.
  exists "MA", "Calle Mayor 1, MADRID". split; [|split].
  - unfold Main.US_STATES. simpl. tauto.
  - simpl. auto.
  - exists "Calle Mayor 1, ", "DRID". reflexivity.
Defined.

(** Claim C4 as stated fails: the page below has no state abbreviation as a
    token in the lines after the entity-name line ([MA] and [ID] occur inside
    the word [MADRID] only), and both backends classify it National.  On
    the address [1 Main St, Springfield IL] the abbreviation [IL] is a
    token. *)
Lemma C4_counterexample :
  Main.record_lines Sample.madrid_single
  = Some ["914.949.9618"; "Acme Corp"; "Calle Mayor 1, MADRID"]
  /\ Spec.state_token ["914.949.9618"; "Acme Corp"; "Calle Mayor 1, MADRID"]
     = false
  /\ Spec.token_in "IL" "1 Main St, Springfield IL" = true
  /\ Py.contains "email" (Py.lower Sample.madrid_single) = false
  /\ Main.process_statements_pymupdf 1 [Sample.madrid_single] []
     = Some ({| Main.dnm := []; Main.national_single := [1];
                Main.national_multi := []; Main.foreign := [] |}, [])
  /\ Main.process_statements_pypdf2 [Sample.madrid_single] []
     = ({| Main.dnm := []; Main.national_single := [1];
           Main.national_multi := []; Main.foreign := [] |}, []).
Proof. repeat split; run. Qed.

(* ================================================================== *)
(** * The decision queue *)
(* ================================================================== *)

Section Queue.
Import Py Main.

Lemma list_remove_none (x : Decision) (l : list Decision) :
  list_remove x l = None <-> ~ In x l.
Proof.
  induction l as [|y l IH]; simpl.
  - tauto.
  - destruct (Decision_eq_dec y x) as [E|N].
    + split; [discriminate|]. intros H. exfalso. auto.
    + destruct (list_remove x l) as [l'|]; simpl.
      * split; [discriminate|]. intros H.
        assert (H' : ~ In x l) by tauto. apply IH in H'. discriminate.
      * split; auto. intros _ [H|H]; [auto|].
        assert (H' : ~ In x l) by (apply IH; reflexivity). auto.
Qed.

(** [list_remove] takes out the first entry equal to [x] and no other. *)
Lemma list_remove_some (x : Decision) (l l' : list Decision) :
  list_remove x l = Some l' ->
  exists l1 l2,
    l = (l1 ++ x :: l2)%list /\ ~ In x l1 /\ l' = (l1 ++ l2)%list.
Proof.
  revert l'. induction l as [|y l IH]; intros l'; simpl; [discriminate|].
  destruct (Decision_eq_dec y x) as [E|N].
  - intros H. injection H as <-. subst y. exists [], l. auto.
  - destruct (list_remove x l) as [r|]; simpl; [|discriminate].
    intros H. injection H as <-.
    destruct (IH r eq_refl) as (l1 & l2 & -> & Hn & ->).
    exists (y :: l1), l2. repeat split; auto.
    intros [H|H]; auto.
Qed.




End Queue.

(** Claim C8.  For every session and every decision payload: when the
    payload is not in the pending queue the call answers with an error; when
    it is, the answer is no error and the queue loses exactly one entry, the
    first one equal to the payload in all its fields, the entries before and
    after it staying in place. *)
Theorem C8_resolve (td : Main.TempData) (action : string)
  (statement : Main.Decision) :
  (~ In statement (Main.pending td) ->
   exists td' message,
     Main.statement_decision (Some td) action statement
     = (Some td', Main.Error message))
  /\ (In statement (Main.pending td) ->
      exists td' response l1 l2,
        Main.statement_decision (Some td) action statement
        = (Some td', response)
        /\ (forall message, response <> Main.Error message)
        /\ Main.pending td = (l1 ++ statement :: l2)%list
        /\ ~ In statement l1
        /\ Main.pending td' = (l1 ++ l2)%list
        /\ S (List.length (Main.pending td'))
           = List.length (Main.pending td)).
Proof.
  unfold Main.statement_decision. split.
  - intros H. apply list_remove_none in H. rewrite H. eauto.
  - intros H.
    destruct (Main.list_remove statement (Main.pending td)) as [p|] eqn:R.
    + destruct (list_remove_some _ _ _ R) as (l1 & l2 & E & Hn & ->).
      destruct (l1 ++ l2)%list as [|d r] eqn:L.
      * eexists _, _, l1, l2. split; [reflexivity|].
        split; [discriminate|]. split; [exact E|]. split; [exact Hn|].
        simpl. split; [auto|]. rewrite E, length_app. simpl.
        apply (f_equal (@List.length _)) in L. rewrite length_app in L.
        simpl in L. lia.
      * eexists _, _, l1, l2. split; [reflexivity|].
        split; [discriminate|]. split; [exact E|]. split; [exact Hn|].
        simpl. split; [auto|]. rewrite E, length_app. simpl.
        apply (f_equal (@List.length _)) in L. rewrite length_app in L.
        simpl in L. lia.
    + apply list_remove_none in R. contradiction.
Qed.




(* ================================================================== *)
(** * The category assembler *)
(* ================================================================== *)

Section Assembler.
Import Py Main.

Lemma StronglySorted_le_NoDup_lt (l : list Z) :
  StronglySorted (fun x y => is_true (x <=? y)) l -> NoDup l ->
  StronglySorted Z.lt l.
Proof.
  induction 1 as [|x l Hs IH Hall]; intros Hnd; constructor.
  - apply IH. inversion Hnd; assumption.
  - inversion Hnd as [|? ? Hx Hl]; subst.
    rewrite Forall_forall in *. intros y Hy.
    specialize (Hall y Hy). apply Z.leb_le in Hall.
    assert (x <> y) by (intros ->; contradiction). lia.
Qed.

Lemma sorted_set_sorted (pages : list Z) :
  StronglySorted Z.lt (sorted_set pages).
Proof.
  unfold sorted_set. apply StronglySorted_le_NoDup_lt.
  - apply ZSort.StronglySorted_sort.
    intros x y z Hxy Hyz. apply Z.leb_le in Hxy, Hyz. apply Z.leb_le. lia.
  - eapply Permutation_NoDup; [apply ZSort.Permuted_sort|].
    apply NoDup_nodup.
Qed.

Lemma sorted_set_In (pages : list Z) (p : Z) :
  In p (sorted_set pages) <-> In p pages.
Proof.
  unfold sorted_set. rewrite <- (nodup_In Z.eq_dec pages p). split.
  - apply Permutation_in. apply Permutation_sym, ZSort.Permuted_sort.
  - apply Permutation_in, ZSort.Permuted_sort.
Qed.

Lemma StronglySorted_filter (f : Z -> bool) (l : list Z) :
  StronglySorted Z.lt l -> StronglySorted Z.lt (filter f l).
Proof.
  induction 1 as [|x l Hs IH Hall]; simpl; [constructor|].
  destruct (f x); [|exact IH]. constructor; [exact IH|].
  rewrite Forall_forall in *. intros y Hy. apply filter_In in Hy.
  apply Hall, Hy.
Qed.

Lemma StronglySorted_pred (l : list Z) :
  StronglySorted Z.lt l -> StronglySorted Z.lt (map (fun pn => pn - 1) l).
Proof.
  induction 1 as [|x l Hs IH Hall]; simpl; constructor; [exact IH|].
  rewrite Forall_forall in *. intros y Hy. apply in_map_iff in Hy.
  destruct Hy as (z & <- & Hz). specialize (Hall z Hz). lia.
Qed.

Lemma StronglySorted_lt_NoDup (l : list Z) :
  StronglySorted Z.lt l -> NoDup l.
Proof.
  induction 1 as [|x l Hs IH Hall]; constructor; [|exact IH].
  intros Hx. rewrite Forall_forall in Hall. specialize (Hall x Hx). lia.
Qed.

Lemma written_pages_sorted (doc_len : nat) (pages : list Z) :
  StronglySorted Z.lt (written_pages doc_len pages).
Proof.
  unfold written_pages.
  apply StronglySorted_pred, StronglySorted_filter, sorted_set_sorted.
Qed.

Lemma written_pages_In (doc_len : nat) (pages : list Z) (p : Z) :
  In p (written_pages doc_len pages) <->
  In (p + 1) pages /\ 0 <= p < Z.of_nat doc_len.
Proof.
  unfold written_pages. rewrite in_map_iff. split.
  - intros (pn & <- & H). apply filter_In in H. destruct H as [H G].
    rewrite sorted_set_In in H. apply andb_true_iff in G.
    destruct G as [G1 G2]. apply Z.leb_le in G1. apply Z.ltb_lt in G2.
    replace (pn - 1 + 1) with pn by lia. split; [exact H|lia].
  - intros [H G]. exists (p + 1). split; [lia|]. apply filter_In. split.
    + apply sorted_set_In, H.
    + apply andb_true_iff. split; [apply Z.leb_le|apply Z.ltb_lt]; lia.
Qed.

(** Every file written comes from one category with pages. *)
Lemma statement_pdfs_In (doc_len : nat) (cats : list (string * list Z))
  (file : string) (w : list Z) :
  In (file, w) (statement_pdfs doc_len cats) ->
  exists name pages,
    In (name, pages) cats /\ pages <> [] /\ file = name ++ ".pdf"
    /\ w = written_pages doc_len pages /\ w <> [].
Proof.
  induction cats as [|[name pages] rest IH]; simpl; [tauto|].
  assert (Hrest :
    In (file, w) (statement_pdfs doc_len rest) ->
    exists name0 pages0,
      (((name, pages) = (name0, pages0)) \/ In (name0, pages0) rest)
      /\ pages0 <> [] /\ file = name0 ++ ".pdf"
      /\ w = written_pages doc_len pages0 /\ w <> []).
  { intros H. destruct (IH H) as (n & p & Hin & Hr). exists n, p. tauto. }
  destruct pages as [|p0 pages]; [exact Hrest|].
  destruct (written_pages doc_len (p0 :: pages)) as [|w0 ws] eqn:W;
    [exact Hrest|].
  intros [H|H]; [|exact (Hrest H)].
  injection H as <- <-. exists name, (p0 :: pages).
  split; [left; reflexivity|]. split; [discriminate|].
  split; [reflexivity|]. split; [symmetry; exact W|discriminate].
Qed.

Lemma length_append (s t : string) :
  String.length (s ++ t) = (String.length s + String.length t)%nat.
Proof. induction s as [|a s IH]; simpl; [reflexivity|]. rewrite IH. reflexivity. Qed.

Lemma append_suffix_inj (s1 s2 t : string) : s1 ++ t = s2 ++ t -> s1 = s2.
Proof.
  revert s2. induction s1 as [|a s1 IH]; intros s2 H.
  - destruct s2 as [|b s2]; [reflexivity|]. exfalso.
    apply (f_equal String.length) in H. simpl in H.
    rewrite length_append in H. lia.
  - destruct s2 as [|b s2].
    + exfalso. apply (f_equal String.length) in H. simpl in H.
      rewrite length_append in H. lia.
    + simpl in H. injection H as -> H. f_equal. apply IH, H.
Qed.

Lemma statement_pdfs_names (doc_len : nat) (cats : list (string * list Z))
  (file : string) :
  In file (map fst (statement_pdfs doc_len cats)) ->
  exists name pages,
    In (name, pages) cats /\ pages <> [] /\ file = name ++ ".pdf".
Proof.
  intros H. apply in_map_iff in H. destruct H as ([f w] & <- & H).
  destruct (statement_pdfs_In _ _ _ _ H) as (n & p & Hin & Hp & E & _).
  exists n, p. auto.
Qed.

Lemma statement_pdfs_NoDup (doc_len : nat) (cats : list (string * list Z)) :
  NoDup (map fst cats) -> NoDup (map fst (statement_pdfs doc_len cats)).
Proof.
  induction cats as [|[name pages] rest IH]; simpl; intros Hnd;
    [constructor|].
  inversion Hnd as [|? ? Hname Hrest]; subst.
  destruct pages as [|p0 pages]; [auto|].
  destruct (written_pages doc_len (p0 :: pages)) as [|w0 ws]; [auto|].
  simpl. constructor; [|auto].
  intros H. apply statement_pdfs_names in H.
  destruct H as (n & p & Hin & _ & E). apply append_suffix_inj in E.
  subst n. apply Hname. apply in_map_iff. exists (name, p). auto.
Qed.

End Assembler.

(** Claim C7.  For every mapping from category names to page lists (a
    dictionary: no name twice) and every source document, in both backends:
    no two files written have the same name, so a category yields at most
    one file; a category with no page yields none; and every file written
    is the file of a category with pages, holding in strictly ascending
    order, none twice, exactly the pages of that category that lie in the
    source document. *)
Theorem C7_category_assembler (doc_len : nat)
  (cats : list (string * list Z)) :
  NoDup (map fst cats) ->
  let out := Main.create_statement_pdfs_pypdf2 doc_len cats in
  Main.create_statement_pdfs_pymupdf doc_len cats = out
  /\ NoDup (map fst out)
  /\ (forall name, In (name, []) cats -> ~ In (name ++ ".pdf") (map fst out))
  /\ (forall file w,
        In (file, w) out ->
        exists name pages,
          In (name, pages) cats /\ pages <> [] /\ file = name ++ ".pdf"
          /\ StronglySorted Z.lt w /\ NoDup w
          /\ Forall (fun p => 0 <= p < Z.of_nat doc_len) w
          /\ forall p, In p w <->
                       In (p + 1) pages /\ 0 <= p < Z.of_nat doc_len).
Proof.
  intros Hnd out. unfold Main.create_statement_pdfs_pymupdf,
    Main.create_statement_pdfs_pypdf2 in *.
  split; [reflexivity|]. split; [apply statement_pdfs_NoDup, Hnd|]. split.
  - intros name Hin H. apply statement_pdfs_names in H.
    destruct H as (n & p & Hin' & Hp & E). apply append_suffix_inj in E.
    subst n. apply Hp.
    clear - Hnd Hin Hin'. induction cats as [|[k v] rest IH];
      simpl in *; [tauto|].
    inversion Hnd as [|? ? Hk Hrest]; subst.
    destruct Hin as [Hin|Hin], Hin' as [Hin'|Hin'].
    + congruence.
    + injection Hin as -> ->. exfalso. apply Hk. apply in_map_iff.
      exists (name, p). auto.
    + injection Hin' as -> ->. exfalso. apply Hk. apply in_map_iff.
      exists (name, []). auto.
    + auto.
  - intros file w H.
    destruct (statement_pdfs_In _ _ _ _ H) as (n & p & Hin & Hp & E & W & _).
    exists n, p. subst w. split; [exact Hin|]. split; [exact Hp|].
    split; [exact E|]. split; [apply written_pages_sorted|].
    split; [apply StronglySorted_lt_NoDup, written_pages_sorted|].
    split; [|apply written_pages_In].
    apply Forall_forall. intros x Hx. apply written_pages_In in Hx. tauto.
Qed.

(** Three categories over a document of three pages. *)
Lemma C7_category_assembler_witness :
  Main.create_statement_pdfs_pypdf2 3
    [("dnm", [3; 1; 3; 7; 0]); ("foreign", []); ("national_single", [9])]
  = [("dnm.pdf", [0; 2])]
  /\ NoDup (map fst
       (Main.create_statement_pdfs_pypdf2 3
          [("dnm", [3; 1; 3; 7; 0]); ("foreign", []);
           ("national_single", [9])])).
Proof.
  split; [run|].
  apply (C7_category_assembler 3
           [("dnm", [3; 1; 3; 7; 0]); ("foreign", []);
            ("national_single", [9])]).
  simpl. repeat constructor; simpl; intuition discriminate.
Defined.

(* ================================================================== *)
(** * The invoice extractor *)
(* ================================================================== *)

Section Invoices.
Import Py Spec Main.

Lemma lookup_app_absent (k k' : string) (inv : Invoices) :
  has_key k' inv = false ->
  lookup k (inv ++ [(k', [])])%list = lookup k inv.
Proof.
  unfold lookup, has_key. induction inv as [|[k0 ps] inv IH]; simpl.
  - intros _. destruct (String.eqb k' k); reflexivity.
  - destruct (String.eqb k0 k') eqn:E0; [discriminate|]. simpl.
    intros H. destruct (String.eqb k0 k); [reflexivity|]. apply IH, H.
Qed.

Lemma has_key_app (k : string) (inv : Invoices) :
  has_key k (inv ++ [(k, [])])%list = true.
Proof.
  unfold has_key. rewrite existsb_app. simpl. rewrite String.eqb_refl.
  apply orb_true_iff. right. reflexivity.
Qed.

Lemma lookup_append_to (k k' : string) (pn : Z) (inv : Invoices) :
  has_key k' inv = true ->
  lookup k (append_to k' pn inv)
  = if String.eqb k' k then (lookup k inv ++ [pn])%list else lookup k inv.
Proof.
  unfold lookup, has_key. induction inv as [|[k0 ps] inv IH]; simpl;
    [discriminate|].
  destruct (String.eqb k0 k') eqn:E0; simpl.
  - intros _. apply String.eqb_eq in E0. subst k0.
    destruct (String.eqb k' k); reflexivity.
  - intros H. destruct (String.eqb k0 k) eqn:E1.
    + destruct (String.eqb k' k) eqn:E2; [|reflexivity].
      apply String.eqb_eq in E1, E2. subst.
      rewrite String.eqb_refl in E0. discriminate.
    + apply IH, H.
Qed.

(** One match adds the page to the list of its identifier, and to no
    other. *)
Lemma lookup_add_invoice (k k' : string) (pn : Z) (inv : Invoices) :
  lookup k (add_invoice pn inv k')
  = if String.eqb k' k then (lookup k inv ++ [pn])%list else lookup k inv.
Proof.
  unfold add_invoice. destruct (has_key k' inv) eqn:H.
  - apply lookup_append_to, H.
  - rewrite lookup_append_to by apply has_key_app.
    rewrite lookup_app_absent by exact H. reflexivity.
Qed.

Lemma lookup_fold_add (k : string) (pn : Z) (found : list string)
  (inv : Invoices) :
  lookup k (fold_left (add_invoice pn) found inv)
  = (lookup k inv ++ repeat pn (occurrences k found))%list.
Proof.
  revert inv. induction found as [|k' found IH]; intros inv; simpl.
  - rewrite app_nil_r. reflexivity.
  - rewrite IH, lookup_add_invoice. unfold occurrences. simpl.
    destruct (string_dec k' k) as [->|N].
    + rewrite String.eqb_refl. simpl. rewrite <- app_assoc. reflexivity.
    + apply String.eqb_neq in N. rewrite N. reflexivity.
Qed.

Lemma lookup_fold_pages (k : string) (ps : list (Z * string))
  (inv : Invoices) :
  lookup k (fold_left page_invoices ps inv)
  = (lookup k inv ++ pages_of k ps)%list.
Proof.
  revert inv. induction ps as [|p ps IH]; intros inv; cbn [fold_left].
  - unfold pages_of. simpl. rewrite app_nil_r. reflexivity.
  - rewrite IH. unfold page_invoices. rewrite lookup_fold_add.
    rewrite <- app_assoc. reflexivity.
Qed.

Lemma lookup_extract (k : string) (doc : list string) :
  lookup k (extract_invoices_pypdf2 doc) = pages_of k (enumerate doc).
Proof. unfold extract_invoices_pypdf2. apply lookup_fold_pages. Qed.

(** The two backends visit the same pages in the same order. *)
Lemma range_enumerate (doc : list string) :
  map (fun pn => (pn, get_text doc pn)) (range 0 (Z.of_nat (List.length doc)))
  = enumerate doc.
Proof.
  unfold range, enumerate. rewrite Z.sub_0_r, Nat2Z.id.
  rewrite map_map.
  assert (G : forall (pre l : list string),
             map (fun i => (0 + Z.of_nat i, get_text (pre ++ l) (0 + Z.of_nat i)))
                 (seq (List.length pre) (List.length l))
             = combine (map Z.of_nat (seq (List.length pre) (List.length l))) l).
  { intros pre l. revert pre. induction l as [|x l IH]; intros pre; simpl.
    - reflexivity.
    - f_equal.
      + unfold get_text. simpl. rewrite Nat2Z.id.
        rewrite nth_middle. reflexivity.
      + specialize (IH (pre ++ [x])%list).
        rewrite <- app_assoc in IH. simpl in IH.
        rewrite length_app in IH. simpl in IH.
        rewrite Nat.add_1_r in IH. exact IH. }
  apply (G [] doc).
Qed.

Lemma fold_left_map {A B C : Type} (f : A -> C -> A) (g : B -> C)
  (l : list B) (a : A) :
  fold_left f (map g l) a = fold_left (fun x y => f x (g y)) l a.
Proof. revert a. induction l; simpl; auto. Qed.

Lemma extract_invoices_same (doc : list string) :
  extract_invoices_pymupdf doc = extract_invoices_pypdf2 doc.
Proof.
  unfold extract_invoices_pymupdf, extract_invoices_pypdf2.
  rewrite <- range_enumerate, fold_left_map. reflexivity.
Qed.

Lemma count_repeat (x y : Z) (n : nat) :
  count_occ Z.eq_dec (repeat x n) y = if Z.eq_dec x y then n else 0%nat.
Proof.
  induction n as [|n IH]; simpl.
  - destruct (Z.eq_dec x y); reflexivity.
  - destruct (Z.eq_dec x y); simpl; lia.
Qed.

Lemma count_pages_of (k : string) (pre l : list string) (i : nat) :
  count_occ Z.eq_dec
    (pages_of k (combine (map Z.of_nat (seq (List.length pre) (List.length l)))
                         l))
    (Z.of_nat i)
  = (occurrences k (Re.findall_invoices (nth i (pre ++ l)%list ""))
     * (if (List.length pre <=? i) then 1 else 0))%nat.
Proof.
  revert pre. induction l as [|x l IH]; intros pre; simpl.
  - rewrite app_nil_r. destruct (List.length pre <=? i)%nat eqn:C.
    + apply Nat.leb_le in C. rewrite nth_overflow by exact C.
      reflexivity.
    + lia.
  - rewrite count_occ_app, count_repeat.
    specialize (IH (pre ++ [x])%list).
    rewrite <- app_assoc, length_app in IH. simpl in IH.
    rewrite Nat.add_1_r in IH. rewrite IH.
    destruct (Z.eq_dec (Z.of_nat (List.length pre)) (Z.of_nat i)) as [E|N].
    + apply Nat2Z.inj in E. subst i. rewrite nth_middle.
      rewrite Nat.leb_refl.
      replace (S (List.length pre) <=? List.length pre)%nat with false
        by (symmetry; apply Nat.leb_gt; lia).
      lia.
    + assert (List.length pre <> i) by congruence.
      destruct (Nat.leb_spec (List.length pre) i);
        destruct (Nat.leb_spec (S (List.length pre)) i); lia.
Qed.

Lemma pages_of_sorted (k : string) (lo n : nat) (l : list string) :
  StronglySorted Z.le
    (pages_of k (combine (map Z.of_nat (seq lo n)) l))
  /\ Forall (fun p => Z.of_nat lo <= p)
       (pages_of k (combine (map Z.of_nat (seq lo n)) l)).
Proof.
  revert lo l. induction n as [|n IH]; intros lo l; simpl.
  - split; constructor.
  - destruct l as [|x l]; simpl; [split; constructor|].
    destruct (IH (S lo) l) as [Hs Hall].
    set (m := occurrences k (Re.findall_invoices x)). clearbody m.
    induction m as [|m IHm]; simpl.
    + split; [exact Hs|]. eapply Forall_impl; [|exact Hall].
      simpl. intros. lia.
    + destruct IHm as [Hs' Hall']. split.
      * constructor; [exact Hs'|exact Hall'].
      * constructor; [lia|exact Hall'].
Qed.

End Invoices.

(** Claim C1, amended.  For every document and every identifier, in both
    backends: the page list of the identifier holds the index of a page as
    many times as the identifier matches in the text of that page (every
    match appends the index, also when it is already the most recent entry),
    and the list is in ascending order of pages, equal indices next to each
    other. *)
Theorem C1_invoice_pages (doc : list string) (k : string) :
  let pages := Main.lookup k (Main.extract_invoices_pypdf2 doc) in
  Main.extract_invoices_pymupdf doc = Main.extract_invoices_pypdf2 doc
  /\ StronglySorted Z.le pages
  /\ Forall (fun p => 0 <= p) pages
  /\ forall i : nat,
       count_occ Z.eq_dec pages (Z.of_nat i)
       = Spec.occurrences k (Re.findall_invoices (nth i doc "")).
Proof.
  intros pages. unfold pages. rewrite lookup_extract.
  unfold Main.enumerate.
  split; [apply extract_invoices_same|].
  split; [apply (pages_of_sorted k 0)|].
  split; [apply (pages_of_sorted k 0)|].
  intros i. rewrite <- (Nat.mul_1_r (Spec.occurrences k _)).
  exact (count_pages_of k [] doc i).
Qed.

(** Claim C1 as stated fails: an identifier that matches twice in the text
    of page 0 gets the page index 0 twice in a row, in both backends. *)
Lemma C1_counterexample :
  Re.findall_invoices Sample.twice = ["P1234567"; "P1234567"]
  /\ Main.extract_invoices_pypdf2 [Sample.twice] = [("P1234567", [0; 0])]
  /\ Main.extract_invoices_pymupdf [Sample.twice] = [("P1234567", [0; 0])].
Proof. repeat split; run. Qed.

(* ================================================================== *)
(** * difflib: the longest matching block *)
(* ================================================================== *)

Section LongestMatch.
Import Spec difflib.

Variable indexed : ascii -> bool.

Lemma app_eq_length_inv {A : Type} (l1 l2 l3 l4 : list A) :
  (l1 ++ l2 = l3 ++ l4)%list -> List.length l1 = List.length l3 ->
  l1 = l3 /\ l2 = l4.
Proof.
  revert l3. induction l1 as [|x l1 IH]; intros [|y l3]; simpl;
    try discriminate.
  - auto.
  - intros E L. injection E as -> E. injection L as L.
    destruct (IH _ E L) as [-> ->]. auto.
Qed.

Lemma ends_at_zero (u b : list ascii) (t : nat) :
  (t <= List.length b)%nat -> ends_at u b t 0.
Proof.
  intros H. exists u, [], (firstn t b), (skipn t b).
  rewrite app_nil_r. simpl. rewrite firstn_skipn.
  rewrite firstn_length_le by exact H. auto.
Qed.

(** A block that ends before position [|bp|] of [bp ++ x :: bs] grows by
    the element [x]. *)
Lemma ends_at_grow (u bp bs : list ascii) (x : ascii) (d : nat) :
  ends_at u (bp ++ x :: bs) (List.length bp) d ->
  ends_at (u ++ [x]) (bp ++ x :: bs) (S (List.length bp)) (S d).
Proof.
  intros (u0 & m & v0 & v1 & -> & E & <- & L).
  rewrite app_assoc in E. apply app_eq_length_inv in E;
    [|rewrite length_app; lia].
  destruct E as [E1 E2]. subst bp v1.
  exists u0, (m ++ [x])%list, v0, bs. repeat split.
  - rewrite app_assoc. reflexivity.
  - rewrite <- !app_assoc. reflexivity.
  - rewrite length_app. simpl. lia.
  - rewrite !length_app. simpl. lia.
Qed.

(** The entries of the new row describe blocks of [a] extended by [x]. *)
Lemma next_row_ends (u : list ascii) (x : ascii) (bs bp : list ascii)
  (diag : list nat) :
  (forall t d, nth_error diag t = Some d -> (t <= List.length bs)%nat ->
               ends_at u (bp ++ bs) (List.length bp + t) d) ->
  forall t k,
    nth_error (next_row indexed x bs diag) t = Some k ->
    ends_at (u ++ [x]) (bp ++ bs) (List.length bp + S t) k.
Proof.
  revert bp diag. induction bs as [|bj bs IH]; intros bp diag Hd t k;
    [destruct t; discriminate|].
  destruct diag as [|d diag]; [destruct t; discriminate|].
  cbn [next_row]. destruct t as [|t]; cbn [nth_error].
  - intros H. injection H as <-.
    destruct (Ascii.eqb bj x && indexed x) eqn:C.
    + apply andb_true_iff in C. destruct C as [C _].
      apply Ascii.eqb_eq in C. subst bj.
      rewrite Nat.add_1_r. apply ends_at_grow.
      specialize (Hd 0%nat d eq_refl (Nat.le_0_l _)).
      rewrite Nat.add_0_r in Hd. exact Hd.
    + apply ends_at_zero. rewrite length_app. simpl. lia.
  - intros H.
    replace (bp ++ bj :: bs)%list with ((bp ++ [bj]) ++ bs)%list
      by (rewrite <- app_assoc; reflexivity).
    replace (List.length bp + S (S t))%nat
      with (List.length (bp ++ [bj]) + S t)%nat
      by (rewrite length_app; simpl; lia).
    apply (IH (bp ++ [bj])%list diag); [|exact H].
    intros t' d' Ht' Hle.
    rewrite <- app_assoc. simpl.
    replace (List.length (bp ++ [bj]) + t')%nat
      with (List.length bp + S t')%nat
      by (rewrite length_app; simpl; lia).
    apply Hd; [exact Ht'|simpl; lia].
Qed.

Lemma next_row_length (x : ascii) (bs : list ascii) (diag : list nat) :
  (List.length (next_row indexed x bs diag) <= List.length bs)%nat.
Proof.
  revert diag. induction bs as [|bj bs IH]; intros [|d diag]; simpl;
    try lia.
  specialize (IH diag). lia.
Qed.

Lemma block_at_more (a a' b : list ascii) (i j k : nat) :
  block_at a b i j k -> block_at (a ++ a') b i j k.
Proof.
  intros (u & m & u' & v & v' & -> & -> & Hi & Hj & Hk).
  exists u, m, (u' ++ a')%list, v, v'. rewrite <- !app_assoc. auto.
Qed.

(** The scan of a row keeps the best block a block. *)
Lemma scan_row_block (a b : list ascii) (row : list nat) (j : nat)
  (best : nat * nat * nat) :
  (forall t k, nth_error row t = Some k -> ends_at a b (S (j + t)) k) ->
  (let '(bi, bj, bk) := best in block_at a b bi bj bk) ->
  let '(bi, bj, bk) := scan_row (List.length a - 1) j row best in
  block_at a b bi bj bk.
Proof.
  revert j best. induction row as [|k row IH]; intros j [[bi bj] bk] Hrow Hb;
    cbn [scan_row]; [exact Hb|].
  apply IH.
  - intros t k' H. replace (S j + t)%nat with (j + S t)%nat by lia.
    apply Hrow. exact H.
  - destruct (bk <? k)%nat eqn:C; [|exact Hb].
    specialize (Hrow 0%nat k eq_refl). rewrite Nat.add_0_r in Hrow.
    apply Nat.ltb_lt in C.
    destruct Hrow as (u0 & m & v0 & v1 & -> & -> & Hk & L).
    exists u0, m, [], v0, v1. rewrite app_nil_r, length_app.
    repeat split; auto; lia.
Qed.

(** The dynamic programme returns a block of [a] and [b]. *)
Lemma rows_block (b arest adone : list ascii) (j2len : list nat)
  (best : nat * nat * nat) :
  (forall t d, nth_error j2len t = Some d -> ends_at adone b (S t) d) ->
  (let '(bi, bj, bk) := best in block_at adone b bi bj bk) ->
  let '(bi, bj, bk) := rows indexed b arest (List.length adone) j2len best in
  block_at (adone ++ arest) b bi bj bk.
Proof.
  revert adone j2len best.
  induction arest as [|x arest IH]; intros adone j2len best Hrow Hb;
    cbn [rows].
  - rewrite app_nil_r. exact Hb.
  - set (new := next_row indexed x b (0%nat :: j2len)).
    assert (Hnew : forall t k, nth_error new t = Some k ->
                               ends_at (adone ++ [x]) b (S t) k).
    { intros t k H.
      apply (next_row_ends adone x b [] (0%nat :: j2len)); [|exact H].
      intros [|t'] d Hd Hle; simpl in Hd.
      - injection Hd as <-. apply ends_at_zero. simpl. lia.
      - simpl. apply Hrow, Hd. }
    replace (adone ++ x :: arest)%list with ((adone ++ [x]) ++ arest)%list
      by (rewrite <- app_assoc; reflexivity).
    replace (S (List.length adone)) with (List.length (adone ++ [x]))
      by (rewrite length_app; simpl; lia).
    apply IH; [exact Hnew|].
    replace (List.length adone) with (List.length (adone ++ [x]) - 1)%nat
      by (rewrite length_app; simpl; lia).
    apply scan_row_block.
    + intros t k H. simpl. apply Hnew, H.
    + destruct best as [[bi bj] bk]. apply block_at_more, Hb.
Qed.

Lemma common_prefix_split (p q : list ascii) :
  exists c p' q',
    p = (c ++ p')%list /\ q = (c ++ q')%list
    /\ List.length c = common_prefix p q.
Proof.
  revert q. induction p as [|x p IH]; intros q.
  - exists [], [], q. auto.
  - destruct q as [|y q].
    + exists [], (x :: p), []. auto.
    + simpl. destruct (Ascii.eqb x y) eqn:E.
      * apply Ascii.eqb_eq in E. subst y.
        destruct (IH q) as (c & p' & q' & -> & -> & L).
        exists (x :: c), p', q'. simpl. auto.
      * exists [], (x :: p), (y :: q). auto.
Qed.

Lemma firstn_exact {A : Type} (u r : list A) :
  firstn (List.length u) (u ++ r) = u.
Proof. induction u as [|x u IH]; simpl; [reflexivity|]. rewrite IH. reflexivity. Qed.

Lemma skipn_exact {A : Type} (u r : list A) :
  skipn (List.length u) (u ++ r) = r.
Proof. induction u as [|x u IH]; simpl; auto. Qed.

Lemma skipn_exact2 {A : Type} (u m r : list A) :
  skipn (List.length u + List.length m) (u ++ m ++ r) = r.
Proof.
  rewrite <- length_app, app_assoc. apply skipn_exact.
Qed.

(** [find_longest_match] returns a block of [a] and [b]. *)
Lemma find_longest_match_block (a b : list ascii) :
  let '(i, j, k) := find_longest_match indexed a b in block_at a b i j k.
Proof.
  unfold find_longest_match.
  pose proof (rows_block b a [] (repeat 0%nat (List.length b)) (0, 0, 0)%nat)
    as H.
  simpl in H.
  destruct (rows indexed b a 0 (repeat 0%nat (List.length b)) (0, 0, 0)%nat)
    as [[i j] k].
  assert (B : block_at a b i j k).
  { apply H.
    - intros t d Hd.
      assert (Ht : (t < List.length b)%nat).
      { rewrite <- (repeat_length 0%nat (List.length b)).
        apply nth_error_Some. congruence. }
      apply nth_error_In, repeat_spec in Hd. subst d.
      apply ends_at_zero. lia.
    - exists [], [], [], [], b. auto. }
  destruct B as (u & m & u' & v & v' & -> & -> & Hi & Hj & Hk).
  rewrite <- Hi, <- Hj, <- Hk.
  rewrite !firstn_exact, !skipn_exact2.
  destruct (common_prefix_split (rev u) (rev v))
    as (c & p' & q' & Eu & Ev & Lc).
  destruct (common_prefix_split u' v') as (c2 & p2 & q2 & -> & -> & Lc2).
  rewrite <- Lc, <- Lc2.
  apply (f_equal (@rev ascii)) in Eu, Ev.
  rewrite rev_involutive, rev_app_distr in Eu, Ev. subst u v.
  exists (rev p'), (rev c ++ m ++ c2)%list, p2, (rev q'), q2.
  rewrite !length_app, !length_rev. repeat split.
  - rewrite <- !app_assoc. reflexivity.
  - rewrite <- !app_assoc. reflexivity.
  - lia.
  - lia.
  - lia.
Qed.

End LongestMatch.

(* ================================================================== *)
(** * difflib: the number of matches and its bounds *)
(* ================================================================== *)

Section Counting.
Import Spec difflib.

Lemma list_sum_ext {A : Type} (f g : A -> nat) (l : list A) :
  (forall c, f c = g c) -> list_sum (map f l) = list_sum (map g l).
Proof.
  intros H. induction l as [|x l IH]; simpl; [reflexivity|].
  rewrite H, IH. reflexivity.
Qed.

Lemma list_sum_le {A : Type} (f g : A -> nat) (l : list A) :
  (forall c, (f c <= g c)%nat) ->
  (list_sum (map f l) <= list_sum (map g l))%nat.
Proof.
  intros H. induction l as [|x l IH]; simpl; [lia|].
  specialize (H x). lia.
Qed.

Lemma list_sum_add {A : Type} (f g : A -> nat) (l : list A) :
  list_sum (map (fun c => (f c + g c)%nat) l)
  = (list_sum (map f l) + list_sum (map g l))%nat.
Proof. induction l as [|x l IH]; simpl; lia. Qed.

Lemma sum_over_ext (f g : ascii -> nat) :
  (forall c, f c = g c) -> sum_over f = sum_over g.
Proof. apply list_sum_ext. Qed.

Lemma sum_over_le (f g : ascii -> nat) :
  (forall c, (f c <= g c)%nat) -> (sum_over f <= sum_over g)%nat.
Proof. apply list_sum_le. Qed.

Lemma sum_over_add (f g : ascii -> nat) :
  sum_over (fun c => (f c + g c)%nat) = (sum_over f + sum_over g)%nat.
Proof. apply list_sum_add. Qed.

(** Each character is met once in the sum. *)
Lemma sum_over_one (x : ascii) :
  sum_over (fun c => if ascii_dec x c then 1%nat else 0%nat) = 1%nat.
Proof.
  destruct x as [[] [] [] [] [] [] [] []]; vm_compute; reflexivity.
Qed.

Lemma count_occ_head (x c : ascii) (m : list ascii) :
  count_occ ascii_dec (x :: m) c
  = ((if ascii_dec x c then 1 else 0) + count_occ ascii_dec m c)%nat.
Proof. simpl. destruct (ascii_dec x c); reflexivity. Qed.

Lemma sum_over_count (m : list ascii) :
  sum_over (count_occ ascii_dec m) = List.length m.
Proof.
  induction m as [|x m IH].
  - unfold sum_over. simpl. induction all_ascii; simpl; auto.
  - change (List.length (x :: m)) with (1 + List.length m)%nat.
    rewrite <- IH, <- (sum_over_one x), <- sum_over_add.
    apply sum_over_ext. intros c. apply count_occ_head.
Qed.

Lemma common_le_left (a b : list ascii) : (common a b <= List.length a)%nat.
Proof.
  rewrite <- sum_over_count. apply sum_over_le. intros c. lia.
Qed.

Lemma common_le_right (a b : list ascii) : (common a b <= List.length b)%nat.
Proof.
  rewrite <- sum_over_count. apply sum_over_le. intros c. lia.
Qed.

(** A shared block and what is shared on its two sides are shared. *)
Lemma common_block (u m u' v v' : list ascii) :
  (common u v + List.length m + common u' v'
   <= common (u ++ m ++ u') (v ++ m ++ v'))%nat.
Proof.
  rewrite <- (sum_over_count m). unfold common.
  rewrite <- !sum_over_add. apply sum_over_le. intros c.
  rewrite !count_occ_app. lia.
Qed.

Lemma common_head (elt : ascii) (seen b : list ascii) :
  common (elt :: seen) b
  = ((if (0 <? Z.of_nat (count_occ ascii_dec b elt)
               - Z.of_nat (count_occ ascii_dec seen elt))%Z
      then 1 else 0) + common seen b)%nat.
Proof.
  unfold common.
  destruct (0 <? Z.of_nat (count_occ ascii_dec b elt)
                 - Z.of_nat (count_occ ascii_dec seen elt))%Z eqn:C.
  - apply Z.ltb_lt in C. rewrite <- (sum_over_one elt), <- sum_over_add.
    apply sum_over_ext. intros c. rewrite count_occ_head.
    destruct (ascii_dec elt c) as [<-|N]; lia.
  - apply Z.ltb_ge in C. simpl plus.
    apply sum_over_ext. intros c. rewrite count_occ_head.
    destruct (ascii_dec elt c) as [<-|N]; lia.
Qed.

Lemma common_middle (elt : ascii) (a seen b : list ascii) :
  common ((elt :: a) ++ seen) b = common (a ++ elt :: seen) b.
Proof.
  unfold common. apply sum_over_ext. intros c.
  rewrite <- app_comm_cons.
  repeat (rewrite count_occ_app || rewrite count_occ_head). lia.
Qed.

(** [quick_matches] counts the shared elements. *)
Lemma quick_matches_common (b a seen : list ascii) :
  (quick_matches b seen a + common seen b)%nat = common (a ++ seen) b.
Proof.
  revert seen. induction a as [|elt a IH]; intros seen;
    cbn [quick_matches]; [reflexivity|].
  rewrite common_middle, <- IH, common_head. lia.
Qed.

Lemma quick_matches_is_common (a b : list ascii) :
  quick_matches b [] a = common a b.
Proof.
  pose proof (quick_matches_common b a []) as H.
  rewrite app_nil_r in H. rewrite <- H.
  assert (Z0 : common [] b = 0%nat).
  { unfold common, sum_over. simpl. induction all_ascii; simpl; auto. }
  lia.
Qed.

Section Matching.
Variable indexed : ascii -> bool.

(** The matched elements are shared elements. *)
Lemma matching_size_common (fuel : nat) (a b : list ascii) :
  (matching_size indexed fuel a b <= common a b)%nat.
Proof.
  revert a b. induction fuel as [|fuel IH]; intros a b;
    cbn [matching_size]; [lia|].
  pose proof (find_longest_match_block indexed a b) as B.
  destruct (find_longest_match indexed a b) as [[i j] k].
  destruct (k =? 0)%nat; [lia|].
  destruct B as (u & m & u' & v & v' & -> & -> & <- & <- & <-).
  rewrite !firstn_exact, !skipn_exact2.
  pose proof (common_block u m u' v v') as C.
  pose proof (IH u v). pose proof (IH u' v').
  destruct (_ && _); destruct (_ && _); lia.
Qed.

(** Rounds beyond [len(a) + 1] change nothing. *)
Lemma matching_size_fuel (fuel1 fuel2 : nat) (a b : list ascii) :
  (List.length a < fuel1)%nat -> (List.length a < fuel2)%nat ->
  matching_size indexed fuel1 a b = matching_size indexed fuel2 a b.
Proof.
  revert fuel2 a b. induction fuel1 as [|fuel1 IH]; intros fuel2 a b H1 H2;
    [lia|].
  destruct fuel2 as [|fuel2]; [lia|]. cbn [matching_size].
  pose proof (find_longest_match_block indexed a b) as B.
  destruct (find_longest_match indexed a b) as [[i j] k].
  destruct (k =? 0)%nat eqn:K; [reflexivity|]. apply Nat.eqb_neq in K.
  destruct B as (u & m & u' & v & v' & -> & -> & <- & <- & <-).
  rewrite !length_app in H1, H2.
  rewrite !firstn_exact, !skipn_exact2.
  rewrite (IH fuel2 u v) by lia. rewrite (IH fuel2 u' v') by lia.
  reflexivity.
Qed.

End Matching.

Lemma matches_le_common (a b : list ascii) :
  (matches a b <= common a b)%nat.
Proof. apply matching_size_common. Qed.

End Counting.

(* ================================================================== *)
(** * difflib: the best close match *)
(* ================================================================== *)

Section CloseMatches.
Import Spec difflib.

Lemma calculate_ratio_mono (m1 m2 len : nat) :
  (m1 <= m2)%nat ->
  (_calculate_ratio m1 len <= _calculate_ratio m2 len)%Q.
Proof.
  intros H. unfold _calculate_ratio. destruct (len =? 0)%nat.
  - apply Qle_refl.
  - unfold Qle. cbn [Qnum Qden]. apply Z.mul_le_mono_nonneg_r; lia.
Qed.

Lemma ratio_le_quick_ratio (a b : list ascii) :
  (ratio a b <= quick_ratio a b)%Q.
Proof.
  apply calculate_ratio_mono. rewrite quick_matches_is_common.
  apply matches_le_common.
Qed.

Lemma ratio_le_real_quick_ratio (a b : list ascii) :
  (ratio a b <= real_quick_ratio a b)%Q.
Proof.
  apply calculate_ratio_mono.
  pose proof (matches_le_common a b).
  pose proof (common_le_left a b). pose proof (common_le_right a b). lia.
Qed.

(** The two quick tests never reject what the third accepts. *)
Lemma good_enough_similar (word x : string) :
  good_enough Main.cutoff word x = true <-> similar x word.
Proof.
  unfold good_enough, similar, similarity.
  rewrite !andb_true_iff, !Qle_bool_iff. split; [tauto|].
  intros H. repeat split; auto.
  - eapply Qle_trans; [exact H|apply ratio_le_real_quick_ratio].
  - eapply Qle_trans; [exact H|apply ratio_le_quick_ratio].
Qed.

Lemma scored_In (word : string) (names : list string) (p : Q * string) :
  In p (scored Main.cutoff word names) <->
  In (snd p) names /\ similar (snd p) word
  /\ fst p = similarity (snd p) word.
Proof.
  destruct p as [r s]. cbn [fst snd].
  induction names as [|x names IH]; simpl; [tauto|].
  destruct (good_enough Main.cutoff word x) eqn:G.
  - apply good_enough_similar in G. simpl. rewrite IH. split.
    + intros [H|H]; [|tauto]. injection H as <- <-. auto.
    + intros ([H|H] & S & E); [left|right; tauto].
      subst. reflexivity.
  - rewrite IH. split; [tauto|].
    intros ([H|H] & S & E); [|tauto].
    subst. apply good_enough_similar in S. congruence.
Qed.

(** ** The order of strings *)

Lemma ascii_compare_lt_trans (a b c : ascii) :
  Ascii.compare a b = Lt -> Ascii.compare b c = Lt ->
  Ascii.compare a c = Lt.
Proof.
  unfold Ascii.compare. rewrite !N.compare_lt_iff. lia.
Qed.

Lemma string_compare_Eq_refl (s : string) : String.compare s s = Eq.
Proof.
  induction s as [|a s IH]; simpl; [reflexivity|].
  unfold Ascii.compare. rewrite N.compare_refl. exact IH.
Qed.

Lemma leb_trans (s1 s2 s3 : string) :
  String.leb s1 s2 = true -> String.leb s2 s3 = true ->
  String.leb s1 s3 = true.
Proof.
  unfold String.leb. revert s2 s3.
  induction s1 as [|a s1 IH]; intros [|b s2] [|c s3]; simpl; auto;
    try discriminate.
  destruct (Ascii.compare a b) eqn:AB; try discriminate;
    destruct (Ascii.compare b c) eqn:BC; try discriminate.
  - apply Ascii.compare_eq_iff in AB, BC. subst.
    unfold Ascii.compare. rewrite N.compare_refl. apply IH.
  - apply Ascii.compare_eq_iff in AB. subst. rewrite BC. auto.
  - apply Ascii.compare_eq_iff in BC. subst. rewrite AB. auto.
  - rewrite (ascii_compare_lt_trans _ _ _ AB BC). auto.
Qed.

Lemma leb_refl (s : string) : String.leb s s = true.
Proof. unfold String.leb. rewrite string_compare_Eq_refl. reflexivity. Qed.

Lemma ltb_leb (s1 s2 : string) :
  String.ltb s1 s2 = true -> String.leb s1 s2 = true.
Proof.
  unfold String.ltb, String.leb. destruct (String.compare s1 s2);
    congruence.
Qed.

Lemma ltb_false_leb (s1 s2 : string) :
  String.ltb s1 s2 = false -> String.leb s2 s1 = true.
Proof.
  unfold String.ltb, String.leb. rewrite (String.compare_antisym s2 s1).
  destruct (String.compare s1 s2); simpl; congruence.
Qed.

(** ** The order of the scored entries *)

Lemma scored_le_refl (p : Q * string) : scored_le p p.
Proof. right. split; [apply Qeq_refl|apply leb_refl]. Qed.

Lemma scored_le_trans (p q r : Q * string) :
  scored_le p q -> scored_le q r -> scored_le p r.
Proof.
  intros [H1|[E1 L1]] [H2|[E2 L2]].
  - left. eapply Qlt_trans; eauto.
  - left. rewrite <- E2. exact H1.
  - left. rewrite E1. exact H2.
  - right. split; [rewrite E1; exact E2|eapply leb_trans; eauto].
Qed.

Lemma scored_gt_true (p q : Q * string) :
  scored_gt p q = true -> scored_le q p.
Proof.
  unfold scored_gt. destruct (Qeq_bool (fst p) (fst q)) eqn:E.
  - apply Qeq_bool_iff in E. intros L. right. split.
    + symmetry. exact E.
    + apply ltb_leb, L.
  - intros L. left. apply negb_true_iff in L. apply Qnot_le_lt.
    intros H. apply Qle_bool_iff in H. congruence.
Qed.

Lemma scored_gt_false (p q : Q * string) :
  scored_gt p q = false -> scored_le p q.
Proof.
  unfold scored_gt. destruct (Qeq_bool (fst p) (fst q)) eqn:E.
  - apply Qeq_bool_iff in E. intros L. right. split; [exact E|].
    apply ltb_false_leb, L.
  - intros L. apply negb_false_iff, Qle_bool_iff in L.
    apply Qle_lteq in L. destruct L as [L|L]; [left; exact L|].
    apply Qeq_bool_iff in L. congruence.
Qed.

(** [max] returns an element that no element beats. *)
Lemma max_from_greatest (rest : list (Q * string)) (cur : Q * string) :
  In (max_from cur rest) (cur :: rest)
  /\ forall p, In p (cur :: rest) -> scored_le p (max_from cur rest).
Proof.
  revert cur. induction rest as [|p rest IH]; intros cur; cbn [max_from].
  - split; [left; reflexivity|]. intros p [<-|[]]. apply scored_le_refl.
  - destruct (IH (if scored_gt p cur then p else cur)) as [Hin Hmax].
    assert (Hc : scored_le cur (if scored_gt p cur then p else cur)).
    { destruct (scored_gt p cur) eqn:G;
        [apply scored_gt_true, G|apply scored_le_refl]. }
    assert (Hp : scored_le p (if scored_gt p cur then p else cur)).
    { destruct (scored_gt p cur) eqn:G;
        [apply scored_le_refl|apply scored_gt_false, G]. }
    split.
    + destruct Hin as [Hin|Hin]; [|right; right; exact Hin].
      rewrite <- Hin. destruct (scored_gt p cur); simpl; auto.
    + intros x [<-|[<-|Hx]].
      * eapply scored_le_trans; [exact Hc|]. apply Hmax. left. reflexivity.
      * eapply scored_le_trans; [exact Hp|]. apply Hmax. left. reflexivity.
      * apply Hmax. right. exact Hx.
Qed.

(** What [get_close_matches] returns with [n=1] and the cutoff of the
    program: nothing when no entry is similar, the best match otherwise. *)
Lemma get_close_matches1_spec (word : string) (names : list string) :
  match get_close_matches1 word names Main.cutoff with
  | [] => forall x, In x names -> ~ similar x word
  | [m] => best_match names word m
  | _ => False
  end.
Proof.
  unfold get_close_matches1, nlargest1.
  destruct (scored Main.cutoff word names) as [|p rest] eqn:S; simpl.
  - intros x Hx Hs.
    assert (H : In (similarity x word, x) (scored Main.cutoff word names)).
    { apply scored_In. simpl. auto. }
    rewrite S in H. exact H.
  - destruct (max_from_greatest rest p) as [Hin Hmax].
    rewrite <- S in Hin. apply scored_In in Hin.
    destruct Hin as (Hin & Hs & E).
    split; [exact Hin|]. split; [exact Hs|].
    intros x Hx Hsx. rewrite <- E.
    replace (fst (max_from p rest), snd (max_from p rest))
      with (max_from p rest) by (destruct (max_from p rest); reflexivity).
    apply Hmax. rewrite <- S. apply scored_In. simpl. auto.
Qed.

Lemma scored_le_antisym (p q : Q * string) :
  scored_le p q -> scored_le q p -> snd p = snd q.
Proof.
  intros [H1|[E1 L1]] [H2|[E2 L2]].
  - exfalso. apply (Qlt_irrefl (fst p)). eapply Qlt_trans; eauto.
  - exfalso. rewrite E2 in H1. apply (Qlt_irrefl _ H1).
  - exfalso. rewrite E1 in H2. apply (Qlt_irrefl _ H2).
  - apply String.leb_antisym; assumption.
Qed.

Lemma best_match_unique (names : list string) (word m m' : string) :
  best_match names word m -> best_match names word m' -> m = m'.
Proof.
  intros (I1 & S1 & B1) (I2 & S2 & B2).
  apply (scored_le_antisym (similarity m word, m) (similarity m' word, m')).
  - apply B2; assumption.
  - apply B1; assumption.
Qed.

End CloseMatches.

(** Claim C5, amended.  For every record whose name equals no registry
    entry: when some registry entry has similarity 0.8 or more to the name,
    a pending decision is added, and its suggested match is the one entry
    that is best by similarity and, among entries that tie for the best
    similarity, the greatest in the order of strings (not the earliest in
    the registry); when every entry is below 0.8, no decision is added and
    the record goes to the heuristic tiers. *)
Theorem C5_fuzzy_tier (names : list string) (pn : Z) (text : string)
  (c : Main.Categories) (q : list Main.Decision) (ls : list string) :
  Main.record_lines text = Some ls ->
  Py.mem (hd "" ls) names = false ->
  let name := hd "" ls in
  let decision m tp :=
    {| Main.page_num := pn + 1; Main.company_name := name;
       Main.close_match := m; Main.total_pages := tp;
       Main.lines := firstn 5 ls |} in
  let tier k2 :=
    if Py.contains "email" (Py.lower text) then Main.Dnm
    else if Main.any_state ls then k2 else Main.Foreign in
  ((exists x, In x names /\ Spec.similar x name) ->
   exists m,
     Spec.best_match names name m
     /\ (forall m', Spec.best_match names name m' -> m' = m)
     /\ Main.page_pymupdf names pn text (c, q)
        = (c, (q ++ [decision m (Main.total_pages_of text)])%list)
     /\ Main.page_pypdf2 names pn text (c, q)
        = (c, (q ++ [decision m 1])%list))
  /\ ((forall x, In x names -> ~ Spec.similar x name) ->
      Main.page_pymupdf names pn text (c, q)
      = (Main.extend
           (tier (if Main.total_pages_of text =? 1 then Main.NationalSingle
                  else Main.NationalMulti))
           (Py.range (pn + 1) (pn + 1 + Main.total_pages_of text)) c, q)
      /\ Main.page_pypdf2 names pn text (c, q)
         = (Main.extend (tier Main.NationalSingle) [pn + 1] c, q)).
Proof.
  intros R M name decision tier.
  pose proof (get_close_matches1_spec name names) as G.
  destruct (difflib.get_close_matches1 name names Main.cutoff)
    as [|m [|m2 l]] eqn:E.
  - split.
    + intros (x & Hx & Hs). exfalso. exact (G x Hx Hs).
    + intros _. split.
      * apply page_pymupdf_unmatched; assumption.
      * apply page_pypdf2_unmatched; assumption.
  - split.
    + intros _. exists m. split; [exact G|]. split.
      * intros m' Hm'. eapply best_match_unique; eauto.
      * unfold Main.page_pymupdf, Main.page_pypdf2.
        rewrite R, M. fold name. rewrite E. split; reflexivity.
    + intros H. exfalso. destruct G as (Hin & Hs & _).
      exact (H m Hin Hs).
  - contradiction.
Qed.

(** The fuzzy tier on the sample page, against the two tied entries. *)
Lemma C5_fuzzy_tier_witness :
  exists m,
    Spec.best_match Registry.twins "914.949.9618" m
    /\ Main.page_pymupdf Registry.twins 0 Sample.bare (Main.no_categories, [])
       = (Main.no_categories,
          [{| Main.page_num := 1; Main.company_name := "914.949.9618";
              Main.close_match := m; Main.total_pages := 1;
              Main.lines := ["914.949.9618"] |}]).
Proof.
  assert (R : Main.record_lines Sample.bare = Some ["914.949.9618"]) by run.
  destruct (C5_fuzzy_tier Registry.twins 0 Sample.bare Main.no_categories []
              _ R ltac:(run)) as [H _].
  destruct H as (m & Hb & _ & Hp & _).
  - exists "914.949.9618a". split; [left; reflexivity|].
    apply Qle_bool_iff. run.
  - exists m. split; [exact Hb|].
    rewrite Hp. f_equal.
Defined.

(** Claim C5 as stated fails on a tie: the two entries of the registry are
    at the same similarity (24/25) to the name, the first of them in the
    order of the registry ends in [a], and the decision proposes the one
    that ends in [b], in both backends. *)
Lemma C5_counterexample :
  Main.record_lines Sample.bare = Some ["914.949.9618"]
  /\ (Spec.similarity "914.949.9618a" "914.949.9618"
      == Spec.similarity "914.949.9618b" "914.949.9618")%Q
  /\ Spec.similar "914.949.9618a" "914.949.9618"
  /\ nth 0 Registry.twins "" = "914.949.9618a"
  /\ Main.process_statements_pypdf2 [Sample.bare] Registry.twins
     = (Main.no_categories,
        [{| Main.page_num := 1; Main.company_name := "914.949.9618";
            Main.close_match := "914.949.9618b"; Main.total_pages := 1;
            Main.lines := ["914.949.9618"] |}])
  /\ Main.process_statements_pymupdf 1 [Sample.bare] Registry.twins
     = Some (Main.no_categories,
             [{| Main.page_num := 1; Main.company_name := "914.949.9618";
                 Main.close_match := "914.949.9618b"; Main.total_pages := 1;
                 Main.lines := ["914.949.9618"] |}]).
Proof.
  split; [run|]. split; [run|].
  split; [apply Qle_bool_iff; run|].
  split; [reflexivity|]. split; run.
Qed.

(* ================================================================== *)
(** * The end of the scan *)
(* ================================================================== *)

(** Property X3.
    When every page declares one page or more, the scan of the PyMuPDF
    backend ends within as many turns as the document has pages. *)
Theorem pymupdf_scan_ends (doc names : list string) :
  (forall text, In text doc -> 1 <= Main.total_pages_of text) ->
  exists st,
    Main.process_statements_pymupdf (List.length doc) doc names = Some st.
Proof.
  intros H. unfold Main.process_statements_pymupdf.
  apply loop_pymupdf_ends; simpl; auto; lia.
Qed.

(** A document of two pages, the first declaring three. *)
Lemma pymupdf_scan_ends_witness :
  exists st,
    Main.process_statements_pymupdf 2 [Sample.springfield; Sample.bare] []
    = Some st.
Proof.
  apply (pymupdf_scan_ends [Sample.springfield; Sample.bare] []).
  intros text [<-|[<-|[]]]; vm_compute; discriminate.
Defined.

(* ================================================================== *)
(** * Stripped strings and the first line of a record *)
(* ================================================================== *)

Section Strips.
Import Py Spec Main.

Lemma lstrip_head (s : string) :
  lstrip s = ""
  \/ exists c r, lstrip s = String c r /\ isspace c = false.
Proof.
  induction s as [|c s IH]; simpl; [auto|].
  destruct (isspace c) eqn:E; [exact IH|]. right. eauto.
Qed.

Lemma lstrip_fixed (c : ascii) (r : string) :
  isspace c = false -> lstrip (String c r) = String c r.
Proof. intros E. simpl. rewrite E. reflexivity. Qed.

Lemma rstrip_cons (c : ascii) (r : string) :
  isspace c = false -> rstrip (String c r) = String c (rstrip r).
Proof.
  intros E. simpl. rewrite E. destruct (rstrip r); reflexivity.
Qed.

Lemma rstrip_idem (s : string) : rstrip (rstrip s) = rstrip s.
Proof.
  induction s as [|c s IH]; [reflexivity|].
  cbn [rstrip]. destruct (rstrip s) as [|d r] eqn:R.
  - destruct (isspace c) eqn:E; [reflexivity|].
    simpl. rewrite E. reflexivity.
  - cbn [rstrip]. cbn [rstrip] in IH. rewrite IH. reflexivity.
Qed.

(** Stripping twice is stripping once. *)
Lemma strip_idem (s : string) : strip (strip s) = strip s.
Proof.
  unfold strip. destruct (lstrip_head s) as [E|(c & r & E & Hc)].
  - rewrite E. reflexivity.
  - rewrite E, (rstrip_cons c r Hc), (lstrip_fixed c _ Hc).
    rewrite (rstrip_cons c _ Hc), rstrip_idem. reflexivity.
Qed.

(** Every line of a record is a stripped line that is not empty. *)
Lemma stripped_lines_trimmed (text : string) (s e : Z) (l : string) :
  In l (stripped_lines text s e) -> l <> "" /\ strip l = l.
Proof.
  unfold stripped_lines. intros H. apply in_map_iff in H.
  destruct H as (line & <- & H). apply filter_In in H.
  destruct H as [_ H]. apply negb_true_iff, String.eqb_neq in H.
  split; [exact H|apply strip_idem].
Qed.

End Strips.

Section MarkerPrefix.
Import Py Spec Main.

Lemma substring_skip (pre x : string) (n : nat) :
  substring (String.length pre) n (pre ++ x) = substring 0 n x.
Proof. induction pre as [|c pre IH]; simpl; auto. Qed.

Lemma substring_prefix (m post : string) (n : nat) :
  (String.length m <= n)%nat ->
  substring 0 n (m ++ post) = m ++ substring 0 (n - String.length m) post.
Proof.
  revert n. induction m as [|c m IH]; intros n H; simpl in *.
  - rewrite Nat.sub_0_r. reflexivity.
  - destruct n as [|n]; [lia|]. simpl. rewrite IH by lia. reflexivity.
Qed.

Lemma get_In (m : string) (k : nat) (c : ascii) :
  String.get k m = Some c -> In c (list_ascii_of_string m).
Proof.
  revert k. induction m as [|a m IH]; intros k; simpl; [discriminate|].
  destruct k as [|k].
  - intros H. injection H as ->. auto.
  - intros H. right. eapply IH; eauto.
Qed.

Lemma get_Some (m : string) (k : nat) :
  (k < String.length m)%nat -> exists c, String.get k m = Some c.
Proof.
  revert k. induction m as [|a m IH]; intros k H; simpl in *; [lia|].
  destruct k as [|k]; [eauto|]. apply IH. lia.
Qed.

Lemma occurs_at_get (m text : string) (i k : nat) :
  occurs_at m text i -> (k < String.length m)%nat ->
  String.get k m = String.get (k + i) text.
Proof.
  unfold occurs_at. intros H Hk. rewrite <- H at 1.
  apply substring_correct1. exact Hk.
Qed.

Lemma start_markers_chars (m : string) :
  In m start_markers ->
  Forall (fun c => marker_char c = true) (list_ascii_of_string m).
Proof.
  intros H. apply Forall_forall. apply forallb_forall.
  revert H. unfold start_markers. simpl.
  intros [<-|[<-|[<-|[<-|[]]]]]; vm_compute; reflexivity.
Qed.

(** The end marker cannot start inside an occurrence of a start marker. *)
Lemma end_after_marker (m text : string) (i j : nat) :
  In m start_markers -> occurs_at m text i ->
  occurs_at end_marker text j -> (i < j)%nat ->
  (i + String.length m <= j)%nat.
Proof.
  intros Hm Hi Hj Hlt.
  destruct (Nat.le_gt_cases (i + String.length m) j) as [H|H]; [exact H|].
  exfalso.
  assert (Hk : (j - i < String.length m)%nat) by lia.
  pose proof (occurs_at_get m text i (j - i) Hi Hk) as E1.
  replace (j - i + i)%nat with j in E1 by lia.
  assert (H0 : (0 < String.length end_marker)%nat) by (simpl; lia).
  pose proof (occurs_at_get end_marker text j 0 Hj H0) as E2.
  simpl in E2. rewrite <- E1 in E2. symmetry in E2.
  apply get_In in E2.
  pose proof (start_markers_chars m Hm) as F. rewrite Forall_forall in F.
  specialize (F _ E2). vm_compute in F. discriminate.
Qed.

Lemma rstrip_prefix (m r : string) :
  Forall (fun c => marker_char c = true) (list_ascii_of_string m) ->
  rstrip (m ++ r) = m ++ rstrip r.
Proof.
  induction m as [|c m IH]; intros F; [reflexivity|].
  inversion F as [|? ? Hc Hm]; subst.
  unfold marker_char in Hc. apply andb_true_iff in Hc.
  destruct Hc as [Hc _]. apply andb_true_iff in Hc. destruct Hc as [_ Hc].
  apply negb_true_iff in Hc.
  change (String c m ++ r) with (String c (m ++ r)).
  rewrite (rstrip_cons c _ Hc), (IH Hm). reflexivity.
Qed.

Lemma strip_prefix (m r : string) :
  m <> "" ->
  Forall (fun c => marker_char c = true) (list_ascii_of_string m) ->
  strip (m ++ r) = m ++ rstrip r.
Proof.
  intros Hne F. unfold strip.
  destruct m as [|c m]; [congruence|].
  assert (Hc : isspace c = false).
  { inversion F as [|? ? Hc _]; subst. unfold marker_char in Hc.
    apply andb_true_iff in Hc. destruct Hc as [Hc _].
    apply andb_true_iff in Hc. destruct Hc as [_ Hc].
    apply negb_true_iff in Hc. exact Hc. }
  change (String c m ++ r) with (String c (m ++ r)).
  rewrite (lstrip_fixed c _ Hc).
  change (String c (m ++ r)) with (String c m ++ r).
  apply rstrip_prefix, F.
Qed.

(** The first line of a text that starts with a start marker starts with
    it. *)
Lemma splitlines_prefix (m r : string) :
  m <> "" ->
  Forall (fun c => marker_char c = true) (list_ascii_of_string m) ->
  exists l ls, splitlines (m ++ r) = (m ++ l) :: ls.
Proof.
  unfold splitlines.
  induction m as [|c m IH]; intros Hne F; [congruence|].
  inversion F as [|? ? Hc Hm]; subst.
  assert (Hb : islinebreak c = false).
  { unfold marker_char in Hc. apply andb_true_iff in Hc.
    destruct Hc as [_ Hc]. apply negb_true_iff in Hc. exact Hc. }
  change (String c m ++ r) with (String c (m ++ r)).
  cbn [splitlines_from andb]. rewrite Hb.
  destruct m as [|d m].
  - simpl. destruct (splitlines_from false r) as [|l ls].
    + exists "", []. reflexivity.
    + exists l, ls. reflexivity.
  - destruct (IH ltac:(discriminate) Hm) as (l & ls & E). rewrite E.
    exists l, ls. reflexivity.
Qed.

(** The entity name of a detected record starts with a start marker: the
    text taken for the record starts at the marker, not after it. *)
Lemma record_lines_marker (text : string) (ls : list string) :
  record_lines text = Some ls ->
  exists m rest, In m start_markers /\ hd "" ls = m ++ rest.
Proof.
  intros R. apply record_lines_some in R.
  destruct R as (i & j & [(m & Hm & Hi) _] & [Hj _] & Hlt & L & _).
  pose proof (end_after_marker m text i j Hm Hi Hj Hlt) as Hlen.
  pose proof (start_markers_chars m Hm) as F.
  pose proof (marker_nonempty m Hm) as Hne.
  exists m. subst ls. unfold stripped_lines, slice.
  rewrite Nat2Z.id.
  replace (Z.to_nat (Z.of_nat j - Z.of_nat i)) with (j - i)%nat by lia.
  apply (occurs_at_split m text i Hne) in Hi.
  destruct Hi as (pre & post & -> & <-).
  rewrite substring_skip, substring_prefix by lia.
  rewrite (strip_prefix m _ Hne F).
  destruct (splitlines_prefix m (rstrip (substring 0
              (j - String.length pre - String.length m) post)) Hne F)
    as (l & rest & E).
  rewrite E. cbn [filter]. rewrite (strip_prefix m l Hne F).
  assert (N : negb (String.eqb (m ++ rstrip l) "") = true).
  { apply negb_true_iff, String.eqb_neq. destruct m; [congruence|].
    discriminate. }
  rewrite N. cbn [map hd]. rewrite (strip_prefix m l Hne F).
  exists (rstrip l). split; [exact Hm|reflexivity].
Qed.

End MarkerPrefix.

(* ================================================================== *)
(** * The boundary extractor, in the words of the specification *)
(* ================================================================== *)

Section Extractor.
Import Py Spec Main.

Lemma slice_between (text : string) (i j : nat) :
  slice text (Z.of_nat i) (Z.of_nat j) = body_between text i j.
Proof.
  unfold slice, body_between. rewrite Nat2Z.id.
  replace (Z.to_nat (Z.of_nat j - Z.of_nat i)) with (j - i)%nat by lia.
  reflexivity.
Qed.

Lemma map_filter_swap {A B : Type} (f : A -> B) (p : B -> bool)
  (l : list A) :
  map f (filter (fun x => p (f x)) l) = filter p (map f l).
Proof.
  induction l as [|x l IH]; simpl; [reflexivity|].
  destruct (p (f x)); simpl; rewrite IH; reflexivity.
Qed.

(** The lines that the scan takes are the lines of the specification. *)
Lemma stripped_lines_spec (text : string) (i j : nat) :
  stripped_lines text (Z.of_nat i) (Z.of_nat j)
  = nonempty_stripped_lines (body_between text i j).
Proof.
  unfold stripped_lines, nonempty_stripped_lines.
  rewrite slice_between.
  apply (map_filter_swap strip (fun l => negb (String.eqb l ""))).
Qed.

(** The text between a start marker and the end marker starts with the
    marker, so it has a line that is not empty. *)
Lemma stripped_lines_start (m text : string) (i j : nat) :
  In m start_markers -> occurs_at m text i ->
  occurs_at end_marker text j -> (i < j)%nat ->
  exists rest tl,
    stripped_lines text (Z.of_nat i) (Z.of_nat j) = (m ++ rest) :: tl.
Proof.
  intros Hm Hi Hj Hlt.
  pose proof (end_after_marker m text i j Hm Hi Hj Hlt) as Hlen.
  pose proof (start_markers_chars m Hm) as F.
  pose proof (marker_nonempty m Hm) as Hne.
  unfold stripped_lines, slice. rewrite Nat2Z.id.
  replace (Z.to_nat (Z.of_nat j - Z.of_nat i)) with (j - i)%nat by lia.
  apply (occurs_at_split m text i Hne) in Hi.
  destruct Hi as (pre & post & -> & <-).
  rewrite substring_skip, substring_prefix by lia.
  rewrite (strip_prefix m _ Hne F).
  destruct (splitlines_prefix m (rstrip (substring 0
              (j - String.length pre - String.length m) post)) Hne F)
    as (l & rest & E).
  rewrite E. cbn [filter]. rewrite (strip_prefix m l Hne F).
  assert (N : negb (String.eqb (m ++ rstrip l) "") = true).
  { apply negb_true_iff, String.eqb_neq. destruct m; [congruence|].
    discriminate. }
  rewrite N. cbn [map]. rewrite (strip_prefix m l Hne F).
  eexists _, _. reflexivity.
Qed.

Lemma page_pymupdf_run_cases (names : list string) (pn : Z)
  (text : string) (st : State) :
  page_pymupdf_run names pn text st
  = match total_pages_run text with
    | Some _ => Some (page_pymupdf names pn text st)
    | None => None
    end.
Proof. reflexivity. Qed.

End Extractor.

(** Claim C6 fails on the code, on a page whose number of pages cannot be
    computed.  The page text of [Sample.long_total] has no marker, so it
    holds no record; the line before the markers are looked for raises
    [ValueError] on its 4301 digits, and the page is not passed over without
    an error.  Everything else the claim says holds, for every page text.
    A record is detected exactly when some start marker occurs, the end
    marker occurs, the lowest position [i] of a start marker is strictly
    before the first position [j] of the end marker, and the stripped text
    between them, split into the lines that are not empty once stripped,
    gives a list of lines that is not empty; the lines of the record are
    that list.  The last condition follows from the others, since the text
    between the positions starts with the marker.  The entity name is the
    first line that is not empty once stripped, and it is the name that a
    decision added for the page carries.  A page with no record leaves the
    categories and the pending decisions as they were, whenever its number
    of pages was computed. *)
Theorem C6_boundary_extractor :
  (Main.record_lines Sample.long_total = None
   /\ forall names pn st,
       Main.page_pymupdf_run names pn Sample.long_total st = None)
  /\ (forall text ls,
        Main.record_lines text = Some ls <->
        exists i j,
          Spec.min_start text i
          /\ Spec.first_occurrence Main.end_marker text j
          /\ (i < j)%nat
          /\ Spec.nonempty_stripped_lines (Spec.body_between text i j) = ls
          /\ ls <> [])
  /\ (forall text i j,
        Spec.min_start text i ->
        Spec.first_occurrence Main.end_marker text j ->
        (i < j)%nat ->
        Spec.nonempty_stripped_lines (Spec.body_between text i j) <> []
        /\ Main.record_lines text
           = Some (Spec.nonempty_stripped_lines
                     (Spec.body_between text i j)))
  /\ (forall text ls,
        Main.record_lines text = Some ls ->
        (exists i j,
            Spec.min_start text i
            /\ Spec.first_occurrence Main.end_marker text j
            /\ Spec.first_nonempty_stripped
                 (Py.splitlines (Py.strip (Spec.body_between text i j)))
                 (hd "" ls))
        /\ forall names pn c q st',
            Main.page_pymupdf_run names pn text (c, q) = Some st' ->
            snd st' = q
            \/ exists d,
                snd st' = (q ++ [d])%list
                /\ Main.company_name d = hd "" ls)
  /\ (forall text names pn st,
        Main.record_lines text = None ->
        Main.page_pymupdf_run names pn text st
        = match Main.total_pages_run text with
          | Some _ => Some st
          | None => None
          end).
Proof.
  assert (Spec1 : forall text ls,
             Main.record_lines text = Some ls <->
             exists i j,
               Spec.min_start text i
               /\ Spec.first_occurrence Main.end_marker text j
               /\ (i < j)%nat
               /\ Spec.nonempty_stripped_lines (Spec.body_between text i j)
                  = ls
               /\ ls <> []).
  { intros text ls. rewrite record_lines_some. split.
    - intros (i & j & Hi & Hj & Hlt & L & Hne). exists i, j.
      rewrite <- stripped_lines_spec. auto.
    - intros (i & j & Hi & Hj & Hlt & L & Hne). exists i, j.
      rewrite stripped_lines_spec. auto. }
  split; [|split; [exact Spec1|split; [|split]]].
  - assert (T : Main.total_pages_run Sample.long_total = None) by run.
    split; [run|]. intros names pn st.
    rewrite page_pymupdf_run_cases, T. reflexivity.
  - intros text i j Hi Hj Hlt.
    assert (Hne : Spec.nonempty_stripped_lines (Spec.body_between text i j)
                  <> []).
    { destruct Hi as [(m & Hm & Hi) _]. destruct Hj as [Hj' _].
      destruct (stripped_lines_start m text i j Hm Hi Hj' Hlt)
        as (rest & tl & E).
      rewrite <- stripped_lines_spec, E. discriminate. }
    split; [exact Hne|]. apply Spec1. exists i, j. auto.
  - intros text ls R. split.
    + pose proof R as R'. apply record_lines_some in R'.
      destruct R' as (i & j & Hi & Hj & Hlt & L & Hne).
      exists i, j. split; [exact Hi|]. split; [exact Hj|].
      rewrite <- slice_between. eapply stripped_lines_head; eauto.
    + intros names pn c q st' P. rewrite page_pymupdf_run_cases in P.
      destruct (Main.total_pages_run text); [|discriminate].
      injection P as <-.
      apply (page_pymupdf_pending names pn text c q _ ls R eq_refl).
  - intros text names pn st R. rewrite page_pymupdf_run_cases.
    rewrite (page_pymupdf_no_record names pn text st R). reflexivity.
Qed.

(* ================================================================== *)
(** * What the scan assigns *)
(* ================================================================== *)

Section Assigned.
Import Py Spec Main.

Lemma range_one (lo : Z) : range lo (lo + 1) = [lo].
Proof.
  unfold range. replace (lo + 1 - lo) with 1 by lia. simpl.
  f_equal. lia.
Qed.

Lemma range_In (lo hi p : Z) : In p (range lo hi) <-> lo <= p < hi.
Proof.
  unfold range. rewrite in_map_iff. split.
  - intros (i & <- & H). apply in_seq in H. lia.
  - intros H. exists (Z.to_nat (p - lo)). split; [lia|].
    apply in_seq. lia.
Qed.

Lemma range_NoDup (lo hi : Z) : NoDup (range lo hi).
Proof.
  unfold range. apply Finite.Injective_map_NoDup.
  - intros x y H. lia.
  - apply seq_NoDup.
Qed.

Lemma count_assigned_extend (k : Key) (pages : list Z) (c : Categories)
  (q : list Decision) (p : Z) :
  count_occ Z.eq_dec (assigned (extend k pages c, q)) p
  = (count_occ Z.eq_dec (assigned (c, q)) p
     + count_occ Z.eq_dec pages p)%nat.
Proof.
  unfold assigned. destruct k; simpl; rewrite !count_occ_app; lia.
Qed.

Lemma count_assigned_pending (c : Categories) (q : list Decision)
  (d : Decision) (p : Z) :
  count_occ Z.eq_dec (assigned (c, (q ++ [d])%list)) p
  = (count_occ Z.eq_dec (assigned (c, q)) p
     + count_occ Z.eq_dec (decision_pages d) p)%nat.
Proof.
  unfold assigned. cbn [fst snd]. rewrite flat_map_app. cbn [flat_map].
  rewrite !count_occ_app. cbn [count_occ]. lia.
Qed.

(** The scan of a page adds the pages of its record, once, and no other. *)
Lemma count_page_pypdf2 (names : list string) (pn : Z) (text : string)
  (st : State) (p : Z) :
  count_occ Z.eq_dec (assigned (page_pypdf2 names pn text st)) p
  = (count_occ Z.eq_dec (assigned st) p
     + count_occ Z.eq_dec
         (match record_lines text with
          | Some _ => [(pn + 1)%Z]
          | None => []
          end) p)%nat.
Proof.
  destruct st as [c q]. unfold page_pypdf2.
  destruct (record_lines text) as [ls|]; [|simpl; lia].
  destruct (mem (hd "" ls) names); [apply count_assigned_extend|].
  destruct (difflib.get_close_matches1 (hd "" ls) names cutoff) as [|m l].
  - destruct (contains "email" (lower text));
      [apply count_assigned_extend|].
    destruct (any_state ls); apply count_assigned_extend.
  - rewrite count_assigned_pending. unfold decision_pages. simpl.
    rewrite range_one. reflexivity.
Qed.

Lemma count_page_pymupdf (names : list string) (pn : Z) (text : string)
  (st : State) (p : Z) :
  count_occ Z.eq_dec (assigned (page_pymupdf names pn text st)) p
  = (count_occ Z.eq_dec (assigned st) p
     + count_occ Z.eq_dec
         (match record_lines text with
          | Some _ => range (pn + 1) (pn + 1 + total_pages_of text)
          | None => []
          end) p)%nat.
Proof.
  destruct st as [c q]. unfold page_pymupdf.
  destruct (record_lines text) as [ls|]; [|simpl; lia].
  destruct (mem (hd "" ls) names); [apply count_assigned_extend|].
  destruct (difflib.get_close_matches1 (hd "" ls) names cutoff) as [|m l].
  - destruct (contains "email" (lower text));
      [apply count_assigned_extend|].
    destruct (any_state ls); [|apply count_assigned_extend].
    destruct (total_pages_of text =? 1); apply count_assigned_extend.
  - rewrite count_assigned_pending. reflexivity.
Qed.

Lemma record_lines_nonempty (text : string) (ls : list string) :
  record_lines text = Some ls -> ls <> [].
Proof.
  intros R. apply record_lines_some in R.
  destruct R as (i & j & _ & _ & _ & _ & H). exact H.
Qed.

Lemma sound_decision_intro (names : list string) (ls : list string)
  (m : string) (pn tp : Z) :
  ls <> [] -> mem (hd "" ls) names = false ->
  best_match names (hd "" ls) m ->
  sound_decision names
    {| page_num := pn; company_name := hd "" ls; close_match := m;
       total_pages := tp; lines := firstn 5 ls |}.
Proof.
  intros Hne M (Hin & Hs & _). unfold sound_decision.
  cbn [page_num company_name close_match total_pages lines].
  split; [exact M|]. split; [exact Hin|]. split; [exact Hs|].
  destruct ls as [|l0 ls]; [congruence|]. split; [reflexivity|].
  change (firstn 5 (l0 :: ls)) with (l0 :: firstn 4 ls).
  cbn [List.length]. pose proof (firstn_le_length 4 ls). lia.
Qed.

(** The decision that the scan of a page adds, if any, is sound and
    carries the number of the page. *)
Lemma pending_page_pypdf2 (names : list string) (pn : Z) (text : string)
  (c : Categories) (q : list Decision) :
  snd (page_pypdf2 names pn text (c, q)) = q
  \/ exists d,
      snd (page_pypdf2 names pn text (c, q)) = (q ++ [d])%list
      /\ sound_decision names d /\ page_num d = pn + 1
      /\ total_pages d = 1.
Proof.
  unfold page_pypdf2. destruct (record_lines text) as [ls|] eqn:R; [|auto].
  destruct (mem (hd "" ls) names) eqn:M; [auto|].
  pose proof (get_close_matches1_spec (hd "" ls) names) as G.
  destruct (difflib.get_close_matches1 (hd "" ls) names cutoff)
    as [|m [|m2 l]]; [| |contradiction].
  - destruct (contains "email" (lower text)); [auto|].
    destruct (any_state ls); auto.
  - right. eexists. split; [reflexivity|].
    split; [|split; reflexivity].
    apply sound_decision_intro; auto.
    eapply record_lines_nonempty; eauto.
Qed.

Lemma pending_page_pymupdf (names : list string) (pn : Z) (text : string)
  (c : Categories) (q : list Decision) :
  snd (page_pymupdf names pn text (c, q)) = q
  \/ exists d,
      snd (page_pymupdf names pn text (c, q)) = (q ++ [d])%list
      /\ sound_decision names d /\ page_num d = pn + 1
      /\ total_pages d = total_pages_of text.
Proof.
  unfold page_pymupdf. destruct (record_lines text) as [ls|] eqn:R; [|auto].
  destruct (mem (hd "" ls) names) eqn:M; [auto|].
  pose proof (get_close_matches1_spec (hd "" ls) names) as G.
  destruct (difflib.get_close_matches1 (hd "" ls) names cutoff)
    as [|m [|m2 l]]; [| |contradiction].
  - destruct (contains "email" (lower text)); [auto|].
    destruct (any_state ls); [|auto].
    destruct (total_pages_of text =? 1); auto.
  - right. eexists. split; [reflexivity|].
    split; [|split; reflexivity].
    apply sound_decision_intro; auto.
    eapply record_lines_nonempty; eauto.
Qed.

End Assigned.

Lemma total_pages_of_nonneg (text : string) :
  0 <= Main.total_pages_of text.
Proof.
  unfold Main.total_pages_of.
  destruct (Main.page_match text) as [[g1 g2]|]; [apply int_nonneg|lia].
Qed.

Section ScanInvariant.
Import Py Spec Main.

Variable names : list string.

Lemma count_le_one_NoDup (l : list Z) :
  NoDup l <-> forall p, (count_occ Z.eq_dec l p <= 1)%nat.
Proof. apply NoDup_count_occ. Qed.

Lemma scanned_start : scanned names 0 (no_categories, []).
Proof.
  unfold scanned, assigned. simpl. repeat split; constructor.
Qed.

Lemma scanned_more (pn pn' : Z) (st : State) :
  pn <= pn' -> scanned names pn st -> scanned names pn' st.
Proof.
  intros H (H1 & H2 & H3 & H4). repeat split; auto.
  - eapply Forall_impl; [|exact H2]. simpl. intros. lia.
  - eapply Forall_impl; [|exact H3]. simpl. intros d [Hs Hd].
    split; [exact Hs|lia].
Qed.

Lemma StronglySorted_snoc (l : list Z) (x : Z) :
  StronglySorted Z.lt l -> Forall (fun y => y < x) l ->
  StronglySorted Z.lt (l ++ [x]).
Proof.
  induction 1 as [|y l Hs IH Hall]; intros F; simpl.
  - repeat constructor.
  - inversion F as [|? ? Hy Hl]; subst. constructor; [apply IH, Hl|].
    apply Forall_app. split; [exact Hall|]. constructor; [exact Hy|].
    constructor.
Qed.

(** One page keeps the invariant: its record takes the [tp] pages after
    [pn], which no earlier record holds. *)
Lemma scanned_step (pn tp : Z) (st st' : State) :
  0 <= pn -> 1 <= tp ->
  scanned names pn st ->
  (forall p,
      count_occ Z.eq_dec (assigned st') p
      = (count_occ Z.eq_dec (assigned st) p
         + count_occ Z.eq_dec (range (pn + 1) (pn + 1 + tp)) p)%nat
      \/ count_occ Z.eq_dec (assigned st') p
         = count_occ Z.eq_dec (assigned st) p) ->
  (snd st' = snd st
   \/ exists d, snd st' = (snd st ++ [d])%list
                /\ sound_decision names d /\ page_num d = pn + 1) ->
  scanned names (pn + tp) st'.
Proof.
  intros Hpn Htp (H1 & H2 & H3 & H4) Hc Hq.
  rewrite Forall_forall in H2.
  assert (Hin : forall p, In p (assigned st') ->
                          In p (assigned st) \/ pn + 1 <= p < pn + 1 + tp).
  { intros p Hp. apply (count_occ_In Z.eq_dec) in Hp.
    destruct (Hc p) as [E|E]; rewrite E in Hp.
    - destruct (in_dec Z.eq_dec p (assigned st)) as [I|I]; [auto|].
      right. apply range_In. apply (count_occ_In Z.eq_dec).
      apply (count_occ_not_In Z.eq_dec) in I. lia.
    - left. apply (count_occ_In Z.eq_dec). exact Hp. }
  repeat split.
  - apply count_le_one_NoDup. intros p.
    pose proof (proj1 (count_le_one_NoDup _) H1 p) as Ho.
    destruct (Hc p) as [E|E]; rewrite E; [|exact Ho].
    pose proof (proj1 (count_le_one_NoDup _) (range_NoDup (pn + 1)
                  (pn + 1 + tp)) p) as Hr.
    destruct (in_dec Z.eq_dec p (assigned st)) as [I|I].
    + specialize (H2 _ I).
      assert (N : ~ In p (range (pn + 1) (pn + 1 + tp))).
      { rewrite range_In. lia. }
      apply (count_occ_not_In Z.eq_dec) in N. lia.
    + apply (count_occ_not_In Z.eq_dec) in I. lia.
  - apply Forall_forall. intros p Hp. destruct (Hin p Hp) as [I|I].
    + specialize (H2 _ I). lia.
    + lia.
  - destruct Hq as [E|(d & E & Hs & Hd)]; rewrite E.
    + eapply Forall_impl; [|exact H3]. simpl. intros d [Hs Hd].
      split; [exact Hs|lia].
    + apply Forall_app. split.
      * eapply Forall_impl; [|exact H3]. simpl. intros d' [Hs' Hd'].
        split; [exact Hs'|lia].
      * constructor; [|constructor]. split; [exact Hs|lia].
  - destruct Hq as [E|(d & E & Hs & Hd)]; rewrite E; [exact H4|].
    rewrite map_app. simpl. apply StronglySorted_snoc; [exact H4|].
    apply Forall_forall. intros y Hy. apply in_map_iff in Hy.
    destruct Hy as (d' & <- & Hd').
    rewrite Forall_forall in H3. destruct (H3 _ Hd') as [_ Hb]. lia.
Qed.

Lemma scanned_page_pypdf2 (pn : Z) (text : string) (st : State) :
  0 <= pn -> scanned names pn st ->
  scanned names (pn + 1) (page_pypdf2 names pn text st).
Proof.
  intros Hpn H. apply (scanned_step pn 1 st); auto; [lia| |].
  - intros p. rewrite count_page_pypdf2.
    destruct (record_lines text); [left|right; simpl; lia].
    replace (pn + 1 + 1) with ((pn + 1) + 1) by lia.
    rewrite range_one. reflexivity.
  - destruct st as [c q].
    destruct (pending_page_pypdf2 names pn text c q)
      as [E|(d & E & Hs & Hd & _)]; [left; exact E|].
    right. exists d. auto.
Qed.

Lemma scanned_page_pymupdf (pn : Z) (text : string) (st : State) :
  0 <= pn -> 1 <= total_pages_of text -> scanned names pn st ->
  scanned names (pn + total_pages_of text) (page_pymupdf names pn text st).
Proof.
  intros Hpn Htp H. apply (scanned_step pn (total_pages_of text) st); auto.
  - intros p. rewrite count_page_pymupdf.
    destruct (record_lines text); [left; reflexivity|right; simpl; lia].
  - destruct st as [c q].
    destruct (pending_page_pymupdf names pn text c q)
      as [E|(d & E & Hs & Hd & _)]; [left; exact E|].
    right. exists d. auto.
Qed.

(** The scan of the PyPDF2 backend keeps the invariant page after page. *)
Lemma scanned_fold_pypdf2 (l : list string) (lo : nat) (st : State) :
  scanned names (Z.of_nat lo) st ->
  scanned names (Z.of_nat (lo + List.length l))
    (fold_left (fun st p => page_pypdf2 names (fst p) (snd p) st)
               (combine (map Z.of_nat (seq lo (List.length l))) l) st).
Proof.
  revert lo st. induction l as [|x l IH]; intros lo st H; simpl.
  - rewrite Nat.add_0_r. exact H.
  - replace (lo + S (List.length l))%nat with (S lo + List.length l)%nat
      by lia.
    apply IH. replace (Z.of_nat (S lo)) with (Z.of_nat lo + 1) by lia.
    apply scanned_page_pypdf2; [lia|exact H].
Qed.

Lemma advance_total (text : string) (pn : Z) :
  advance text pn = pn + total_pages_of text.
Proof.
  unfold advance, total_pages_of. destruct (page_match text) as [[g1 g2]|];
    reflexivity.
Qed.

(** A page that declares a total of zero pages holds the loop for ever. *)
Lemma loop_pymupdf_zero (doc : list string) (pn : Z) :
  0 <= pn < Z.of_nat (List.length doc) ->
  total_pages_of (get_text doc pn) = 0 ->
  forall fuel st, loop_pymupdf fuel doc names (pn, st) = None.
Proof.
  intros Hpn Hz fuel. induction fuel as [|fuel IH]; intros st;
    cbn [loop_pymupdf fst]; destruct (Z.ltb_spec pn (Z.of_nat (List.length doc)));
    try lia; [reflexivity|].
  unfold turn_pymupdf. cbn [fst snd]. rewrite advance_total, Hz, Z.add_0_r.
  apply IH.
Qed.

(** The loop of the PyMuPDF backend keeps the invariant up to its end. *)
Lemma scanned_loop_pymupdf (doc : list string) (fuel : nat) (s : Z * State)
  (st : State) :
  loop_pymupdf fuel doc names s = Some st ->
  0 <= fst s -> scanned names (fst s) (snd s) ->
  exists pn, fst s <= pn /\ scanned names pn st.
Proof.
  revert s. induction fuel as [|fuel IH]; intros [pn st0] L Hpn H;
    cbn [loop_pymupdf fst snd] in *;
    destruct (Z.ltb_spec pn (Z.of_nat (List.length doc))) as [Hlt|Hge];
    try discriminate.
  - injection L as <-. exists pn. split; [lia|exact H].
  - pose proof (total_pages_of_nonneg (get_text doc pn)) as Htp.
    destruct (Z.eq_dec (total_pages_of (get_text doc pn)) 0) as [Z0|NZ].
    + unfold turn_pymupdf in L. cbn [fst snd] in L.
      rewrite advance_total, Z0, Z.add_0_r in L.
      rewrite loop_pymupdf_zero in L by (auto; lia). discriminate.
    + apply IH in L.
      * destruct L as (pn' & Hle & Hs). exists pn'.
        unfold turn_pymupdf in Hle. cbn [fst snd] in Hle.
        rewrite advance_total in Hle. split; [lia|exact Hs].
      * unfold turn_pymupdf. cbn [fst]. rewrite advance_total. lia.
      * unfold turn_pymupdf. cbn [fst snd]. rewrite advance_total.
        apply scanned_page_pymupdf; [lia|lia|exact H].
  - injection L as <-. exists pn. split; [lia|exact H].
Qed.

End ScanInvariant.

Section ScanPages.
Import Py Spec Main.

Variable names : list string.

Lemma count_fold_pypdf2 (ps : list (Z * string)) (st : State) (p : Z) :
  count_occ Z.eq_dec
    (assigned
       (fold_left (fun st p => page_pypdf2 names (fst p) (snd p) st) ps st))
    p
  = (count_occ Z.eq_dec (assigned st) p
     + count_occ Z.eq_dec (flat_map record_page ps) p)%nat.
Proof.
  revert st. induction ps as [|[pn text] ps IH]; intros st; simpl.
  - lia.
  - rewrite IH, count_page_pypdf2, count_occ_app. unfold record_page.
    simpl. lia.
Qed.

Lemma record_pages_In (doc : list string) (p : Z) :
  In p (flat_map record_page (enumerate doc)) <->
  exists pn,
    0 <= pn < Z.of_nat (List.length doc) /\ p = pn + 1
    /\ record_lines (get_text doc pn) <> None.
Proof.
  rewrite <- range_enumerate, in_flat_map. split.
  - intros ([pn text] & Hin & Hp). apply in_map_iff in Hin.
    destruct Hin as (pn' & E & Hr). injection E as -> <-.
    apply range_In in Hr. unfold record_page in Hp. simpl in Hp.
    exists pn. split; [lia|].
    destruct (record_lines (get_text doc pn)); [|contradiction].
    destruct Hp as [<-|[]]. split; [reflexivity|discriminate].
  - intros (pn & Hr & -> & Hrec). exists (pn, get_text doc pn). split.
    + apply in_map_iff. exists pn. split; [reflexivity|].
      apply range_In. lia.
    + unfold record_page. simpl.
      destruct (record_lines (get_text doc pn)); [left; reflexivity|].
      congruence.
Qed.

(** With every page declaring one page, a turn of the PyMuPDF loop is the
    body of the PyPDF2 loop. *)
Lemma page_pymupdf_single (pn : Z) (text : string) (st : State) :
  total_pages_of text = 1 ->
  page_pymupdf names pn text st = page_pypdf2 names pn text st.
Proof.
  intros T. destruct st as [c q]. unfold page_pymupdf, page_pypdf2.
  rewrite T. replace (pn + 1 + 1) with ((pn + 1) + 1) by lia.
  rewrite range_one. reflexivity.
Qed.

Lemma loop_pymupdf_single (l pre : list string) (st : State) (fuel : nat) :
  (List.length l <= fuel)%nat ->
  (forall text, In text l -> total_pages_of text = 1) ->
  loop_pymupdf fuel (pre ++ l) names (Z.of_nat (List.length pre), st)
  = Some (fold_left (fun st p => page_pypdf2 names (fst p) (snd p) st)
            (combine (map Z.of_nat (seq (List.length pre) (List.length l))) l)
            st).
Proof.
  revert pre st fuel. induction l as [|x l IH]; intros pre st fuel Hf Ht.
  - rewrite app_nil_r. simpl.
    destruct fuel; cbn [loop_pymupdf fst snd];
      rewrite Z.ltb_irrefl; reflexivity.
  - destruct fuel as [|fuel]; [simpl in Hf; lia|].
    cbn [loop_pymupdf fst].
    replace (Z.of_nat (List.length pre)
             <? Z.of_nat (List.length (pre ++ x :: l))) with true
      by (symmetry; apply Z.ltb_lt; rewrite length_app; simpl; lia).
    unfold turn_pymupdf. cbn [fst snd].
    assert (G : get_text (pre ++ x :: l) (Z.of_nat (List.length pre)) = x).
    { unfold get_text. rewrite Nat2Z.id. apply nth_middle. }
    rewrite G, advance_total, (Ht x (or_introl eq_refl)).
    rewrite page_pymupdf_single by (apply Ht; left; reflexivity).
    replace (Z.of_nat (List.length pre) + 1)
      with (Z.of_nat (List.length (pre ++ [x])))
      by (rewrite length_app; simpl; lia).
    replace (pre ++ x :: l)%list with ((pre ++ [x]) ++ l)%list
      by (rewrite <- app_assoc; reflexivity).
    rewrite IH.
    + simpl. rewrite length_app. simpl. rewrite Nat.add_1_r.
      reflexivity.
    + simpl in Hf. lia.
    + intros text H. apply Ht. right. exact H.
Qed.

End ScanPages.

(* ================================================================== *)
(** * Properties of the scans *)
(* ================================================================== *)

(** The fold over the pages, one at a time, assigns a page exactly when
    its text holds a record, and no page twice. *)
Lemma fold_pages_assigns (doc names : list string) :
  let st := Main.process_statements_pypdf2 doc names in
  NoDup (Spec.assigned st)
  /\ forall p,
      In p (Spec.assigned st) <->
      exists pn,
        0 <= pn < Z.of_nat (List.length doc) /\ p = pn + 1
        /\ Main.record_lines (Main.get_text doc pn) <> None.
Proof.
  intros st.
  pose proof (scanned_fold_pypdf2 names doc 0 (Main.no_categories, [])
                (scanned_start names)) as (Hnd & _).
  split; [exact Hnd|]. intros p. rewrite <- record_pages_In.
  unfold st, Main.process_statements_pypdf2.
  rewrite !(count_occ_In Z.eq_dec), count_fold_pypdf2.
  unfold Main.enumerate. simpl. lia.
Qed.

(** Property X2.
    When the scan of the PyMuPDF backend ends, no page is assigned twice
    and every assigned page is numbered from 1. *)
Theorem pymupdf_scan_assigns (fuel : nat) (doc names : list string)
  (st : Main.State) :
  Main.process_statements_pymupdf fuel doc names = Some st ->
  NoDup (Spec.assigned st) /\ Forall (fun p => 1 <= p) (Spec.assigned st).
Proof.
  intros H. unfold Main.process_statements_pymupdf in H.
  apply scanned_loop_pymupdf in H; [|simpl; lia|apply scanned_start].
  destruct H as (pn & _ & Hnd & Hb & _). split; [exact Hnd|].
  eapply Forall_impl; [|exact Hb]. simpl. intros. lia.
Qed.

(** A document of two pages, the first declaring three. *)
Lemma pymupdf_scan_assigns_witness :
  NoDup (Spec.assigned
           (Main.extend Main.NationalMulti [1; 2; 3] Main.no_categories, [])).
Proof.
  assert (E : Main.process_statements_pymupdf 2
                [Sample.springfield; Sample.bare] []
              = Some (Main.extend Main.NationalMulti [1; 2; 3]
                        Main.no_categories, [])) by run.
  exact (proj1 (pymupdf_scan_assigns 2 [Sample.springfield; Sample.bare] []
                  _ E)).
Defined.

(** Property X4.
    The pending decisions of a scan are sound: each names a record whose
    name is not in the registry and proposes a registry entry at
    similarity 0.8 or more, with a snippet of one to five lines that starts
    with the name; they come in ascending order of pages, so no two of them
    are equal. *)
Theorem scan_decisions_sound (fuel : nat) (doc names : list string) :
  let good pending :=
    Forall (Spec.sound_decision names) pending
    /\ StronglySorted Z.lt (map Main.page_num pending)
    /\ NoDup pending in
  good (snd (Main.process_statements_pypdf2 doc names))
  /\ forall st,
      Main.process_statements_pymupdf fuel doc names = Some st ->
      good (snd st).
Proof.
  assert (G : forall pn st,
             Spec.scanned names pn st ->
             Forall (Spec.sound_decision names) (snd st)
             /\ StronglySorted Z.lt (map Main.page_num (snd st))
             /\ NoDup (snd st)).
  { intros pn st (_ & _ & Hs & Hsort). split; [|split; [exact Hsort|]].
    - eapply Forall_impl; [|exact Hs]. simpl. tauto.
    - apply (NoDup_map_inv Main.page_num).
      apply StronglySorted_lt_NoDup, Hsort. }
  intros good. split.
  - apply (G (Z.of_nat (0 + List.length doc))).
    apply (scanned_fold_pypdf2 names doc 0), scanned_start.
  - intros st H. unfold Main.process_statements_pymupdf in H.
    apply scanned_loop_pymupdf in H; [|simpl; lia|apply scanned_start].
    destruct H as (pn & _ & Hs). apply (G pn), Hs.
Qed.

(** When every page declares one page, or none, the loop visits every page
    in turn, as the fold does. *)
Lemma loop_page_by_page (doc names : list string) :
  (forall text, In text doc -> Main.total_pages_of text = 1) ->
  Main.process_statements_pymupdf (List.length doc) doc names
  = Some (Main.process_statements_pypdf2 doc names).
Proof.
  intros H.
  exact (loop_pymupdf_single names doc [] (Main.no_categories, [])
           (List.length doc) (Nat.le_refl _) H).
Qed.

(** Property X1.
    On a document whose pages all declare one page, or none, the scan of the
    PyMuPDF backend ends within as many turns as the document has pages; it
    assigns a page, to one category or to one pending decision, exactly
    when the text of the page holds a record, and assigns no page twice.
    Pages are numbered from 1. *)
Theorem pymupdf_single_pages_assign (doc names : list string) :
  (forall text, In text doc -> Main.total_pages_run text = Some 1) ->
  exists st,
    Main.process_statements_pymupdf (List.length doc) doc names = Some st
    /\ NoDup (Spec.assigned st)
    /\ forall p,
        In p (Spec.assigned st) <->
        exists pn,
          0 <= pn < Z.of_nat (List.length doc) /\ p = pn + 1
          /\ Main.record_lines (Main.get_text doc pn) <> None.
Proof.
  intros H.
  assert (Ht : forall text, In text doc -> Main.total_pages_of text = 1).
  { intros text Hin. apply total_pages_run_value, H, Hin. }
  rewrite (loop_page_by_page doc names Ht).
  eexists. split; [reflexivity|]. apply fold_pages_assigns.
Qed.

(** Two pages with no page count in their text, the second with no
    record. *)
Lemma pymupdf_single_pages_assign_witness :
  exists st,
    Main.process_statements_pymupdf 2 [Sample.madrid_single; Sample.twice]
      Registry.twins = Some st
    /\ NoDup (Spec.assigned st)
    /\ forall p,
        In p (Spec.assigned st) <->
        exists pn,
          0 <= pn < 2 /\ p = pn + 1
          /\ Main.record_lines
               (Main.get_text [Sample.madrid_single; Sample.twice] pn)
             <> None.
Proof.
  apply (pymupdf_single_pages_assign [Sample.madrid_single; Sample.twice]
           Registry.twins).
  intros text [<- |[<- |[]]]; run.
Defined.

(* ================================================================== *)
(** * Resolutions *)
(* ================================================================== *)

Section Resolutions.
Import Py Spec Main.

Lemma apply_action_known (action : string) (d : Decision) (c : Categories) :
  known_action action ->
  exists k, apply_action action d c = extend k (decision_pages d) c.
Proof.
  unfold known_action. simpl. intros [<-|[<-|[<-|[]]]].
  - exists Dnm. reflexivity.
  - exists Foreign. reflexivity.
  - exists (if total_pages d =? 1 then NationalSingle else NationalMulti).
    unfold apply_action, decision_pages.
    change (String.eqb "national" "dnm") with false.
    change (String.eqb "national" "foreign") with false.
    change (String.eqb "national" "national") with true. cbv iota.
    destruct (total_pages d =? 1); reflexivity.
Qed.

(** An action that is none of the three leaves the categories as they
    are. *)
Lemma apply_action_unknown (action : string) (d : Decision)
  (c : Categories) :
  ~ known_action action -> apply_action action d c = c.
Proof.
  unfold known_action, apply_action. simpl. intros H.
  destruct (String.eqb_spec action "dnm") as [->|_]; [tauto|].
  destruct (String.eqb_spec action "foreign") as [->|_]; [tauto|].
  destruct (String.eqb_spec action "national") as [->|_]; [tauto|].
  reflexivity.
Qed.

Lemma count_assigned_remove (c : Categories) (l1 l2 : list Decision)
  (d : Decision) (p : Z) :
  count_occ Z.eq_dec (assigned (c, (l1 ++ d :: l2)%list)) p
  = (count_occ Z.eq_dec (assigned (c, (l1 ++ l2)%list)) p
     + count_occ Z.eq_dec (decision_pages d) p)%nat.
Proof.
  unfold assigned. cbn [fst snd]. rewrite !flat_map_app. cbn [flat_map].
  rewrite !count_occ_app. lia.
Qed.

(** What a call for a pending decision does: the first entry equal to the
    payload leaves the queue and the action is applied. *)
Lemma statement_decision_present (td : TempData) (action : string)
  (d : Decision) :
  In d (pending td) ->
  exists l1 l2,
    pending td = (l1 ++ d :: l2)%list /\ ~ In d l1
    /\ statement_decision (Some td) action d
       = (Some {| pdf := pdf td;
                  categories := apply_action action d (categories td);
                  pending := (l1 ++ l2)%list |},
          match (l1 ++ l2)%list with
          | [] => Complete (create_statement_pdfs_session (pdf td)
                              (apply_action action d (categories td)))
          | _ => Continue (List.length (l1 ++ l2))
          end).
Proof.
  intros H. unfold statement_decision.
  destruct (list_remove d (pending td)) as [p|] eqn:R.
  - destruct (list_remove_some _ _ _ R) as (l1 & l2 & E & Hn & ->).
    exists l1, l2. split; [exact E|]. split; [exact Hn|].
    destruct (l1 ++ l2)%list; reflexivity.
  - apply list_remove_none in R. contradiction.
Qed.

Lemma countdown_S (n : nat) :
  (1 <= n)%nat -> countdown (S n) = n :: countdown n.
Proof. destruct n; [lia|reflexivity]. Qed.

Lemma stored_session_present (td : TempData) (action : string)
  (d : Decision) (l1 l2 : list Decision) :
  statement_decision (Some td) action d
  = (Some {| pdf := pdf td;
             categories := apply_action action d (categories td);
             pending := (l1 ++ l2)%list |},
     match (l1 ++ l2)%list with
     | [] => Complete (create_statement_pdfs_session (pdf td)
                         (apply_action action d (categories td)))
     | _ => Continue (List.length (l1 ++ l2))
     end) ->
  stored_session (Some td) action d
  = match (l1 ++ l2)%list with
    | [] => Some td
    | _ => Some {| pdf := pdf td;
                   categories := apply_action action d (categories td);
                   pending := (l1 ++ l2)%list |}
    end.
Proof.
  intros E. unfold stored_session. rewrite E.
  destruct (l1 ++ l2)%list; reflexivity.
Qed.

(** A client that resolves the pending decisions, each once and in any
    order, is told the number left after every call but the last, which
    builds the files from the categories that the actions have filled. *)
Lemma resolve_all_drains (requests : list (string * Decision))
  (td : TempData) :
  requests <> [] -> NoDup (pending td) ->
  Permutation (map snd requests) (pending td) ->
  snd (resolve_all (Some td) requests)
  = (map Continue (countdown (List.length requests))
     ++ [Complete
           (create_statement_pdfs_session (pdf td)
              (fold_left (fun c r => apply_action (fst r) (snd r) c)
                         requests (categories td)))])%list.
Proof.
  revert td. induction requests as [|[action d] rest IH]; intros td Hne Hnd P;
    [congruence|].
  cbn [map snd] in P.
  assert (Hin : In d (pending td)).
  { eapply Permutation_in; [exact P|]. left. reflexivity. }
  destruct (statement_decision_present td action d Hin)
    as (l1 & l2 & E & Hn & R).
  pose proof (stored_session_present td action d l1 l2 R) as St.
  rewrite E in P, Hnd. apply Permutation_cons_app_inv in P.
  apply NoDup_remove_1 in Hnd.
  cbn [resolve_all]. rewrite R, St. cbn [snd fold_left fst].
  destruct rest as [|r rest].
  - apply Permutation_nil in P. rewrite P. reflexivity.
  - assert (Hl : (l1 ++ l2)%list <> []).
    { intros Z0. rewrite Z0 in P. apply Permutation_sym, Permutation_nil in P.
      discriminate. }
    destruct (l1 ++ l2)%list as [|d0 q] eqn:Q; [congruence|].
    set (td1 := {| pdf := pdf td;
                   categories := apply_action action d (categories td);
                   pending := d0 :: q |}).
    specialize (IH td1 ltac:(discriminate) Hnd P).
    destruct (resolve_all (Some td1) (r :: rest)) as [final responses].
    cbn [snd] in IH |- *. rewrite IH.
    change (List.length ((action, d) :: r :: rest))
      with (S (List.length (r :: rest))).
    rewrite countdown_S by (simpl; lia).
    cbn [map app]. f_equal. f_equal.
    apply Permutation_length in P. rewrite length_map in P.
    rewrite P. reflexivity.
Qed.

(** The pages that the requests file, for known actions, are those that
    the decisions stood for. *)
Lemma count_assigned_fold (requests : list (string * Decision))
  (c : Categories) (q : list Decision) (p : Z) :
  Forall (fun r => known_action (fst r)) requests ->
  count_occ Z.eq_dec
    (assigned
       (fold_left (fun c r => apply_action (fst r) (snd r) c) requests c, q))
    p
  = (count_occ Z.eq_dec (assigned (c, q)) p
     + count_occ Z.eq_dec (flat_map decision_pages (map snd requests)) p)%nat.
Proof.
  revert c. induction requests as [|[action d] rest IH]; intros c F; simpl.
  - lia.
  - inversion F as [|? ? Ha Hr]; subst. rewrite IH by exact Hr.
    destruct (apply_action_known action d c Ha) as [k ->].
    rewrite count_assigned_extend, count_occ_app. lia.
Qed.

End Resolutions.

(* ================================================================== *)
(** * The identifiers of invoices *)
(* ================================================================== *)

Section Identifiers.
Import Py Re Spec Main.

Lemma take_digits_spec (n : nat) (s ds rest : string) :
  take_digits n s = Some (ds, rest) ->
  s = ds ++ rest /\ all_digits ds /\ String.length ds = n.
Proof.
  revert s ds rest. induction n as [|n IH]; intros s ds rest; simpl.
  - intros H. injection H as <- <-. repeat split. constructor.
  - destruct s as [|c s]; [discriminate|].
    destruct (isdigit c) eqn:D; [|discriminate].
    destruct (take_digits n s) as [[ds0 rest0]|] eqn:T; [|discriminate].
    intros H. injection H as <- <-.
    destruct (IH _ _ _ T) as (-> & Hd & <-).
    repeat split. constructor; assumption.
Qed.

Lemma digits_then_boundary_spec (n : nat) (s ds : string) :
  digits_then_boundary n s = Some ds ->
  exists rest,
    s = ds ++ rest /\ all_digits ds /\ String.length ds = n
    /\ boundary_after_word rest = true.
Proof.
  unfold digits_then_boundary.
  destruct (take_digits n s) as [[ds0 rest]|] eqn:T; [|discriminate].
  destruct (boundary_after_word rest) eqn:B; [|discriminate].
  intros H. injection H as <-.
  destruct (take_digits_spec _ _ _ _ T) as (E & Hd & L).
  exists rest. auto.
Qed.

Lemma digits_6_8_spec (s ds : string) :
  digits_6_8 s = Some ds ->
  exists rest,
    s = ds ++ rest /\ all_digits ds /\ (6 <= String.length ds <= 8)%nat
    /\ boundary_after_word rest = true.
Proof.
  unfold digits_6_8.
  destruct (digits_then_boundary 8 s) as [d8|] eqn:E8.
  - intros H. injection H as <-.
    destruct (digits_then_boundary_spec _ _ _ E8) as (r & ? & ? & ? & ?).
    exists r. repeat split; auto; lia.
  - destruct (digits_then_boundary 7 s) as [d7|] eqn:E7.
    + intros H. injection H as <-.
      destruct (digits_then_boundary_spec _ _ _ E7) as (r & ? & ? & ? & ?).
      exists r. repeat split; auto; lia.
    + intros H.
      destruct (digits_then_boundary_spec _ _ _ H) as (r & ? & ? & ? & ?).
      exists r. repeat split; auto; lia.
Qed.

(** A match at the head of [s]: its shape and the two boundaries. *)
Lemma match_invoice_here_spec (prev : option ascii) (s m : string) :
  match_invoice_here prev s = Some m ->
  invoice_shape m
  /\ boundary_before_word prev = true
  /\ exists rest, s = m ++ rest /\ boundary_after_word rest = true.
Proof.
  unfold match_invoice_here. destruct s as [|c s]; [discriminate|].
  destruct (boundary_before_word prev) eqn:B; [|discriminate].
  destruct (Ascii.eqb c "P" || Ascii.eqb c "R") eqn:C; [|discriminate].
  simpl. destruct (digits_6_8 s) as [ds|] eqn:D; [|discriminate].
  intros H. injection H as <-.
  destruct (digits_6_8_spec _ _ D) as (rest & -> & Hd & Hl & Hb).
  split; [|split; [reflexivity|]].
  - exists c, ds. split; [reflexivity|]. split; [|auto].
    apply orb_true_iff in C.
    destruct C as [C|C]; apply Ascii.eqb_eq in C; auto.
  - exists rest. auto.
Qed.

Lemma substring_all (s : string) (n : nat) :
  (String.length s <= n)%nat -> substring 0 n s = s.
Proof.
  revert n. induction s as [|c s IH]; intros n H; simpl in *.
  - destruct n; reflexivity.
  - destruct n as [|n]; [lia|]. rewrite IH by lia. reflexivity.
Qed.

Lemma token_from_head (m rest : string) (prev : option ascii) :
  boundary_before_word prev = true -> boundary_after_word rest = true ->
  token_from m prev (m ++ rest) = true.
Proof.
  intros B A.
  assert (E : boundary_before_word prev && prefix m (m ++ rest)
              && boundary_after_word
                   (substring (String.length m)
                              (String.length (m ++ rest)) (m ++ rest))
              = true).
  { rewrite B. simpl.
    replace (prefix m (m ++ rest)) with true
      by (symmetry; apply prefix_append; eauto).
    simpl. rewrite substring_skip, substring_all; [exact A|].
    rewrite length_append. lia. }
  destruct (m ++ rest); simpl in *; rewrite E; reflexivity.
Qed.

(** Every match is an identifier of the right shape that stands in the
    text as a whole token. *)
Lemma findall_from_spec (s : string) (prev : option ascii) (skip : nat)
  (m : string) :
  In m (findall_from prev skip s) ->
  invoice_shape m /\ token_from m prev s = true.
Proof.
  revert prev skip. induction s as [|c s IH]; intros prev skip;
    [simpl; tauto|].
  cbn [findall_from].
  assert (Later : forall k,
             In m (findall_from (Some c) k s) ->
             invoice_shape m /\ token_from m prev (String c s) = true).
  { intros k H. destruct (IH _ _ H) as [Hs Ht]. split; [exact Hs|].
    cbn [token_from]. rewrite Ht. apply orb_true_r. }
  destruct skip as [|k]; [|apply Later].
  destruct (match_invoice_here prev (String c s)) as [m0|] eqn:M;
    [|apply Later].
  intros [<-|H]; [|eapply Later; eauto].
  destruct (match_invoice_here_spec _ _ _ M) as (Hs & B & rest & E & A).
  split; [exact Hs|]. rewrite E. apply token_from_head; assumption.
Qed.

End Identifiers.

Section InvoiceKeys.
Import Py Re Spec Main.

Lemma has_key_In (k : string) (inv : Invoices) :
  has_key k inv = true <-> In k (map fst inv).
Proof.
  unfold has_key. rewrite existsb_exists, in_map_iff. split.
  - intros (e & He & E). apply String.eqb_eq in E. eauto.
  - intros (e & E & He). exists e. split; [exact He|].
    apply String.eqb_eq. exact E.
Qed.

Lemma keys_append_to (k : string) (pn : Z) (inv : Invoices) :
  map fst (append_to k pn inv) = map fst inv.
Proof.
  induction inv as [|[k0 ps] inv IH]; simpl; [reflexivity|].
  destruct (String.eqb k0 k); simpl; [reflexivity|]. rewrite IH.
  reflexivity.
Qed.

(** A match adds its identifier to the keys when it is new, at the end. *)
Lemma keys_add_invoice (k : string) (pn : Z) (inv : Invoices) :
  map fst (add_invoice pn inv k)
  = if has_key k inv then map fst inv else (map fst inv ++ [k])%list.
Proof.
  unfold add_invoice. rewrite keys_append_to.
  destruct (has_key k inv); [reflexivity|]. rewrite map_app. reflexivity.
Qed.

Lemma keys_NoDup_add (k : string) (pn : Z) (inv : Invoices) :
  NoDup (map fst inv) -> NoDup (map fst (add_invoice pn inv k)).
Proof.
  intros H. rewrite keys_add_invoice. destruct (has_key k inv) eqn:E;
    [exact H|].
  apply NoDup_app; [exact H|repeat constructor; simpl; tauto|].
  intros x Hx [<- |[]]. apply has_key_In in Hx. congruence.
Qed.

Lemma keys_In_add (k x : string) (pn : Z) (inv : Invoices) :
  In x (map fst (add_invoice pn inv k)) <-> In x (map fst inv) \/ x = k.
Proof.
  rewrite keys_add_invoice. destruct (has_key k inv) eqn:E.
  - apply has_key_In in E. split; [auto|]. intros [H| ->]; assumption.
  - rewrite in_app_iff. simpl. intuition.
Qed.

Lemma keys_fold_add (found : list string) (pn : Z) (inv : Invoices) :
  (NoDup (map fst inv) ->
   NoDup (map fst (fold_left (add_invoice pn) found inv)))
  /\ forall x,
      In x (map fst (fold_left (add_invoice pn) found inv)) <->
      In x (map fst inv) \/ In x found.
Proof.
  revert inv. induction found as [|k found IH]; intros inv; simpl.
  - split; [auto|]. intros x. tauto.
  - destruct (IH (add_invoice pn inv k)) as [H1 H2]. split.
    + intros H. apply H1, keys_NoDup_add, H.
    + intros x. rewrite H2, keys_In_add. intuition.
Qed.

Lemma keys_fold_pages (ps : list (Z * string)) (inv : Invoices) :
  (NoDup (map fst inv) ->
   NoDup (map fst (fold_left page_invoices ps inv)))
  /\ forall x,
      In x (map fst (fold_left page_invoices ps inv)) <->
      In x (map fst inv)
      \/ exists p, In p ps /\ In x (findall_invoices (snd p)).
Proof.
  revert inv. induction ps as [|p ps IH]; intros inv; simpl.
  - split; [auto|]. intros x. split; [auto|].
    intros [H|(p & [] & _)]. exact H.
  - destruct (IH (page_invoices inv p)) as [H1 H2].
    destruct (keys_fold_add (findall_invoices (snd p)) (fst p) inv)
      as [G1 G2].
    split.
    + intros H. apply H1, G1, H.
    + intros x. rewrite H2. unfold page_invoices at 1. rewrite G2. split.
      * intros [[H|H]|(p' & Hp & H)]; [auto|right; exists p; auto|].
        right. exists p'. auto.
      * intros [H|(p' & [<- |Hp] & H)]; [auto|auto|]. right. exists p'. auto.
Qed.

Lemma lookup_In (k : string) (ps : list Z) (inv : Invoices) :
  NoDup (map fst inv) -> In (k, ps) inv -> lookup k inv = ps.
Proof.
  unfold lookup. induction inv as [|[k0 ps0] inv IH]; simpl; [tauto|].
  intros Hnd [E|H].
  - injection E as -> ->. rewrite String.eqb_refl. reflexivity.
  - inversion Hnd as [|? ? Hk Hr]; subst.
    destruct (String.eqb_spec k0 k) as [->|N].
    + exfalso. apply Hk. apply in_map_iff. exists (k, ps). auto.
    + apply IH; assumption.
Qed.

Lemma pages_of_In (k : string) (doc : list string) (p : Z) :
  In p (pages_of k (enumerate doc)) <->
  0 <= p < Z.of_nat (List.length doc)
  /\ In k (findall_invoices (get_text doc p)).
Proof.
  unfold pages_of. rewrite <- range_enumerate, in_flat_map. split.
  - intros ([pn text] & Hin & Hp). apply in_map_iff in Hin.
    destruct Hin as (pn' & E & Hr). injection E as -> <-.
    apply range_In in Hr. simpl in Hp. apply repeat_spec in Hp as E.
    subst p. split; [lia|].
    unfold occurrences in Hp. apply (count_occ_In string_dec).
    destruct (count_occ string_dec _ k); [contradiction|lia].
  - intros (Hr & Hk). exists (p, get_text doc p). split.
    + apply in_map_iff. exists p. split; [reflexivity|].
      apply range_In. lia.
    + simpl. unfold occurrences.
      apply (count_occ_In string_dec) in Hk.
      destruct (count_occ string_dec _ k); [lia|left; reflexivity].
Qed.

Lemma enumerate_In (doc : list string) (p : Z * string) :
  In p (enumerate doc) <->
  0 <= fst p < Z.of_nat (List.length doc) /\ snd p = get_text doc (fst p).
Proof.
  rewrite <- range_enumerate, in_map_iff. split.
  - intros (pn & <- & H). apply range_In in H. simpl. split; [lia|auto].
  - intros [H E]. exists (fst p). rewrite range_In. split; [|lia].
    destruct p. simpl in *. congruence.
Qed.

Lemma page_invoices_none (inv : Invoices) (p : Z * string) :
  findall_invoices (snd p) = [] -> page_invoices inv p = inv.
Proof. unfold page_invoices. intros ->. reflexivity. Qed.

End InvoiceKeys.

(* ================================================================== *)
(** * The dictionary of the extraction *)
(* ================================================================== *)

Section InvoiceDictionary.
Import Py Re Spec Main.

Lemma extract_keys_NoDup (doc : list string) :
  NoDup (map fst (extract_invoices_pypdf2 doc)).
Proof.
  destruct (keys_fold_pages (enumerate doc) []) as [Hnd _].
  apply Hnd, NoDup_nil.
Qed.

(** Every key was found on a page of the document. *)
Lemma extract_key_origin (doc : list string) (k : string) :
  In k (map fst (extract_invoices_pypdf2 doc)) ->
  exists p, 0 <= p < Z.of_nat (List.length doc)
            /\ In k (findall_invoices (get_text doc p)).
Proof.
  destruct (keys_fold_pages (enumerate doc) []) as [_ Hkeys].
  intros H. apply Hkeys in H. destruct H as [[]|(p0 & Hp0 & Hf0)].
  apply enumerate_In in Hp0. destruct Hp0 as [Hr0 E0]. rewrite E0 in Hf0.
  exists (fst p0). auto.
Qed.

Lemma extract_entry (doc : list string) (k : string) (ps : list Z) :
  In (k, ps) (extract_invoices_pypdf2 doc) ->
  ps = pages_of k (enumerate doc).
Proof.
  intros Hin. rewrite <- lookup_extract. symmetry.
  apply lookup_In; [apply extract_keys_NoDup|exact Hin].
Qed.

Lemma extract_pages_nonempty (doc : list string) (k : string)
  (ps : list Z) :
  In (k, ps) (extract_invoices_pypdf2 doc) -> ps <> [].
Proof.
  intros Hin E. pose proof (extract_entry doc k ps Hin) as L.
  destruct (extract_key_origin doc k) as (p & Hr & Hf).
  { apply in_map_iff. exists (k, ps). auto. }
  assert (H : In p (pages_of k (enumerate doc))) by (apply pages_of_In; auto).
  rewrite <- L, E in H. exact H.
Qed.

End InvoiceDictionary.

Section InvoiceArchive.
Import Py Re Spec Main.

Lemma enumerate_snd (doc : list string) : map snd (enumerate doc) = doc.
Proof.
  unfold enumerate.
  assert (G : forall (l : list string) (ns : list Z),
             List.length ns = List.length l -> map snd (combine ns l) = l).
  { induction l as [|x l IH]; intros [|n ns] E; simpl in *;
      try reflexivity; try discriminate.
    f_equal. apply IH. lia. }
  apply G. rewrite length_map, length_seq. reflexivity.
Qed.

Lemma extract_empty (doc : list string) :
  extract_invoices_pypdf2 doc = [] <->
  forall text, In text doc -> findall_invoices text = [].
Proof.
  destruct (keys_fold_pages (enumerate doc) []) as [_ Hkeys].
  fold (extract_invoices_pypdf2 doc) in Hkeys. split.
  - intros E text Hin. rewrite E in Hkeys.
    rewrite <- (enumerate_snd doc) in Hin. apply in_map_iff in Hin.
    destruct Hin as (p & <- & Hp).
    destruct (findall_invoices (snd p)) as [|x l] eqn:F; [reflexivity|].
    exfalso. apply (Hkeys x). right. exists p. rewrite F. simpl. auto.
  - intros H.
    destruct (extract_invoices_pypdf2 doc) as [|[k ps] inv]; [reflexivity|].
    exfalso. destruct (Hkeys k) as [G _].
    destruct (G (or_introl eq_refl)) as [[]|(p & Hp & Hf)].
    rewrite (H (snd p)) in Hf; [exact Hf|].
    rewrite <- (enumerate_snd doc). apply in_map. exact Hp.
Qed.

(** Every identifier of the dictionary gets its entry, since none has an
    empty page list. *)
Lemma create_invoice_zip_all (inv : Invoices) :
  (forall k ps, In (k, ps) inv -> ps <> []) ->
  create_invoice_zip inv = map (fun e => (fst e ++ ".pdf", snd e)) inv.
Proof.
  induction inv as [|[k ps] inv IH]; intros H; simpl; [reflexivity|].
  destruct ps as [|p ps].
  - exfalso. apply (H k []); simpl; auto.
  - simpl. f_equal. apply IH. intros k' ps' Hin. apply (H k' ps').
    simpl. auto.
Qed.

End InvoiceArchive.

(* ================================================================== *)
(** * Files and pages *)
(* ================================================================== *)

Section Files.
Import Py Spec Main.

Lemma written_pages_nil (doc_len : nat) : written_pages doc_len [] = [].
Proof. reflexivity. Qed.

(** A category with a page of the document gets its file. *)
Lemma statement_pdfs_intro (doc_len : nat) (cats : list (string * list Z))
  (name : string) (pages : list Z) :
  In (name, pages) cats -> written_pages doc_len pages <> [] ->
  In (name ++ ".pdf", written_pages doc_len pages)
     (statement_pdfs doc_len cats).
Proof.
  induction cats as [|[n ps] rest IH]; simpl; [tauto|].
  intros [E|H] W.
  - injection E as -> ->.
    destruct pages as [|p0 pages]; [rewrite written_pages_nil in W; congruence|].
    destruct (written_pages doc_len (p0 :: pages)) as [|w0 ws];
      [congruence|]. left. reflexivity.
  - specialize (IH H W). destruct ps as [|p0 ps]; [exact IH|].
    destruct (written_pages doc_len (p0 :: ps)); [exact IH|].
    right. exact IH.
Qed.

Lemma shared_page_same_entry (cats : list (string * list Z))
  (e1 e2 : string * list Z) (x : Z) :
  NoDup (flat_map snd cats) ->
  In e1 cats -> In e2 cats -> In x (snd e1) -> In x (snd e2) -> e1 = e2.
Proof.
  induction cats as [|e rest IH]; simpl; [tauto|].
  intros Hnd H1 H2 X1 X2.
  assert (Hd : forall e', In e' rest -> In x (snd e) -> In x (snd e') ->
                          False).
  { intros e' He' Xa Xb.
    pose proof (proj1 (NoDup_count_occ Z.eq_dec _) Hnd x) as C.
    rewrite count_occ_app in C.
    apply (count_occ_In Z.eq_dec) in Xa.
    assert (Xc : In x (flat_map snd rest)).
    { apply in_flat_map. exists e'. auto. }
    apply (count_occ_In Z.eq_dec) in Xc. lia. }
  destruct H1 as [<-|H1], H2 as [<-|H2].
  - reflexivity.
  - exfalso. eapply Hd; eauto.
  - exfalso. eapply Hd; eauto.
  - apply IH; auto. apply NoDup_app_remove_l in Hnd. exact Hnd.
Qed.

Lemma assigned_items (c : Categories) :
  flat_map snd (items c) = assigned (c, []).
Proof.
  unfold items, assigned. simpl. rewrite !app_nil_r. reflexivity.
Qed.

End Files.

Section Pages.
Import Py Spec Main.

Lemma Permutation_count (l1 l2 : list Z) :
  (forall p, count_occ Z.eq_dec l1 p = count_occ Z.eq_dec l2 p) ->
  Permutation l1 l2.
Proof. apply (Permutation_count_occ Z.eq_dec). Qed.

Lemma count_assigned_queue (c : Categories) (q : list Decision) (p : Z) :
  count_occ Z.eq_dec (assigned (c, q)) p
  = (count_occ Z.eq_dec (assigned (c, [])) p
     + count_occ Z.eq_dec (flat_map decision_pages q) p)%nat.
Proof.
  unfold assigned. cbn [fst snd flat_map]. rewrite !count_occ_app.
  cbn [count_occ]. lia.
Qed.

(** The pages after the requests, each with a known action, are those of
    the categories and of the decisions resolved. *)
Lemma fold_actions_pages (requests : list (string * Decision))
  (c : Categories) (q : list Decision) :
  Permutation (map snd requests) q ->
  Forall (fun r => known_action (fst r)) requests ->
  Permutation
    (assigned
       (fold_left (fun c r => apply_action (fst r) (snd r) c) requests c, []))
    (assigned (c, q)).
Proof.
  intros P K. apply Permutation_count. intros p.
  rewrite (count_assigned_fold requests c [] p K).
  rewrite (count_assigned_queue c q).
  f_equal. apply (Permutation_count_occ Z.eq_dec).
  apply Permutation_flat_map, P.
Qed.

Lemma requests_nonempty (requests : list (string * Decision))
  (q : list Decision) :
  q <> [] -> Permutation (map snd requests) q -> requests <> [].
Proof.
  intros Hne P ->. simpl in P. apply Permutation_nil in P. congruence.
Qed.

End Pages.

(* ================================================================== *)
(** * Properties of the assembler *)
(* ================================================================== *)

(** Property X9.
    The file of a category is written exactly when one of the pages of the
    category lies in the source document, pages being numbered from 1; so a
    category whose pages all lie outside yields no file, as a category with
    no page does. *)
Theorem assembler_file_iff (doc_len : nat) (cats : list (string * list Z))
  (name : string) :
  In (name ++ ".pdf")%string
     (map fst (Main.create_statement_pdfs_pymupdf doc_len cats))
  <-> exists pages p,
        In (name, pages) cats /\ In p pages /\ 1 <= p <= Z.of_nat doc_len.
Proof.
  unfold Main.create_statement_pdfs_pymupdf. split.
  - intros H. apply in_map_iff in H. destruct H as ([f w] & E & H).
    simpl in E. subst f.
    destruct (statement_pdfs_In _ _ _ _ H) as (n & ps & Hin & _ & E & W & Hw).
    apply append_suffix_inj in E. subst n.
    destruct w as [|p w]; [congruence|].
    assert (Hp : In p (Main.written_pages doc_len ps)).
    { rewrite <- W. left. reflexivity. }
    apply written_pages_In in Hp. exists ps, (p + 1). split; [exact Hin|].
    split; [tauto|lia].
  - intros (ps & p & Hin & Hp & Hr). apply in_map_iff.
    exists ((name ++ ".pdf")%string, Main.written_pages doc_len ps).
    split; [reflexivity|]. apply statement_pdfs_intro; [exact Hin|].
    assert (G : In (p - 1) (Main.written_pages doc_len ps)).
    { apply written_pages_In. replace (p - 1 + 1) with p by lia.
      split; [exact Hp|lia]. }
    intros E. rewrite E in G. exact G.
Qed.

(** Property X10.
    When no page is listed twice in the categories, the files are disjoint
    and cover the listed pages of the document: every listed page that the
    document has is in a file, and no page is in two files. *)
Theorem assembler_partition (doc_len : nat) (cats : list (string * list Z)) :
  NoDup (flat_map snd cats) ->
  let out := Main.create_statement_pdfs_pymupdf doc_len cats in
  Main.create_statement_pdfs_pypdf2 doc_len cats = out
  /\ (forall p,
        (exists file w, In (file, w) out /\ In p w) <->
        In (p + 1) (flat_map snd cats) /\ 0 <= p < Z.of_nat doc_len)
  /\ (forall file1 w1 file2 w2 p,
        In (file1, w1) out -> In (file2, w2) out ->
        In p w1 -> In p w2 -> file1 = file2 /\ w1 = w2).
Proof.
  intros Hnd out. unfold out, Main.create_statement_pdfs_pymupdf,
    Main.create_statement_pdfs_pypdf2.
  split; [reflexivity|]. split.
  - intros p. split.
    + intros (file & w & H & Hp).
      destruct (statement_pdfs_In _ _ _ _ H) as (n & ps & Hin & _ & _ & W & _).
      subst w. apply written_pages_In in Hp. split; [|tauto].
      apply in_flat_map. exists (n, ps). tauto.
    + intros [H Hr]. apply in_flat_map in H.
      destruct H as ([n ps] & Hin & Hp). simpl in Hp.
      assert (G : In p (Main.written_pages doc_len ps)).
      { apply written_pages_In. tauto. }
      exists (n ++ ".pdf")%string, (Main.written_pages doc_len ps).
      split; [|exact G]. apply statement_pdfs_intro; [exact Hin|].
      intros E. rewrite E in G. exact G.
  - intros f1 w1 f2 w2 p H1 H2 P1 P2.
    destruct (statement_pdfs_In _ _ _ _ H1)
      as (n1 & ps1 & Hin1 & _ & E1 & W1 & _).
    destruct (statement_pdfs_In _ _ _ _ H2)
      as (n2 & ps2 & Hin2 & _ & E2 & W2 & _).
    subst. apply written_pages_In in P1, P2.
    assert (E : (n1, ps1) = (n2, ps2)).
    { apply (shared_page_same_entry cats _ _ (p + 1) Hnd Hin1 Hin2);
        simpl; tauto. }
    injection E as -> ->. auto.
Qed.

(** Three categories over a document of three pages. *)
Lemma assembler_partition_witness :
  let out :=
    Main.create_statement_pdfs_pymupdf 3
      [("dnm", [3; 1]); ("foreign", [7]); ("national_single", [2])] in
  out = [("dnm.pdf", [0; 2]); ("national_single.pdf", [1])]
  /\ forall file1 w1 file2 w2 p,
      In (file1, w1) out -> In (file2, w2) out ->
      In p w1 -> In p w2 -> file1 = file2 /\ w1 = w2.
Proof.
  split; [run|].
  apply (assembler_partition 3
           [("dnm", [3; 1]); ("foreign", [7]); ("national_single", [2])]).
  simpl. repeat constructor; simpl; intuition lia.
Defined.

(* ================================================================== *)
(** * Properties of the resolution of decisions *)
(* ================================================================== *)

(** Property X7.
    The resolution of a pending decision is no error.  With one of the three
    actions it moves the pages of the decision from the queue to a category:
    the pages that the session holds stay the same.  With any other action
    the categories stay as they are and the decision leaves the queue all
    the same: its pages are in the session no more. *)
Theorem resolve_pages (td : Main.TempData) (action : string)
  (d : Main.Decision) :
  In d (Main.pending td) ->
  exists td' response,
    Main.statement_decision (Some td) action d = (Some td', response)
    /\ (forall message, response <> Main.Error message)
    /\ (Spec.known_action action ->
        Permutation
          (Spec.assigned (Main.categories td', Main.pending td'))
          (Spec.assigned (Main.categories td, Main.pending td)))
    /\ (~ Spec.known_action action ->
        Main.categories td' = Main.categories td
        /\ Permutation
             (Spec.assigned (Main.categories td', Main.pending td')
              ++ Spec.decision_pages d)
             (Spec.assigned (Main.categories td, Main.pending td))).
Proof.
  intros Hin.
  destruct (statement_decision_present td action d Hin)
    as (l1 & l2 & E & _ & R).
  rewrite R. eexists _, _. split; [reflexivity|].
  split; [destruct (l1 ++ l2)%list; discriminate|].
  cbn [Main.categories Main.pending]. rewrite E. split.
  - intros K.
    destruct (apply_action_known action d (Main.categories td) K) as [k ->].
    apply Permutation_count. intros p.
    rewrite count_assigned_extend, count_assigned_remove.
    reflexivity.
  - intros K. rewrite (apply_action_unknown action d _ K).
    split; [reflexivity|]. apply Permutation_count. intros p.
    rewrite count_occ_app, count_assigned_remove. reflexivity.
Qed.

(** Property X8.
    When the pending decisions are resolved, each once, in any order and
    with one of the three actions, every call but the last answers with the
    number of decisions left and the last one builds the files, from
    categories that hold the pages that the session held in its categories
    and its queue, each as many times.  The files are listed in the order
    in which the categories come back from the session, which is the order
    of their names. *)
Theorem resolve_all_decisions (requests : list (string * Main.Decision))
  (td : Main.TempData) :
  Main.pending td <> [] -> NoDup (Main.pending td) ->
  Permutation (map snd requests) (Main.pending td) ->
  Forall (fun r => Spec.known_action (fst r)) requests ->
  exists cats',
    snd (Spec.resolve_all (Some td) requests)
    = (map Main.Continue (Spec.countdown (List.length requests))
       ++ [Main.Complete
             (map fst
                (Main.create_statement_pdfs_pymupdf
                   (List.length (Main.pdf td))
                   [("dnm", Main.dnm cats'); ("foreign", Main.foreign cats');
                    ("national_multi", Main.national_multi cats');
                    ("national_single", Main.national_single cats')]))])%list
    /\ Permutation (Spec.assigned (cats', []))
                   (Spec.assigned (Main.categories td, Main.pending td)).
Proof.
  intros Hne Hnd P K.
  pose proof (resolve_all_drains requests td
                (requests_nonempty _ _ Hne P) Hnd P) as R.
  eexists. split; [exact R|].
  apply fold_actions_pages; assumption.
Qed.

(** A queue of two decisions: one resolved to DoNotMail, and one resolved
    with an action that the handler does not know. *)
Lemma resolve_pages_witness :
  In Sample.asked (Main.pending Sample.review)
  /\ (exists td' response,
        Main.statement_decision (Some Sample.review) "shred" Sample.asked
        = (Some td', response)
        /\ (forall message, response <> Main.Error message)
        /\ (Spec.known_action "shred" ->
            Permutation
              (Spec.assigned (Main.categories td', Main.pending td'))
              (Spec.assigned (Main.categories Sample.review,
                              Main.pending Sample.review)))
        /\ (~ Spec.known_action "shred" ->
            Main.categories td' = Main.categories Sample.review
            /\ Permutation
                 (Spec.assigned (Main.categories td', Main.pending td')
                  ++ Spec.decision_pages Sample.asked)
                 (Spec.assigned (Main.categories Sample.review,
                                 Main.pending Sample.review)))).
Proof.
  split; [simpl; auto|].
  apply (resolve_pages Sample.review "shred" Sample.asked). simpl. auto.
Defined.

(** The two decisions resolved in the reverse order, to National and to
    Foreign. *)
Lemma resolve_all_decisions_witness :
  snd (Spec.resolve_all (Some Sample.review)
         [("national", Sample.asked_again); ("foreign", Sample.asked)])
  = [Main.Continue 1; Main.Complete ["foreign.pdf"; "national_single.pdf"]]
  /\ exists cats',
      snd (Spec.resolve_all (Some Sample.review)
             [("national", Sample.asked_again); ("foreign", Sample.asked)])
      = (map Main.Continue (Spec.countdown 2)
         ++ [Main.Complete
               (map fst
                  (Main.create_statement_pdfs_pymupdf
                     (List.length (Main.pdf Sample.review))
                     [("dnm", Main.dnm cats');
                      ("foreign", Main.foreign cats');
                      ("national_multi", Main.national_multi cats');
                      ("national_single",
                       Main.national_single cats')]))])%list
      /\ Permutation (Spec.assigned (cats', []))
                     (Spec.assigned (Main.categories Sample.review,
                                     Main.pending Sample.review)).
Proof.
  split; [run|].
  apply (resolve_all_decisions
           [("national", Sample.asked_again); ("foreign", Sample.asked)]
           Sample.review).
  - discriminate.
  - apply NoDup_cons; [|apply NoDup_cons; [intros []|apply NoDup_nil]].
    intros [H|[]]. discriminate H.
  - apply perm_swap.
  - apply Forall_cons; [|apply Forall_cons; [|apply Forall_nil]].
    + right. right. left. reflexivity.
    + right. left. reflexivity.
Defined.

(* ================================================================== *)
(** * The routes *)
(* ================================================================== *)

Section Routes.
Import Py Spec Main.

Lemma validate_fitz (file : option (list string)) :
  validate_pdf (import_block false true) file
  = match file with
    | Some doc => existsb nonblank doc
    | None => false
    end.
Proof. reflexivity. Qed.

Lemma process_fitz (fuel : nat) (doc names : list string) :
  process_statements (import_block false true) fuel doc names
  = option_map Ok (process_statements_pymupdf fuel doc names).
Proof. reflexivity. Qed.

Lemma extract_fitz (doc : list string) :
  extract_invoices (import_block false true) doc
  = Ok (extract_invoices_pypdf2 doc).
Proof.
  change (extract_invoices (import_block false true) doc)
    with (Ok (extract_invoices_pymupdf doc)).
  rewrite extract_invoices_same. reflexivity.
Qed.

Lemma separator_fitz (fuel : nat) (session : option TempData)
  (doc names : list string) :
  statement_separator (import_block false true) fuel session
    (Some (Some doc)) (Some names)
  = if existsb nonblank doc then
      match process_statements_pymupdf fuel doc names with
      | Some (c, []) =>
          Some (session, Separated (create_statement_pdfs doc c))
      | Some (c, d :: q) =>
          Some (Some {| pdf := doc; categories := c; pending := d :: q |},
                Review (d :: q))
      | None => None
      end
    else Some (session, Rejected "PDF contains no readable text").
Proof.
  unfold statement_separator. rewrite validate_fitz, process_fitz.
  destruct (existsb nonblank doc); [|reflexivity].
  destruct (process_statements_pymupdf fuel doc names) as [[c [|d q]]|];
    reflexivity.
Qed.

Lemma blank_pages (doc : list string) :
  existsb nonblank doc = false <->
  forall text, In text doc -> strip text = "".
Proof.
  induction doc as [|t doc IH]; simpl.
  - split; [intros _ ? []|reflexivity].
  - rewrite orb_false_iff, IH. unfold nonblank.
    rewrite negb_false_iff, String.eqb_eq. split.
    + intros [E H] text [<-|Hin]; auto.
    + intros H. split; [apply H; auto|]. intros text Hin. apply H. auto.
Qed.

Lemma mem_In (x : string) (xs : list string) :
  mem x xs = true <-> In x xs.
Proof.
  unfold mem. rewrite existsb_exists. split.
  - intros (y & Hin & E). apply String.eqb_eq in E. subst y. exact Hin.
  - intros H. exists x. split; [exact H|apply String.eqb_refl].
Qed.

End Routes.

(** Property X11.
    With PyPDF2 installed the import block chooses the PyPDF2 backend and
    binds the library to the name [pdf_lib]; the functions of the backend
    call it by the name [PyPDF2].  So the validator answers [False] for
    every file, the statement separator rejects every upload as a PDF with
    no readable text, and the invoice processor fails with the error of the
    unbound name. *)
Theorem pypdf2_backend_unbound (fitz_installed : bool) :
  let g := Main.import_block true fitz_installed in
  Main.PDF_LIB g = Some Main.PyPDF2
  /\ (forall file, Main.validate_pdf g file = false)
  /\ (forall fuel session file names,
        Main.statement_separator g fuel session (Some file) (Some names)
        = Some (session, Main.Rejected "PDF contains no readable text"))
  /\ (forall doc,
        Main.invoice_processor g (Some doc)
        = Main.Failed (Main.NameError "PyPDF2")).
Proof.
  intros g. split; [reflexivity|].
  assert (V : forall file, Main.validate_pdf g file = false)
    by reflexivity.
  split; [exact V|]. split; [|reflexivity].
  intros fuel session file names. unfold Main.statement_separator.
  rewrite V. reflexivity.
Qed.

(** Property X12.
    With PyMuPDF, the statement separator rejects an upload as a PDF with no
    readable text exactly when the library cannot open the file or every
    page has a text of white space only, which a document of no page
    has. *)
Theorem separator_rejects_blank (fuel : nat)
  (session : option Main.TempData) (file : option (list string))
  (names : list string) :
  Main.statement_separator Sample.fitz_only fuel session (Some file)
    (Some names)
  = Some (session, Main.Rejected "PDF contains no readable text")
  <-> match file with
      | Some doc => forall text, In text doc -> Py.strip text = ""
      | None => True
      end.
Proof.
  unfold Sample.fitz_only. destruct file as [doc|]; [|split; reflexivity].
  rewrite separator_fitz, <- blank_pages.
  destruct (existsb Main.nonblank doc); [|split; reflexivity].
  split; [|discriminate].
  destruct (Main.process_statements_pymupdf fuel doc names)
    as [[c [|d q]]|]; discriminate.
Qed.

(** Property X16.
    Whatever libraries are installed, the statement separator never answers
    with an exception of the module's own code: the validator answers
    [False] before [process_statements] can raise "No PDF library
    available" or meet the unbound name.  With no library installed every
    upload that has both files is rejected as a PDF with no readable
    text. *)
Theorem separator_never_raises (PyPDF2_installed fitz_installed : bool)
  (fuel : nat) (session : option Main.TempData)
  (pdf_file : option (option (list string)))
  (excel_file : option (list string)) :
  Spec.crashed
    (Main.statement_separator
       (Main.import_block PyPDF2_installed fitz_installed) fuel session
       pdf_file excel_file) = false
  /\ forall file names,
      Main.statement_separator (Main.import_block false false) fuel session
        (Some file) (Some names)
      = Some (session, Main.Rejected "PDF contains no readable text").
Proof.
  split.
  - destruct pdf_file as [file|], excel_file as [names|];
      try (destruct PyPDF2_installed, fitz_installed; reflexivity).
    destruct PyPDF2_installed; [reflexivity|].
    destruct fitz_installed; [|reflexivity].
    destruct file as [doc|]; [|reflexivity].
    rewrite separator_fitz.
    destruct (existsb Main.nonblank doc); [|reflexivity].
    destruct (Main.process_statements_pymupdf fuel doc names)
      as [[c [|d q]]|]; reflexivity.
  - intros file names. reflexivity.
Qed.

(** Property X13.
    With PyMuPDF, from an upload that is put to review to the files.  The
    decisions to review are the pending decisions of the scan; when each is
    resolved once, in any order and with one of the three actions, the last
    call builds the files from categories that hold every page that the
    scan gave to a category or to a decision, and no page twice; the pages
    are numbered from 1.  The files are listed in the order in which the
    categories come back from the session, which is the order of their
    names. *)
Theorem separator_then_resolve (fuel : nat)
  (session s : option Main.TempData) (file : option (list string))
  (names : list string) (ds : list Main.Decision)
  (requests : list (string * Main.Decision)) :
  Main.statement_separator Sample.fitz_only fuel session (Some file)
    (Some names) = Some (s, Main.Review ds) ->
  Permutation (map snd requests) ds ->
  Forall (fun r => Spec.known_action (fst r)) requests ->
  exists doc cats cats',
    file = Some doc
    /\ Main.process_statements_pymupdf fuel doc names = Some (cats, ds)
    /\ snd (Spec.resolve_all s requests)
       = (map Main.Continue (Spec.countdown (List.length requests))
          ++ [Main.Complete
                (map fst
                   (Main.create_statement_pdfs_pymupdf (List.length doc)
                      [("dnm", Main.dnm cats');
                       ("foreign", Main.foreign cats');
                       ("national_multi", Main.national_multi cats');
                       ("national_single",
                        Main.national_single cats')]))])%list
    /\ NoDup (Spec.assigned (cats', []))
    /\ Forall (fun p => 1 <= p) (Spec.assigned (cats', []))
    /\ Permutation (Spec.assigned (cats', [])) (Spec.assigned (cats, ds)).
Proof.
  intros H P K. unfold Sample.fitz_only in H.
  destruct file as [doc|]; [|discriminate].
  rewrite separator_fitz in H.
  destruct (existsb Main.nonblank doc); [|discriminate].
  destruct (Main.process_statements_pymupdf fuel doc names) as [[c q]|] eqn:S;
    [|discriminate].
  destruct q as [|d q]; [discriminate|]. injection H as <- <-.
  pose proof S as S'. unfold Main.process_statements_pymupdf in S'.
  apply (scanned_loop_pymupdf names) in S';
    [|simpl; lia|apply scanned_start].
  destruct S' as (pn & _ & Hnd & Hb & _ & Hsort).
  set (td := {| Main.pdf := doc; Main.categories := c;
                Main.pending := d :: q |}).
  assert (Hq : NoDup (Main.pending td)).
  { apply (NoDup_map_inv Main.page_num), StronglySorted_lt_NoDup, Hsort. }
  pose proof (resolve_all_drains requests td
                (requests_nonempty _ (d :: q) ltac:(discriminate) P) Hq P)
    as R.
  set (cats' := fold_left
                  (fun c r => Main.apply_action (fst r) (snd r) c)
                  requests c).
  assert (Pm : Permutation (Spec.assigned (cats', []))
                           (Spec.assigned (c, d :: q))).
  { apply fold_actions_pages; assumption. }
  exists doc, c, cats'. split; [reflexivity|].
  split; [exact S|]. split; [exact R|].
  split; [|split; [|exact Pm]].
  - eapply Permutation_NoDup; [apply Permutation_sym, Pm|exact Hnd].
  - eapply Permutation_Forall; [apply Permutation_sym, Pm|].
    eapply Forall_impl; [|exact Hb]. simpl. intros. lia.
Qed.

(** Two pages with a name close to two entries of the registry, resolved
    to National and to Foreign. *)
Lemma separator_then_resolve_witness :
  Main.statement_separator Sample.fitz_only 2 None
    (Some (Some [Sample.bare; Sample.bare])) (Some Registry.twins)
  = Some (Some Sample.review, Main.Review [Sample.asked; Sample.asked_again])
  /\ snd (Spec.resolve_all (Some Sample.review)
            [("national", Sample.asked_again); ("foreign", Sample.asked)])
     = [Main.Continue 1; Main.Complete ["foreign.pdf"; "national_single.pdf"]]
  /\ exists doc cats cats',
      Some [Sample.bare; Sample.bare] = Some doc
      /\ Main.process_statements_pymupdf 2 doc Registry.twins
         = Some (cats, [Sample.asked; Sample.asked_again])
      /\ snd (Spec.resolve_all (Some Sample.review)
                [("national", Sample.asked_again); ("foreign", Sample.asked)])
         = (map Main.Continue (Spec.countdown 2)
            ++ [Main.Complete
                  (map fst
                     (Main.create_statement_pdfs_pymupdf (List.length doc)
                        [("dnm", Main.dnm cats');
                         ("foreign", Main.foreign cats');
                         ("national_multi", Main.national_multi cats');
                         ("national_single",
                          Main.national_single cats')]))])%list
      /\ NoDup (Spec.assigned (cats', []))
      /\ Forall (fun p => 1 <= p) (Spec.assigned (cats', []))
      /\ Permutation (Spec.assigned (cats', []))
           (Spec.assigned (cats, [Sample.asked; Sample.asked_again])).
Proof.
  assert (E : Main.statement_separator Sample.fitz_only 2 None
                (Some (Some [Sample.bare; Sample.bare]))
                (Some Registry.twins)
              = Some (Some Sample.review,
                      Main.Review [Sample.asked; Sample.asked_again]))
    by run.
  split; [exact E|]. split; [run|].
  apply (separator_then_resolve 2 None (Some Sample.review)
           (Some [Sample.bare; Sample.bare]) Registry.twins
           [Sample.asked; Sample.asked_again]
           [("national", Sample.asked_again); ("foreign", Sample.asked)] E).
  - apply perm_swap.
  - apply Forall_cons; [|apply Forall_cons; [|apply Forall_nil]].
    + right. right. left. reflexivity.
    + right. left. reflexivity.
Defined.

(* ================================================================== *)
(** * Properties of the extraction of records *)
(* ================================================================== *)

(** Property X6.
    The name of a detected record starts with a start marker, since the text
    taken for the record starts at the marker and not after it; every line
    of the record is trimmed and not empty.  So a registry with no entry
    that starts with a start marker never matches a name exactly. *)
Theorem record_name_marker (text : string) (ls names : list string) :
  Main.record_lines text = Some ls ->
  (exists m rest, In m Main.start_markers /\ hd "" ls = (m ++ rest)%string)
  /\ Forall (fun l => l <> "" /\ Py.strip l = l) ls
  /\ ((forall n m rest,
         In n names -> In m Main.start_markers -> n <> (m ++ rest)%string) ->
      Py.mem (hd "" ls) names = false).
Proof.
  intros R. pose proof (record_lines_marker text ls R) as (m & rest & Hm & E).
  split; [exists m, rest; auto|]. split.
  - apply record_lines_some in R.
    destruct R as (i & j & _ & _ & _ & L & _). subst ls.
    apply Forall_forall. intros l Hl.
    apply (stripped_lines_trimmed _ _ _ _ Hl).
  - intros H. destruct (Py.mem (hd "" ls) names) eqn:M; [|reflexivity].
    exfalso. apply mem_In in M. apply (H _ m rest M Hm E).
Qed.

(** The sample record against a registry of plain names. *)
Lemma record_name_marker_witness :
  Main.record_lines Sample.madrid
  = Some ["914.949.9618"; "Acme Corp"; "Calle Mayor 1, MADRID";
          "Page 1 of 3"]
  /\ Py.mem "914.949.9618" ["Acme Corp"] = false.
Proof.
  assert (R : Main.record_lines Sample.madrid
              = Some ["914.949.9618"; "Acme Corp"; "Calle Mayor 1, MADRID";
                      "Page 1 of 3"]) by run.
  split; [exact R|].
  apply (record_name_marker Sample.madrid _ ["Acme Corp"] R).
  intros n m rest [<-|[]] Hm E. simpl in Hm.
  destruct Hm as [<-|[<-|[<-|[<-|[]]]]]; discriminate E.
Defined.

(* ================================================================== *)
(** * Properties of the extraction of invoices *)
(* ================================================================== *)

(** Property X14.
    In the dictionary of the extraction no identifier comes twice; every
    identifier is [P] or [R] followed by six to eight digits; its page list
    is not empty and holds exactly the pages of the document on whose text
    the identifier matches, where it stands as a whole token.  The two
    backends return the same dictionary. *)
Theorem extracted_invoices (doc : list string) :
  let invoices := Main.extract_invoices_pypdf2 doc in
  Main.extract_invoices_pymupdf doc = invoices
  /\ NoDup (map fst invoices)
  /\ forall k ps,
      In (k, ps) invoices ->
      Spec.invoice_shape k /\ ps <> []
      /\ forall p,
          In p ps <->
          0 <= p < Z.of_nat (List.length doc)
          /\ In k (Re.findall_invoices (Main.get_text doc p))
          /\ Spec.token_in k (Main.get_text doc p) = true.
Proof.
  intros invoices. split; [apply extract_invoices_same|].
  split; [apply extract_keys_NoDup|]. intros k ps Hin.
  destruct (extract_key_origin doc k) as (p0 & Hr0 & Hf0).
  { apply in_map_iff. exists (k, ps). auto. }
  split; [apply (findall_from_spec _ None 0%nat k Hf0)|].
  split; [apply (extract_pages_nonempty doc k ps Hin)|].
  intros p. rewrite (extract_entry doc k ps Hin), pages_of_In.
  split; [|tauto]. intros [Hr Hf]. split; [exact Hr|].
  split; [exact Hf|]. apply (findall_from_spec _ None 0%nat k Hf).
Qed.

(** Property X15.
    The answer of the invoice processor with PyMuPDF, for a file the library
    opens.  It is the error "No invoices found in PDF" exactly when no page
    of the document holds a match.  Otherwise it is the archive with one
    entry [<identifier>.pdf] for every identifier of the dictionary, in the
    order of first appearance, holding the identifier's page list as it is;
    no two entries share a name. *)
Theorem invoice_processor_answer (doc : list string) :
  let answer := Main.invoice_processor Sample.fitz_only (Some doc) in
  let invoices := Main.extract_invoices_pymupdf doc in
  (answer = Main.NoArchive "No invoices found in PDF" <->
   forall text, In text doc -> Re.findall_invoices text = [])
  /\ ((exists text, In text doc /\ Re.findall_invoices text <> []) <->
      answer = Main.Archive
                 (map (fun e => ((fst e ++ ".pdf")%string, snd e)) invoices))
  /\ NoDup (map (fun e => (fst e ++ ".pdf")%string) invoices).
Proof.
  intros answer invoices.
  pose proof (extract_invoices_same doc) as Hsame. fold invoices in Hsame.
  pose proof (extract_keys_NoDup doc) as Hnd.
  pose proof (extract_pages_nonempty doc) as Hall.
  rewrite <- Hsame in Hnd, Hall.
  assert (Hzip : Main.create_invoice_zip invoices
                 = map (fun e => ((fst e ++ ".pdf")%string, snd e)) invoices).
  { apply create_invoice_zip_all. intros k ps Hin.
    apply (Hall k ps Hin). }
  assert (Hans : answer = match invoices with
                          | [] => Main.NoArchive "No invoices found in PDF"
                          | _ => Main.Archive (Main.create_invoice_zip invoices)
                          end).
  { unfold answer, Main.invoice_processor, Sample.fitz_only.
    rewrite extract_fitz, <- Hsame. reflexivity. }
  pose proof (extract_empty doc) as Hempty. rewrite <- Hsame in Hempty.
  assert (Hsome : invoices <> [] ->
                  exists text, In text doc /\ Re.findall_invoices text <> []).
  { intros Hne.
    assert (N : ~ forall text, In text doc -> Re.findall_invoices text = []).
    { intros A. apply Hne, Hempty, A. }
    clear - N. induction doc as [|t doc IH]; [exfalso; apply N; intros ? []|].
    destruct (Re.findall_invoices t) eqn:F.
    - destruct IH as (text & Hin & Hf).
      + intros A. apply N. intros text [<- |Hin]; [exact F|auto].
      + exists text. simpl. auto.
    - exists t. simpl. rewrite F. split; [auto|discriminate]. }
  rewrite Hans, Hzip. split; [|split].
  - rewrite <- Hempty. destruct invoices; split; try reflexivity;
      discriminate.
  - split.
    + intros (text & Hin & Hf). destruct invoices as [|e inv] eqn:E;
        [|reflexivity].
      exfalso. apply Hf. apply Hempty; [reflexivity|exact Hin].
    + intros H. apply Hsome. intros E. rewrite E in H. discriminate H.
  - rewrite <- (map_map fst (fun k => (k ++ ".pdf")%string)).
    apply Finite.Injective_map_NoDup; [|exact Hnd].
    intros a b. apply append_suffix_inj.
Qed.
